(** * customs: calls executed at module import time

    A shallow embedding of [src/customs.py] (the [Violation], [Checker],
    [CallImportChecker] and [Linter] classes and the [lint] driver) together
    with the part of Python's [ast] module the program relies on: the tree
    that [ast.parse] returns and the traversal of [ast.NodeVisitor]. *)

From Stdlib Require Import List String Ascii ZArith NArith Bool Lia.
From Stdlib Require Import DecimalString Permutation.
Import ListNotations.
Local Open Scope string_scope.
Local Open Scope Z_scope.

(** ** Exceptions *)

Module Py.

(** The exceptions that can cross the program: [ast.parse] raises
    [SyntaxError]; reading an attribute an object does not have raises
    [AttributeError]; opening or reading a file raises [OSError]; calls
    nested deeper than the interpreter allows raise [RecursionError]. *)
Inductive exn : Type :=
| SyntaxError (msg : string)
| AttributeError (attr : string)
| OSError (msg : string)
| RecursionError (msg : string).

Inductive result (A : Type) : Type :=
| Ok (a : A)
| Raise (e : exn).
Arguments Ok {A} a.
Arguments Raise {A} e.

Definition bind {A B : Type} (m : result A) (k : A -> result B) : result B :=
  match m with
  | Ok a => k a
  | Raise e => Raise e
  end.

End Py.
Import Py.

Notation "x <- m ;; k" := (bind m (fun x => k))
  (at level 61, m at next level, right associativity).
Notation "' pat <- m ;; k" := (bind m (fun x => match x with pat => k end))
  (at level 61, pat pattern, m at next level, right associativity).

(** ** Strings

    A Python [str] is a sequence of characters; [len], [in], [split] and
    [join] are modelled on Rocq strings character by character. *)

Module Str.

Definition nl : ascii := "010"%char.
Definition newline : string := String nl EmptyString.

(** [str(n)] for an [int]. *)
Definition of_Z (n : Z) : string := NilZero.string_of_int (Z.to_int n).

(** [str(n)] for a non-negative counter. *)
Definition of_nat (n : nat) : string := of_Z (Z.of_nat n).

(** [" " * n]. *)
Fixpoint spaces (n : nat) : string :=
  match n with
  | O => EmptyString
  | S n' => String " "%char (spaces n')
  end.

(** ["\n" in s]. *)
Fixpoint has_newline (s : string) : bool :=
  match s with
  | EmptyString => false
  | String c s' => if Ascii.eqb c nl then true else has_newline s'
  end.

(** [s.split("\n")]: the pieces between newline characters; never empty. *)
Fixpoint split_lines (s : string) : list string :=
  match s with
  | EmptyString => [EmptyString]
  | String c s' =>
      if Ascii.eqb c nl then EmptyString :: split_lines s'
      else match split_lines s' with
           | [] => [String c EmptyString]
           | line :: rest => String c line :: rest
           end
  end.

(** ["".join(l)]. *)
Definition join (l : list string) : string := String.concat EmptyString l.

(** [not s] for a string: true exactly on the empty string. *)
Definition is_empty (s : string) : bool :=
  match s with
  | EmptyString => true
  | String _ _ => false
  end.

(** [x in l] for a list of strings. *)
Definition mem (x : string) (l : list string) : bool :=
  existsb (String.eqb x) l.

(** [posixpath.basename]: what follows the last slash. *)
Fixpoint basename (p : string) : string :=
  match p with
  | EmptyString => EmptyString
  | String c p' =>
      if Ascii.eqb c "/"%char then basename p'
      else if existsb (Ascii.eqb "/"%char) (list_ascii_of_string p') then basename p'
      else p
  end.

End Str.

(** ** The syntax tree of Python's [ast] module

    [ast.parse] returns a [Module] whose nodes follow the abstract grammar
    (the ASDL quoted in the source): a [Call]'s [func] is an expression, a
    [Module]'s [body] is a list of statements.  The classes the checker
    inspects ([Expr], [Assign], [Call], [Name], [Attribute]) have their own
    constructors; every other class keeps its class name and, in field
    order, the nodes its fields hold, which is all [generic_visit] reads. *)

Definition identifier := string.

(** [id(node)]: [ast.AST] objects compare and hash by identity. *)
Definition obj_id := N.
Bind Scope N_scope with obj_id.

(** The position attributes the parser sets on statements and expressions:
    [lineno] counts from 1, [col_offset] from 0. *)
Record location : Type := mkLoc {
  lineno : Z;
  col_offset : Z;
  end_lineno : option Z;
  end_col_offset : option Z
}.

Inductive expr_context : Type := Load | Store | Del.

Inductive expr_class : Type :=
| E_BoolOp | E_NamedExpr | E_BinOp | E_UnaryOp | E_Lambda | E_IfExp | E_Dict
| E_Set | E_ListComp | E_SetComp | E_DictComp | E_GeneratorExp | E_Await
| E_Yield | E_YieldFrom | E_Compare | E_FormattedValue | E_JoinedStr
| E_Constant | E_Subscript | E_Starred | E_List | E_Tuple | E_Slice.

Inductive stmt_class : Type :=
| S_FunctionDef | S_AsyncFunctionDef | S_ClassDef | S_Return | S_Delete
| S_TypeAlias | S_AugAssign | S_AnnAssign | S_For | S_AsyncFor | S_While
| S_If | S_With | S_AsyncWith | S_Match | S_Raise | S_Try | S_TryStar
| S_Assert | S_Import | S_ImportFrom | S_Global | S_Nonlocal | S_Pass
| S_Break | S_Continue.

(** Node classes that are neither statements nor expressions. *)
Inductive aux_class : Type :=
| X_comprehension | X_ExceptHandler | X_arguments | X_arg | X_alias
| X_withitem | X_match_case | X_pattern | X_type_param | X_operator
| X_expr_context | X_TypeIgnore.

Unset Elimination Schemes.
Inductive expr : Type :=
| Name (o : obj_id) (l : location) (id : identifier) (ctx : expr_context)
| Attribute (o : obj_id) (l : location) (value : expr) (attr : identifier)
    (ctx : expr_context)
| Call (o : obj_id) (l : location) (func : expr) (args : list expr)
    (keywords : list keyword)
| ExprOther (cls : expr_class) (o : obj_id) (l : location) (fields : list AST)
with keyword : Type :=
| Keyword (o : obj_id) (l : location) (arg : option identifier) (value : expr)
with stmt : Type :=
| Expr (o : obj_id) (l : location) (value : expr)
| Assign (o : obj_id) (l : location) (targets : list expr) (value : expr)
| StmtOther (cls : stmt_class) (o : obj_id) (l : location) (fields : list AST)
with AST : Type :=
| NExpr (e : expr)
| NKeyword (k : keyword)
| NStmt (s : stmt)
| NOther (cls : aux_class) (o : obj_id) (l : option location)
    (fields : list AST).
Set Elimination Schemes.

(** The [Module] object [ast.parse(source)] returns in its default mode. *)
Inductive module : Type :=
| Module_ (body : list stmt) (type_ignores : list AST).

(** The class of an object, for [isinstance] and for the visitor's
    dispatch on [node.__class__.__name__]. *)
Inductive ast_class : Type :=
| ClsName | ClsAttribute | ClsCall | ClsExprOther (c : expr_class)
| ClsKeyword
| ClsExpr | ClsAssign | ClsStmtOther (c : stmt_class)
| ClsOther (c : aux_class).

Scheme Equality for expr_class.
Scheme Equality for stmt_class.
Scheme Equality for aux_class.

Definition ast_class_eqb (a b : ast_class) : bool :=
  match a, b with
  | ClsName, ClsName | ClsAttribute, ClsAttribute | ClsCall, ClsCall
  | ClsKeyword, ClsKeyword | ClsExpr, ClsExpr | ClsAssign, ClsAssign => true
  | ClsExprOther c, ClsExprOther d => expr_class_beq c d
  | ClsStmtOther c, ClsStmtOther d => stmt_class_beq c d
  | ClsOther c, ClsOther d => aux_class_beq c d
  | _, _ => false
  end.

Definition class_of_expr (e : expr) : ast_class :=
  match e with
  | Name _ _ _ _ => ClsName
  | Attribute _ _ _ _ _ => ClsAttribute
  | Call _ _ _ _ _ => ClsCall
  | ExprOther c _ _ _ => ClsExprOther c
  end.

Definition class_of_stmt (s : stmt) : ast_class :=
  match s with
  | Expr _ _ _ => ClsExpr
  | Assign _ _ _ _ => ClsAssign
  | StmtOther c _ _ _ => ClsStmtOther c
  end.

(** [isinstance(e, (C1, ..., Cn))] for an expression object. *)
Definition isinstance (e : expr) (classes : list ast_class) : bool :=
  existsb (ast_class_eqb (class_of_expr e)) classes.

(** *** Attribute access *)

Definition expr_obj (e : expr) : obj_id :=
  match e with
  | Name o _ _ _ | Attribute o _ _ _ _ | Call o _ _ _ _ | ExprOther _ o _ _ => o
  end.

Definition expr_location (e : expr) : location :=
  match e with
  | Name _ l _ _ | Attribute _ l _ _ _ | Call _ l _ _ _ | ExprOther _ _ l _ => l
  end.

Definition stmt_obj (s : stmt) : obj_id :=
  match s with
  | Expr o _ _ | Assign o _ _ _ | StmtOther _ o _ _ => o
  end.

Definition stmt_location (s : stmt) : location :=
  match s with
  | Expr _ l _ | Assign _ l _ _ | StmtOther _ _ l _ => l
  end.

Definition AST_obj (n : AST) : obj_id :=
  match n with
  | NExpr e => expr_obj e
  | NKeyword (Keyword o _ _ _) => o
  | NStmt s => stmt_obj s
  | NOther _ o _ _ => o
  end.

(** [node.lineno], [node.col_offset]: objects of classes without position
    attributes raise [AttributeError]. *)
Definition AST_location (n : AST) : option location :=
  match n with
  | NExpr e => Some (expr_location e)
  | NKeyword (Keyword _ l _ _) => Some l
  | NStmt s => Some (stmt_location s)
  | NOther _ _ l _ => l
  end.

Definition get_lineno (n : AST) : result Z :=
  match AST_location n with
  | Some l => Ok (lineno l)
  | None => Raise (AttributeError "lineno")
  end.

Definition get_col_offset (n : AST) : result Z :=
  match AST_location n with
  | Some l => Ok (col_offset l)
  | None => Raise (AttributeError "col_offset")
  end.

(** [node.func] *)
Definition get_func (e : expr) : result expr :=
  match e with
  | Call _ _ func _ _ => Ok func
  | _ => Raise (AttributeError "func")
  end.

(** [node.attr] *)
Definition get_attr (e : expr) : result identifier :=
  match e with
  | Attribute _ _ _ attr _ => Ok attr
  | _ => Raise (AttributeError "attr")
  end.

(** [node.id] *)
Definition get_id (e : expr) : result identifier :=
  match e with
  | Name _ _ id _ => Ok id
  | _ => Raise (AttributeError "id")
  end.

(** [node.value] of a statement. *)
Definition get_value (s : stmt) : result expr :=
  match s with
  | Expr _ _ value | Assign _ _ _ value => Ok value
  | StmtOther _ _ _ _ => Raise (AttributeError "value")
  end.

(** ** [Violation] and the violation set *)

(** [class Violation(NamedTuple)]: the node that breaks the rule and the
    message shown to the user. *)
Record Violation : Type := mkViolation {
  node : AST;
  message : string
}.

(** Equality of two [Violation] tuples: the nodes are compared by identity,
    the messages as strings. *)
Definition Violation_eqb (v w : Violation) : bool :=
  N.eqb (AST_obj (node v)) (AST_obj (node w)) && String.eqb (message v) (message w).

(** A [set[Violation]], kept in insertion order; [set_add] is [set.add],
    which leaves the set alone when an equal element is present. *)
Definition violation_set := list Violation.

Definition set_add (v : Violation) (s : violation_set) : violation_set :=
  if existsb (Violation_eqb v) s then s else (s ++ [v])%list.

(** The order in which iterating over a set yields its elements.  Python
    leaves it unspecified (it follows the hashes, here object addresses), so
    each traversal of a set receives its order from outside. *)
Definition set_iter := violation_set -> list Violation.

(** Iteration yields every element of the set exactly once. *)
Definition valid_iter (it : set_iter) : Prop :=
  forall s, Permutation (it s) s.

(** ** [Checker] and [CallImportChecker] *)

(** A [CallImportChecker] object: the fields of [Checker] ([issue_code],
    [violations]) and its own [exceptions]. *)
Record CallImportChecker : Type := mkChecker {
  issue_code : string;
  violations : violation_set;
  exceptions : list string
}.

(** [CallImportChecker.__init__] *)
Definition CallImportChecker_init (issue_code : string) : CallImportChecker :=
  {| issue_code := issue_code;
     violations := [];
     exceptions := ["getLogger"] |}.

(** [self.violations.add(v)] *)
Definition add_violation (self : CallImportChecker) (v : Violation)
  : CallImportChecker :=
  {| issue_code := issue_code self;
     violations := set_add v (violations self);
     exceptions := exceptions self |}.

(** [checker.violations = set()] *)
Definition clear_violations (self : CallImportChecker) : CallImportChecker :=
  {| issue_code := issue_code self;
     violations := [];
     exceptions := exceptions self |}.

Definition import_invoked_a_call : string := "Import invoked a Call".

(** [CallImportChecker.visit_Assign] *)
Definition visit_Assign (self : CallImportChecker) (node : stmt)
  : result CallImportChecker :=
  (* not the start of a line *)
  if negb (0 =? col_offset (stmt_location node)) then Ok self else
  value <- get_value node ;;
  (* not a type call *)
  if negb (isinstance value [ClsCall]) then Ok self else
  func <- get_func value ;;
  (* skip anything in a hardcoded list of exceptions *)
  skip_attr <- (if isinstance func [ClsAttribute]
                then attr <- get_attr func ;; Ok (Str.mem attr (exceptions self))
                else Ok false) ;;
  if skip_attr then Ok self else
  skip_name <- (if isinstance func [ClsName]
                then id <- get_id func ;; Ok (Str.mem id (exceptions self))
                else Ok false) ;;
  if skip_name then Ok self else
  Ok (add_violation self (mkViolation (NStmt node) import_invoked_a_call)).

(** [CallImportChecker.visit_Call], parameterised by the classes its
    bare-name test accepts: the source passes [(ast.Name, ast.Assign)]. *)
Definition visit_Call_with (name_classes : list ast_class)
  (self : CallImportChecker) (node : expr) : result CallImportChecker :=
  (* not the start of a line *)
  if negb (0 =? col_offset (expr_location node)) then Ok self else
  func <- get_func node ;;
  (* skip anything in a hardcoded list of exceptions *)
  skip_attr <- (if isinstance func [ClsAttribute]
                then attr <- get_attr func ;; Ok (Str.mem attr (exceptions self))
                else Ok false) ;;
  if skip_attr then Ok self else
  skip_name <- (if isinstance func name_classes
                then id <- get_id func ;; Ok (Str.mem id (exceptions self))
                else Ok false) ;;
  if skip_name then Ok self else
  Ok (add_violation self (mkViolation (NExpr node) import_invoked_a_call)).

Definition visit_Call : CallImportChecker -> expr -> result CallImportChecker :=
  visit_Call_with [ClsName; ClsAssign].

(** ** [ast.NodeVisitor]

    [visit] calls [visit_<class name>] when the checker defines it, which
    [CallImportChecker] does for [Call] and [Assign], and [generic_visit]
    otherwise.  [generic_visit] visits, in field order, every node held by
    the object's fields.  Neither hook calls [generic_visit], so the
    traversal does not go below a [Call] or an [Assign]. *)

Section VisitList.
Context {A : Type} (visit : CallImportChecker -> A -> result CallImportChecker).

Fixpoint visit_list (self : CallImportChecker) (l : list A)
  : result CallImportChecker :=
  match l with
  | [] => Ok self
  | x :: rest => self' <- visit self x ;; visit_list self' rest
  end.
End VisitList.

Section Visitor.
(** The [Call] hook in force. *)
Variable on_Call : CallImportChecker -> expr -> result CallImportChecker.

Fixpoint visit_expr (self : CallImportChecker) (e : expr) {struct e}
  : result CallImportChecker :=
  match e with
  | Call _ _ _ _ _ => on_Call self e
  | Name _ _ _ _ => Ok self
  | Attribute _ _ value _ _ => visit_expr self value
  | ExprOther _ _ _ fields => visit_list visit_AST self fields
  end
with visit_keyword (self : CallImportChecker) (k : keyword) {struct k}
  : result CallImportChecker :=
  match k with
  | Keyword _ _ _ value => visit_expr self value
  end
with visit_stmt (self : CallImportChecker) (s : stmt) {struct s}
  : result CallImportChecker :=
  match s with
  | Assign _ _ _ _ => visit_Assign self s
  | Expr _ _ value => visit_expr self value
  | StmtOther _ _ _ fields => visit_list visit_AST self fields
  end
with visit_AST (self : CallImportChecker) (n : AST) {struct n}
  : result CallImportChecker :=
  match n with
  | NExpr e => visit_expr self e
  | NKeyword k => visit_keyword self k
  | NStmt s => visit_stmt self s
  | NOther _ _ _ fields => visit_list visit_AST self fields
  end.

(** [checker.visit(tree)] on the module [ast.parse] returned. *)
Definition visit_mod (self : CallImportChecker) (tree : module)
  : result CallImportChecker :=
  match tree with
  | Module_ body type_ignores =>
      self' <- visit_list visit_stmt self body ;;
      visit_list visit_AST self' type_ignores
  end.
End Visitor.

(** [checker.visit] of a [CallImportChecker]. *)
Definition visit : CallImportChecker -> module -> result CallImportChecker :=
  visit_mod visit_Call.

(** ** [Linter] *)

(** [Linter.checkers], a set of checker objects; it is built once and not
    changed afterwards, so iterating over it yields the same order each
    time, the order of this list. *)
Record Linter : Type := mkLinter {
  checkers : list CallImportChecker
}.

(** [Linter.__init__] and [linter.checkers.add(checker)] for a checker
    object that is not in the set yet, as in [lint]. *)
Definition Linter_init : Linter := {| checkers := [] |}.

Definition add_checker (self : Linter) (c : CallImportChecker) : Linter :=
  {| checkers := (checkers self ++ [c])%list |}.

(** [Linter.format_code] *)
Definition format_code (message code : string) : string :=
  if Str.is_empty code then message else
  let barrier := " | " in
  let left_pad := Str.spaces (String.length message) ++ barrier in
  let interleave := [message ++ barrier] in
  if negb (Str.has_newline code) then message ++ barrier ++ code else
  Str.join
    (fold_left
       (fun interleave line =>
          if Str.is_empty line then interleave
          else (interleave ++ [(line ++ Str.newline)%string; left_pad])%list)
       (Str.split_lines code) interleave).

(** The text an f-string gives an optional string: [None] prints as
    ["None"]. *)
Definition fstring_of_option (s : option string) : string :=
  match s with
  | Some t => t
  | None => "None"
  end.

(** Standard output and the error stream: one entry per [print] call, which
    writes its argument followed by a newline. *)
Definition stream := list string.

Definition stream_text (s : stream) : string :=
  Str.join (map (fun line => line ++ Str.newline) s).

Section Engine.
(** [ast.parse]: the tree of a source text, or [SyntaxError]. *)
Variable parse : string -> result module.
(** [ast.get_source_segment]: the source text a node spans, [None] when
    the node carries no end position. *)
Variable get_source_segment : string -> AST -> option string.

(** The line [print_violations] prints for one violation. *)
Definition report_line (checker : CallImportChecker)
  (file_name source_code : string) (verbose : bool) (v : Violation)
  : result string :=
  let code := if verbose
              then fstring_of_option (get_source_segment source_code (node v))
              else "" in
  line <- get_lineno (node v) ;;
  col <- get_col_offset (node v) ;;
  let message := file_name ++ ":" ++ Str.of_Z line ++ ":" ++ Str.of_Z col
                 ++ ": " ++ issue_code checker ++ ": " ++ message v in
  Ok (format_code message code).

Fixpoint print_each (checker : CallImportChecker)
  (file_name source_code : string) (verbose : bool) (vs : list Violation)
  : result stream :=
  match vs with
  | [] => Ok []
  | v :: rest =>
      line <- report_line checker file_name source_code verbose v ;;
      lines <- print_each checker file_name source_code verbose rest ;;
      Ok (line :: lines)
  end.

(** [Linter.print_violations]: the lines printed and the checker with its
    violation set cleared.  [it] is the order in which the set yields its
    elements this time. *)
Definition print_violations (it : set_iter) (checker : CallImportChecker)
  (file_name source_code : string) (verbose : bool)
  : result (stream * CallImportChecker) :=
  lines <- print_each checker file_name source_code verbose
             (it (violations checker)) ;;
  (* all violations have been reported, clear for a fresh slate *)
  Ok (lines, clear_violations checker).

(** The loop of [Linter.run] over the checkers. *)
Fixpoint run_checkers (it : set_iter) (tree : module)
  (file_name source_code : string) (verbose : bool)
  (cs : list CallImportChecker)
  : result (stream * list CallImportChecker) :=
  match cs with
  | [] => Ok ([], [])
  | checker :: rest =>
      checker1 <- visit checker tree ;;
      '(lines, checker2) <-
        print_violations it checker1 file_name source_code verbose ;;
      '(more, rest') <-
        run_checkers it tree file_name source_code verbose rest ;;
      Ok ((lines ++ more)%list, checker2 :: rest')
  end.

(** [Linter.run]: what is written to standard output and the linter
    afterwards; an exception leaves through [Raise]. *)
Definition run (it : set_iter) (self : Linter)
  (file_name source_code : string) (verbose : bool)
  : result (stream * Linter) :=
  tree <- parse source_code ;;
  '(lines, cs) <-
    run_checkers it tree file_name source_code verbose (checkers self) ;;
  Ok (lines, {| checkers := cs |}).

(** ** [lint] *)

(** [Path(p).is_file()] and [open(p).read()]. *)
Variable is_file : string -> bool.
Variable read_file : string -> result string.

Record output : Type := mkOutput {
  stdout : stream;
  stderr : stream
}.

(** The loop of [lint] over the paths; [its n] is the iteration order of
    the sets printed for the [n]-th linted file. *)
Fixpoint lint_files (its : nat -> set_iter) (verbose : bool)
  (files : list string) (linter : Linter) (linted_files : nat)
  (out : output) : result (nat * output) :=
  match files with
  | [] => Ok (linted_files, out)
  | source_path :: rest =>
      if negb (is_file source_path) then
        let out' :=
          if verbose
          then {| stdout := stdout out;
                  stderr := (stderr out
                             ++ [("ignoring file: " ++ source_path)%string])%list |}
          else out in
        lint_files its verbose rest linter linted_files out'
      else
        let file_name := Str.basename source_path in
        source_code <- read_file source_path ;;
        '(lines, linter') <-
          run (its linted_files) linter file_name source_code verbose ;;
        lint_files its verbose rest linter' (S linted_files)
          {| stdout := (stdout out ++ lines)%list; stderr := stderr out |}
  end.

(** [lint(files, verbose)] *)
Definition lint (its : nat -> set_iter) (files : list string)
  (verbose : bool) : result output :=
  let linter := add_checker Linter_init (CallImportChecker_init "W001") in
  '(linted_files, out) <-
    lint_files its verbose files linter 0%nat
      {| stdout := []; stderr := [] |} ;;
  Ok {| stdout := stdout out;
        stderr := (stderr out
                   ++ [("Analyzed " ++ Str.of_nat linted_files ++ " files"
                        ++ Str.newline)%string])%list |}.
End Engine.

(** ** Notions the properties are stated with *)

(** The objects of a subtree, the root first. *)
Fixpoint expr_nodes (e : expr) {struct e} : list AST :=
  NExpr e ::
  match e with
  | Name _ _ _ _ => []
  | Attribute _ _ value _ _ => expr_nodes value
  | Call _ _ func args keywords =>
      expr_nodes func ++ flat_map expr_nodes args
      ++ flat_map keyword_nodes keywords
  | ExprOther _ _ _ fields => flat_map AST_nodes fields
  end%list
with keyword_nodes (k : keyword) {struct k} : list AST :=
  NKeyword k ::
  match k with
  | Keyword _ _ _ value => expr_nodes value
  end
with stmt_nodes (s : stmt) {struct s} : list AST :=
  NStmt s ::
  match s with
  | Expr _ _ value => expr_nodes value
  | Assign _ _ targets value => flat_map expr_nodes targets ++ expr_nodes value
  | StmtOther _ _ _ fields => flat_map AST_nodes fields
  end%list
with AST_nodes (n : AST) {struct n} : list AST :=
  match n with
  | NExpr e => expr_nodes e
  | NKeyword k => keyword_nodes k
  | NStmt s => stmt_nodes s
  | NOther _ _ _ fields => n :: flat_map AST_nodes fields
  end.

Definition module_nodes (tree : module) : list AST :=
  match tree with
  | Module_ body type_ignores =>
      (flat_map stmt_nodes body ++ flat_map AST_nodes type_ignores)%list
  end.

(** The identities of the objects of a tree; a parsed tree has no object
    twice, so they are pairwise distinct. *)
Definition module_objs (tree : module) : list obj_id :=
  map AST_obj (module_nodes tree).

Definition stmt_objs (s : stmt) : list obj_id := map AST_obj (stmt_nodes s).

(** The callee name of a call: the identifier of a bare name, the accessed
    attribute of an attribute access; other callees have none. *)
Definition callee_name (func : expr) : option identifier :=
  match func with
  | Name _ _ id _ => Some id
  | Attribute _ _ _ attr _ => Some attr
  | _ => None
  end.

Definition callee_exempt (exceptions : list string) (func : expr) : bool :=
  match callee_name func with
  | Some name => Str.mem name exceptions
  | None => false
  end.


(** The nodes [generic_visit] goes on to from an object whose class has no
    hook in [CallImportChecker]; [None] for [Call] and [Assign], which
    have one. *)
Definition generic_children (n : AST) : option (list AST) :=
  match n with
  | NExpr (Call _ _ _ _ _) => None
  | NExpr (Name _ _ _ _) => Some []
  | NExpr (Attribute _ _ value _ _) => Some [NExpr value]
  | NExpr (ExprOther _ _ _ fields) => Some fields
  | NKeyword (Keyword _ _ _ value) => Some [NExpr value]
  | NStmt (Assign _ _ _ _) => None
  | NStmt (Expr _ _ value) => Some [NExpr value]
  | NStmt (StmtOther _ _ _ fields) => Some fields
  | NOther _ _ _ fields => Some fields
  end.

(** [below_unhooked n k]: [k] is [n] or lies below it with only objects of
    classes without hook in between. *)
Inductive below_unhooked : AST -> AST -> Prop :=
| below_here (n : AST) : below_unhooked n n
| below_child (n m k : AST) (fields : list AST) :
    generic_children n = Some fields -> In m fields ->
    below_unhooked m k -> below_unhooked n k.

(** The first line of a report, before any source text. *)
Definition line_at (issue_code file_name : string) (l : location)
  (message : string) : string :=
  file_name ++ ":" ++ Str.of_Z (lineno l) ++ ":" ++ Str.of_Z (col_offset l)
  ++ ": " ++ issue_code ++ ": " ++ message.

(** The source text shown with a violation. *)
Definition snippet (get_source_segment : string -> AST -> option string)
  (source_code : string) (verbose : bool) (n : AST) : string :=
  if verbose then fstring_of_option (get_source_segment source_code n) else "".

(** What a hook records: a located node at column 0 and the fixed message. *)
Definition hook_violation (v : Violation) : Prop :=
  message v = import_invoked_a_call /\
  exists l, AST_location (node v) = Some l /\ col_offset l = 0.

(** What identifies a violation in the set. *)
Definition key (v : Violation) : obj_id * string :=
  (AST_obj (node v), message v).

(** Adding several violations in turn. *)
Definition add_all (new : list Violation) (c : CallImportChecker)
  : CallImportChecker :=
  fold_left add_violation new c.

(** [adds_within P c c']: [c'] is [c] after adding violations that all
    satisfy [P]. *)
Definition adds_within (P : Violation -> Prop) (c c' : CallImportChecker)
  : Prop :=
  exists new, c' = add_all new c /\ Forall P new.

(** [visit_ok f nodes x]: visiting [x] with [f] returns, and it adds only
    what a hook records on objects of [x]. *)
Definition visit_ok {A : Type}
  (f : CallImportChecker -> A -> result CallImportChecker)
  (nodes : A -> list AST) (x : A) : Prop :=
  forall c, exists c',
    f c x = Ok c' /\
    adds_within (fun v => In (node v) (nodes x) /\ hook_violation v) c c'.

(** The objects of a module outside its statement [s], the module's body
    being [pre ++ s :: post]. *)
Definition nodes_outside (pre post : list stmt) (type_ignores : list AST)
  : list AST :=
  (flat_map stmt_nodes pre ++ flat_map stmt_nodes post
   ++ flat_map AST_nodes type_ignores)%list.

(** A linter with one checker. *)
Definition single (c : CallImportChecker) : Linter := {| checkers := [c] |}.

(** Every violation waiting in a set of the linter is on a node with a
    position; so it is when the sets are empty, as they are before the
    first run and after every run. *)
Definition pending_located (linter : Linter) : Prop :=
  Forall (fun c => Forall (fun v => AST_location (node v) <> None)
                     (violations c))
    (checkers linter).

(** The linter [lint] builds. *)
Definition lint_linter : Linter :=
  add_checker Linter_init (CallImportChecker_init "W001").

(** *** Induction over the syntax tree *)

Section AST_induction.
Variables (Pe : expr -> Prop) (Pk : keyword -> Prop)
          (Ps : stmt -> Prop) (Pn : AST -> Prop).
Hypothesis HName : forall o l id ctx, Pe (Name o l id ctx).
Hypothesis HAttribute : forall o l value attr ctx,
    Pe value -> Pe (Attribute o l value attr ctx).
Hypothesis HCall : forall o l func args keywords,
    Pe func -> Forall Pe args -> Forall Pk keywords ->
    Pe (Call o l func args keywords).
Hypothesis HExprOther : forall c o l fields,
    Forall Pn fields -> Pe (ExprOther c o l fields).
Hypothesis HKeyword : forall o l arg value,
    Pe value -> Pk (Keyword o l arg value).
Hypothesis HExpr : forall o l value, Pe value -> Ps (Expr o l value).
Hypothesis HAssign : forall o l targets value,
    Forall Pe targets -> Pe value -> Ps (Assign o l targets value).
Hypothesis HStmtOther : forall c o l fields,
    Forall Pn fields -> Ps (StmtOther c o l fields).
Hypothesis HNExpr : forall e, Pe e -> Pn (NExpr e).
Hypothesis HNKeyword : forall k, Pk k -> Pn (NKeyword k).
Hypothesis HNStmt : forall s, Ps s -> Pn (NStmt s).
Hypothesis HNOther : forall c o l fields,
    Forall Pn fields -> Pn (NOther c o l fields).

Fixpoint expr_ind' (e : expr) {struct e} : Pe e :=
  match e with
  | Name o l id ctx => HName o l id ctx
  | Attribute o l value attr ctx =>
      HAttribute o l value attr ctx (expr_ind' value)
  | Call o l func args keywords =>
      HCall o l func args keywords (expr_ind' func)
        ((fix all (es : list expr) : Forall Pe es :=
            match es with
            | [] => Forall_nil Pe
            | x :: rest => Forall_cons x (expr_ind' x) (all rest)
            end) args)
        ((fix all (ks : list keyword) : Forall Pk ks :=
            match ks with
            | [] => Forall_nil Pk
            | x :: rest => Forall_cons x (keyword_ind' x) (all rest)
            end) keywords)
  | ExprOther c o l fields =>
      HExprOther c o l fields
        ((fix all (ns : list AST) : Forall Pn ns :=
            match ns with
            | [] => Forall_nil Pn
            | x :: rest => Forall_cons x (AST_ind' x) (all rest)
            end) fields)
  end
with keyword_ind' (k : keyword) {struct k} : Pk k :=
  match k with
  | Keyword o l arg value => HKeyword o l arg value (expr_ind' value)
  end
with stmt_ind' (s : stmt) {struct s} : Ps s :=
  match s with
  | Expr o l value => HExpr o l value (expr_ind' value)
  | Assign o l targets value =>
      HAssign o l targets value
        ((fix all (es : list expr) : Forall Pe es :=
            match es with
            | [] => Forall_nil Pe
            | x :: rest => Forall_cons x (expr_ind' x) (all rest)
            end) targets)
        (expr_ind' value)
  | StmtOther c o l fields =>
      HStmtOther c o l fields
        ((fix all (ns : list AST) : Forall Pn ns :=
            match ns with
            | [] => Forall_nil Pn
            | x :: rest => Forall_cons x (AST_ind' x) (all rest)
            end) fields)
  end
with AST_ind' (n : AST) {struct n} : Pn n :=
  match n with
  | NExpr e => HNExpr e (expr_ind' e)
  | NKeyword k => HNKeyword k (keyword_ind' k)
  | NStmt s => HNStmt s (stmt_ind' s)
  | NOther c o l fields =>
      HNOther c o l fields
        ((fix all (ns : list AST) : Forall Pn ns :=
            match ns with
            | [] => Forall_nil Pn
            | x :: rest => Forall_cons x (AST_ind' x) (all rest)
            end) fields)
  end.
End AST_induction.

(** ** Sample inputs

    The trees [ast.parse] returns for a few source texts (the ones of the
    repository's tests among them), a parser and a source extractor defined
    on exactly these texts, and a file system holding one of them. *)

Module Samples.

Definition span (line col end_line end_col : Z) : location :=
  mkLoc line col (Some end_line) (Some end_col).

Definition import_re : stmt :=
  StmtOther S_Import 1 (span 1 0 1 9) [NOther X_alias 2 (Some (span 1 7 1 9)) []].

(** [re.search("")], the call starting at column [col] of line 2. *)
Definition re_search (o : obj_id) (col : Z) : expr :=
  Call o (span 2 col 2 (col + 13))
    (Attribute (o + 1) (span 2 col 2 (col + 9))
       (Name (o + 2) (span 2 col 2 (col + 2)) "re" Load) "search" Load)
    [ExprOther E_Constant (o + 3) (span 2 (col + 10) 2 (col + 12)) []] [].

Definition src_call : string := "import re" ++ Str.newline
  ++ "re.search('')" ++ Str.newline.
Definition tree_call : module :=
  Module_ [import_re; Expr 3 (span 2 0 2 13) (re_search 4 0)] [].

Definition src_assign : string := "import re" ++ Str.newline
  ++ "a = re.search('')" ++ Str.newline.
Definition assign_stmt : stmt :=
  Assign 3 (span 2 0 2 17) [Name 4 (span 2 0 2 1) "a" Store] (re_search 5 4).
Definition tree_assign : module := Module_ [import_re; assign_stmt] [].

Definition src_exempt : string := "import logging" ++ Str.newline
  ++ "logging.getLogger()" ++ Str.newline
  ++ "log = getLogger()" ++ Str.newline.
Definition exempt_call_stmt : stmt :=
  Expr 3 (span 2 0 2 19)
    (Call 4 (span 2 0 2 19)
       (Attribute 5 (span 2 0 2 17)
          (Name 6 (span 2 0 2 7) "logging" Load) "getLogger" Load) [] []).
Definition exempt_assign_stmt : stmt :=
  Assign 7 (span 3 0 3 17) [Name 8 (span 3 0 3 3) "log" Store]
    (Call 9 (span 3 6 3 17) (Name 10 (span 3 6 3 15) "getLogger" Load) [] []).
Definition tree_exempt : module :=
  Module_ [StmtOther S_Import 1 (span 1 0 1 14)
             [NOther X_alias 2 (Some (span 1 7 1 14)) []];
           exempt_call_stmt; exempt_assign_stmt] [].

(** A call statement in parentheses, the call on the line after the
    opening parenthesis. *)
Definition src_paren : string := "(" ++ Str.newline ++ "foo())" ++ Str.newline.
Definition paren_call : expr :=
  Call 2 (span 2 0 2 5) (Name 3 (span 2 0 2 3) "foo" Load) [] [].
Definition paren_stmt : stmt := Expr 1 (span 1 0 2 6) paren_call.
Definition tree_paren : module := Module_ [paren_stmt] [].

(** A call whose callee is an attribute of another call's result. *)
Definition src_nested : string := "foo().getLogger()" ++ Str.newline.
Definition nested_inner : expr :=
  Call 4 (span 1 0 1 5) (Name 5 (span 1 0 1 3) "foo" Load) [] [].
Definition nested_outer : expr :=
  Call 2 (span 1 0 1 17)
    (Attribute 3 (span 1 0 1 15) nested_inner "getLogger" Load) [] [].
Definition nested_stmt : stmt := Expr 1 (span 1 0 1 17) nested_outer.
Definition tree_nested : module := Module_ [nested_stmt] [].

(** A call as the left operand of an addition. *)
Definition src_binop : string := "foo() + 1" ++ Str.newline.
Definition binop_call : expr :=
  Call 3 (span 1 0 1 5) (Name 4 (span 1 0 1 3) "foo" Load) [] [].
Definition binop_stmt : stmt :=
  Expr 1 (span 1 0 1 9)
    (ExprOther E_BinOp 2 (span 1 0 1 9)
       [NExpr binop_call; NOther X_operator 5 None [];
        NExpr (ExprOther E_Constant 6 (span 1 8 1 9) [])]).
Definition tree_binop : module := Module_ [binop_stmt] [].

(** Two call statements. *)
Definition src_two : string := "foo()" ++ Str.newline ++ "bar()" ++ Str.newline.
Definition foo_call : expr :=
  Call 2 (span 1 0 1 5) (Name 3 (span 1 0 1 3) "foo" Load) [] [].
Definition bar_call : expr :=
  Call 5 (span 2 0 2 5) (Name 6 (span 2 0 2 3) "bar" Load) [] [].
Definition tree_two : module :=
  Module_ [Expr 1 (span 1 0 1 5) foo_call; Expr 4 (span 2 0 2 5) bar_call] [].

(** A call over three lines, the second one blank. *)
Definition src_blank : string := "foo(1," ++ Str.newline ++ Str.newline
  ++ "    2)" ++ Str.newline.
Definition code_blank : string := "foo(1," ++ Str.newline ++ Str.newline
  ++ "    2)".
Definition blank_call : expr :=
  Call 2 (span 1 0 3 6) (Name 3 (span 1 0 1 3) "foo" Load)
    [ExprOther E_Constant 4 (span 1 4 1 5) [];
     ExprOther E_Constant 5 (span 3 4 3 5) []] [].
Definition tree_blank : module := Module_ [Expr 1 (span 1 0 3 6) blank_call] [].

Definition table : list (string * module) :=
  [(src_call, tree_call); (src_assign, tree_assign);
   (src_exempt, tree_exempt); (src_paren, tree_paren);
   (src_nested, tree_nested); (src_binop, tree_binop);
   (src_two, tree_two); (src_blank, tree_blank)].

Fixpoint lookup {A : Type} (key : string) (l : list (string * A)) : option A :=
  match l with
  | [] => None
  | (k, a) :: rest => if String.eqb key k then Some a else lookup key rest
  end.

Definition parse (source : string) : result module :=
  match lookup source table with
  | Some tree => Ok tree
  | None => Raise (SyntaxError "invalid syntax")
  end.

(** The text of the calls and assignments above, by object. *)
Definition get_source_segment (source : string) (n : AST) : option string :=
  match AST_location n with
  | None => None
  | Some _ =>
      if String.eqb source src_blank then Some code_blank
      else if String.eqb source src_call then Some "re.search('')"
      else if String.eqb source src_assign then Some "a = re.search('')"
      else if String.eqb source src_paren then Some "foo()"
      else if String.eqb source src_two
           then Some (if N.eqb (AST_obj n) 2 then "foo()" else "bar()")
      else None
  end.

(** Two iteration orders. *)
Definition in_order : set_iter := fun s => s.
Definition reversed : set_iter := fun s => rev s.

(** A file system with one regular file. *)
Definition is_file (path : string) : bool := String.eqb path "/tmp/test.py".
Definition read_file (path : string) : result string :=
  if String.eqb path "/tmp/test.py" then Ok src_call
  else Raise (OSError "No such file or directory").

End Samples.


(** ** What a traversal records, read off the tree *)

(** What [visit_Call] records on an expression: the node itself, when it
    is a call at column 0 whose callee is not exempt. *)
Definition call_site (exc : list string) (e : expr) : list Violation :=
  match e with
  | Call _ l func _ _ =>
      if (0 =? col_offset l) && negb (callee_exempt exc func)
      then [mkViolation (NExpr e) import_invoked_a_call]
      else []
  | _ => []
  end.

(** What [visit_Assign] records on a statement. *)
Definition assign_site (exc : list string) (s : stmt) : list Violation :=
  match s with
  | Assign _ l _ (Call _ _ func _ _) =>
      if (0 =? col_offset l) && negb (callee_exempt exc func)
      then [mkViolation (NStmt s) import_invoked_a_call]
      else []
  | _ => []
  end.

(** The violations of a subtree in the order the traversal meets them. *)
Fixpoint expr_sites (exc : list string) (e : expr) {struct e}
  : list Violation :=
  match e with
  | Call _ _ _ _ _ => call_site exc e
  | Name _ _ _ _ => []
  | Attribute _ _ value _ _ => expr_sites exc value
  | ExprOther _ _ _ fields => flat_map (AST_sites exc) fields
  end
with keyword_sites (exc : list string) (k : keyword) {struct k}
  : list Violation :=
  match k with
  | Keyword _ _ _ value => expr_sites exc value
  end
with stmt_sites (exc : list string) (s : stmt) {struct s}
  : list Violation :=
  match s with
  | Assign _ _ _ _ => assign_site exc s
  | Expr _ _ value => expr_sites exc value
  | StmtOther _ _ _ fields => flat_map (AST_sites exc) fields
  end
with AST_sites (exc : list string) (n : AST) {struct n}
  : list Violation :=
  match n with
  | NExpr e => expr_sites exc e
  | NKeyword k => keyword_sites exc k
  | NStmt s => stmt_sites exc s
  | NOther _ _ _ fields => flat_map (AST_sites exc) fields
  end.

Definition module_sites (exc : list string) (tree : module)
  : list Violation :=
  match tree with
  | Module_ body type_ignores =>
      (flat_map (stmt_sites exc) body
       ++ flat_map (AST_sites exc) type_ignores)%list
  end.

(** The nodes the two hooks object to: a call at column 0 whose callee is
    not exempt, and an assignment at column 0 whose value is a call with a
    callee that is not exempt. *)
Definition violating (exc : list string) (n : AST) : Prop :=
  match n with
  | NExpr (Call _ l func _ _) =>
      col_offset l = 0 /\ callee_exempt exc func = false
  | NStmt (Assign _ l _ (Call _ _ func _ _)) =>
      col_offset l = 0 /\ callee_exempt exc func = false
  | _ => False
  end.

(** The nodes a module object holds in its fields. *)
Definition module_roots (tree : module) : list AST :=
  match tree with
  | Module_ body type_ignores => (map NStmt body ++ type_ignores)%list
  end.

(** [reportable exc tree v]: [v] carries the fixed message and is on a
    violating node that the traversal of [tree] reaches, no [Call] and no
    [Assign] lying above it. *)
Definition reportable (exc : list string) (tree : module) (v : Violation)
  : Prop :=
  message v = import_invoked_a_call /\
  violating exc (node v) /\
  exists root, In root (module_roots tree) /\ below_unhooked root (node v).

(** A [Call] or [Assign] node at column 0. *)
Definition hooked_at_column_0 (n : AST) : bool :=
  match n with
  | NExpr (Call _ l _ _ _) => 0 =? col_offset l
  | NStmt (Assign _ l _ _) => 0 =? col_offset l
  | _ => false
  end.

(** [extends long short]: the text [long] begins with [short]. *)
Definition extends (long short : string) : Prop :=
  exists rest, long = (short ++ rest)%string.

(** The paths of a list that [lint] analyses and those it skips. *)
Definition analysed (is_file : string -> bool) (files : list string)
  : list string :=
  filter is_file files.

Definition skipped (is_file : string -> bool) (files : list string)
  : list string :=
  filter (fun path => negb (is_file path)) files.

(** ** More sample inputs *)

Module MoreSamples.

(** A call in the body of a function. *)
Definition src_def : string :=
  "def f():" ++ Str.newline ++ "    foo()" ++ Str.newline.
Definition tree_def : module :=
  Module_
    [StmtOther S_FunctionDef 1 (Samples.span 1 0 2 9)
       [NOther X_arguments 2 None [];
        NStmt (Expr 3 (Samples.span 2 4 2 9)
                 (Call 4 (Samples.span 2 4 2 9)
                    (Name 5 (Samples.span 2 4 2 7) "foo" Load) [] []))]] [].

(** An assignment to an attribute of a call's result. *)
Definition src_target : string := "foo().x = 1" ++ Str.newline.
Definition target_stmt : stmt :=
  Assign 1 (Samples.span 1 0 1 11)
    [Attribute 2 (Samples.span 1 0 1 7)
       (Call 3 (Samples.span 1 0 1 5)
          (Name 4 (Samples.span 1 0 1 3) "foo" Load) [] []) "x" Store]
    (ExprOther E_Constant 5 (Samples.span 1 10 1 11) []).
Definition tree_target : module := Module_ [target_stmt] [].

(** A call statement in parentheses on one line. *)
Definition src_paren1 : string := "(foo())" ++ Str.newline.
Definition paren1_call : expr :=
  Call 2 (Samples.span 1 1 1 6) (Name 3 (Samples.span 1 1 1 4) "foo" Load)
    [] [].
Definition tree_paren1 : module :=
  Module_ [Expr 1 (Samples.span 1 0 1 7) paren1_call] [].

(** An annotated and an augmented assignment of a call's result. *)
Definition src_ann : string := "d: int = foo()" ++ Str.newline.
Definition ann_call : expr :=
  Call 4 (Samples.span 1 9 1 14) (Name 5 (Samples.span 1 9 1 12) "foo" Load)
    [] [].
Definition ann_stmt : stmt :=
  StmtOther S_AnnAssign 1 (Samples.span 1 0 1 14)
    [NExpr (Name 2 (Samples.span 1 0 1 1) "d" Store);
     NExpr (Name 3 (Samples.span 1 3 1 6) "int" Load);
     NExpr ann_call].
Definition tree_ann : module := Module_ [ann_stmt] [].

Definition src_aug : string := "e += bar()" ++ Str.newline.
Definition aug_call : expr :=
  Call 4 (Samples.span 1 5 1 10) (Name 5 (Samples.span 1 5 1 8) "bar" Load)
    [] [].
Definition aug_stmt : stmt :=
  StmtOther S_AugAssign 1 (Samples.span 1 0 1 10)
    [NExpr (Name 2 (Samples.span 1 0 1 1) "e" Store);
     NOther X_operator 3 None [];
     NExpr aug_call].
Definition tree_aug : module := Module_ [aug_stmt] [].

(** The expression statement [a.b.b. ... .b] with [n] attribute accesses. *)
Fixpoint deep_text (n : nat) : string :=
  match n with
  | O => "a"
  | S k => deep_text k ++ ".b"
  end.

Fixpoint deep_chain (n : nat) : expr :=
  match n with
  | O => Name 2 (Samples.span 1 0 1 1) "a" Load
  | S k =>
      Attribute (N.of_nat k + 3) (Samples.span 1 0 1 (Z.of_nat (2 * k) + 3))
        (deep_chain k) "b" Load
  end.

Definition deep_src (n : nat) : string := deep_text n ++ Str.newline.
Definition deep_tree (n : nat) : module :=
  Module_ [Expr 1 (Samples.span 1 0 1 (Z.of_nat (2 * n) + 1)) (deep_chain n)]
    [].

Definition table : list (string * module) :=
  [(src_def, tree_def); (src_target, tree_target);
   (src_paren1, tree_paren1); (src_ann, tree_ann); (src_aug, tree_aug);
   (deep_src 600, deep_tree 600)].

Definition parse (source : string) : result module :=
  match Samples.lookup source table with
  | Some tree => Ok tree
  | None => Samples.parse source
  end.

(** A file system with three regular files, the last one not a Python
    source. *)
Definition files : list (string * string) :=
  [("/src/two.py", Samples.src_two); ("/src/call.py", Samples.src_call);
   ("/src/notes.txt", "foo(")].

Definition is_file (path : string) : bool :=
  match Samples.lookup path files with
  | Some _ => true
  | None => false
  end.

Definition read_file (path : string) : result string :=
  match Samples.lookup path files with
  | Some text => Ok text
  | None => Raise (OSError "No such file or directory")
  end.

End MoreSamples.

(** ** The traversal under the interpreter's recursion limit

    [visit] calls the method it dispatches to, and [generic_visit] calls
    [visit] again on every node below: each level of the tree that the
    traversal descends is a further pair of nested calls, and Python raises
    [RecursionError] when calls nest deeper than its recursion limit
    allows.  [depth] is the number of nested calls of [visit] the
    interpreter still allows; with the default limit of 1000 frames and
    two frames a level it is below 500. *)

Definition recursion_error : exn :=
  RecursionError "maximum recursion depth exceeded".

(** [visit(node.ctx)]: one more nested call, below which [generic_visit]
    finds no node. *)
Definition visit_context_within (depth : nat) (self : CallImportChecker)
  : result CallImportChecker :=
  match depth with
  | O => Raise recursion_error
  | S _ => Ok self
  end.

(** [visit] on any node, [depth] nested calls being allowed. *)
Fixpoint visit_AST_within (depth : nat) (self : CallImportChecker)
  (n : AST) {struct depth} : result CallImportChecker :=
  match depth with
  | O => Raise recursion_error
  | S d =>
      match n with
      | NExpr (Call _ _ _ _ _ as e) => visit_Call self e
      | NExpr (Name _ _ _ _) => visit_context_within d self
      | NExpr (Attribute _ _ value _ _) =>
          self' <- visit_AST_within d self (NExpr value) ;;
          visit_context_within d self'
      | NExpr (ExprOther _ _ _ fields) =>
          visit_list (visit_AST_within d) self fields
      | NKeyword (Keyword _ _ _ value) =>
          visit_AST_within d self (NExpr value)
      | NStmt (Assign _ _ _ _ as s) => visit_Assign self s
      | NStmt (Expr _ _ value) => visit_AST_within d self (NExpr value)
      | NStmt (StmtOther _ _ _ fields) =>
          visit_list (visit_AST_within d) self fields
      | NOther _ _ _ fields => visit_list (visit_AST_within d) self fields
      end
  end.

(** [checker.visit(tree)] on the module, [depth] nested calls being
    allowed. *)
Definition visit_within (depth : nat) (self : CallImportChecker)
  (tree : module) : result CallImportChecker :=
  match depth with
  | O => Raise recursion_error
  | S d =>
      match tree with
      | Module_ body type_ignores =>
          self' <- visit_list (fun c s => visit_AST_within d c (NStmt s))
                     self body ;;
          visit_list (visit_AST_within d) self' type_ignores
      end
  end.

Section EngineWithin.
Variable parse : string -> result module.
Variable get_source_segment : string -> AST -> option string.

(** The loop of [Linter.run], [depth] nested calls being allowed to each
    traversal. *)
Fixpoint run_checkers_within (depth : nat) (it : set_iter) (tree : module)
  (file_name source_code : string) (verbose : bool)
  (cs : list CallImportChecker)
  : result (stream * list CallImportChecker) :=
  match cs with
  | [] => Ok ([], [])
  | checker :: rest =>
      checker1 <- visit_within depth checker tree ;;
      '(lines, checker2) <-
        print_violations get_source_segment it checker1 file_name
          source_code verbose ;;
      '(more, rest') <-
        run_checkers_within depth it tree file_name source_code verbose rest ;;
      Ok ((lines ++ more)%list, checker2 :: rest')
  end.

(** [Linter.run], [depth] nested calls being allowed to each traversal. *)
Definition run_within (depth : nat) (it : set_iter) (self : Linter)
  (file_name source_code : string) (verbose : bool)
  : result (stream * Linter) :=
  tree <- parse source_code ;;
  '(lines, cs) <-
    run_checkers_within depth it tree file_name source_code verbose
      (checkers self) ;;
  Ok (lines, {| checkers := cs |}).
End EngineWithin.

(** The number of nested calls of [visit] the traversal of a subtree makes:
    one for the node, and below a node without hook those of the deepest
    node its fields hold (for a [Name], its [ctx]). *)
Fixpoint expr_height (e : expr) {struct e} : nat :=
  match e with
  | Call _ _ _ _ _ => 1
  | Name _ _ _ _ => 2
  | Attribute _ _ value _ _ => S (expr_height value)
  | ExprOther _ _ _ fields => S (list_max (map AST_height fields))
  end
with keyword_height (k : keyword) {struct k} : nat :=
  match k with
  | Keyword _ _ _ value => S (expr_height value)
  end
with stmt_height (s : stmt) {struct s} : nat :=
  match s with
  | Assign _ _ _ _ => 1
  | Expr _ _ value => S (expr_height value)
  | StmtOther _ _ _ fields => S (list_max (map AST_height fields))
  end
with AST_height (n : AST) {struct n} : nat :=
  match n with
  | NExpr e => expr_height e
  | NKeyword k => keyword_height k
  | NStmt s => stmt_height s
  | NOther _ _ _ fields => S (list_max (map AST_height fields))
  end.

Definition module_height (tree : module) : nat :=
  match tree with
  | Module_ body type_ignores =>
      S (Nat.max (list_max (map stmt_height body))
           (list_max (map AST_height type_ignores)))
  end.
(** * Properties *)

Lemma AST_mutual_ind (Pe : expr -> Prop) (Pk : keyword -> Prop)
  (Ps : stmt -> Prop) (Pn : AST -> Prop) :
  (forall o l id ctx, Pe (Name o l id ctx)) ->
  (forall o l value attr ctx, Pe value -> Pe (Attribute o l value attr ctx)) ->
  (forall o l func args keywords,
      Pe func -> Forall Pe args -> Forall Pk keywords ->
      Pe (Call o l func args keywords)) ->
  (forall c o l fields, Forall Pn fields -> Pe (ExprOther c o l fields)) ->
  (forall o l arg value, Pe value -> Pk (Keyword o l arg value)) ->
  (forall o l value, Pe value -> Ps (Expr o l value)) ->
  (forall o l targets value,
      Forall Pe targets -> Pe value -> Ps (Assign o l targets value)) ->
  (forall c o l fields, Forall Pn fields -> Ps (StmtOther c o l fields)) ->
  (forall e, Pe e -> Pn (NExpr e)) ->
  (forall k, Pk k -> Pn (NKeyword k)) ->
  (forall s, Ps s -> Pn (NStmt s)) ->
  (forall c o l fields, Forall Pn fields -> Pn (NOther c o l fields)) ->
  (forall e, Pe e) /\ (forall k, Pk k) /\ (forall s, Ps s) /\ (forall n, Pn n).
Proof.
  intros; repeat split.
  - apply (expr_ind' Pe Pk Ps Pn); assumption.
  - apply (keyword_ind' Pe Pk Ps Pn); assumption.
  - apply (stmt_ind' Pe Pk Ps Pn); assumption.
  - apply (AST_ind' Pe Pk Ps Pn); assumption.
Qed.

(** ** The violation set *)

Lemma Violation_eqb_key (v w : Violation) :
  Violation_eqb v w = true <-> key v = key w.
Proof.
  unfold Violation_eqb, key; rewrite andb_true_iff, N.eqb_eq, String.eqb_eq.
  split; [intros [-> ->]; reflexivity | intros H; inversion H; auto].
Qed.

Lemma existsb_eqb_key (v : Violation) (s : violation_set) :
  existsb (Violation_eqb v) s = true <-> In (key v) (map key s).
Proof.
  rewrite existsb_exists, in_map_iff; split.
  - intros (w & Hin & Heq); exists w; split; auto.
    symmetry; apply Violation_eqb_key; exact Heq.
  - intros (w & Heq & Hin); exists w; split; auto.
    apply Violation_eqb_key; auto.
Qed.

Lemma set_add_incl (v : Violation) (s : violation_set) :
  incl s (set_add v s).
Proof.
  unfold set_add; destruct (existsb _ s); intros x Hx; auto.
  apply in_or_app; auto.
Qed.

Lemma set_add_inv (v x : Violation) (s : violation_set) :
  In x (set_add v s) -> In x s \/ x = v.
Proof.
  unfold set_add; destruct (existsb _ s); auto.
  intros H; apply in_app_or in H as [H | [H | []]]; auto.
Qed.

Lemma set_add_key (v : Violation) (s : violation_set) :
  In (key v) (map key (set_add v s)).
Proof.
  unfold set_add; destruct (existsb _ s) eqn:E.
  - apply existsb_eqb_key; exact E.
  - rewrite map_app; apply in_or_app; right; left; reflexivity.
Qed.

Lemma set_add_NoDup (v : Violation) (s : violation_set) :
  NoDup (map key s) -> NoDup (map key (set_add v s)).
Proof.
  intros Hs; unfold set_add; destruct (existsb _ s) eqn:E; auto.
  rewrite map_app; simpl.
  apply NoDup_app; auto.
  - repeat constructor; auto.
  - intros k Hk [<- | []].
    assert (existsb (Violation_eqb v) s = true) as Ht
        by (apply existsb_eqb_key; exact Hk).
    congruence.
Qed.

Lemma add_all_app (new1 new2 : list Violation) (c : CallImportChecker) :
  add_all (new1 ++ new2) c = add_all new2 (add_all new1 c).
Proof. apply fold_left_app. Qed.

Lemma add_all_config (new : list Violation) (c : CallImportChecker) :
  issue_code (add_all new c) = issue_code c /\
  exceptions (add_all new c) = exceptions c.
Proof.
  revert c; induction new as [| v new IH]; intros c; simpl; auto.
  destruct (IH (add_violation c v)) as [-> ->]; auto.
Qed.

Lemma add_all_incl (new : list Violation) (c : CallImportChecker) :
  incl (violations c) (violations (add_all new c)).
Proof.
  revert c; induction new as [| v new IH]; intros c; simpl.
  - apply incl_refl.
  - eapply incl_tran; [| apply IH]. apply set_add_incl.
Qed.

Lemma add_all_inv (new : list Violation) (c : CallImportChecker) (x : Violation) :
  In x (violations (add_all new c)) -> In x (violations c) \/ In x new.
Proof.
  revert c; induction new as [| v new IH]; intros c; simpl; auto.
  intros H; apply IH in H as [H | H]; auto.
  apply set_add_inv in H as [H | H]; auto.
Qed.

Lemma add_all_NoDup (new : list Violation) (c : CallImportChecker) :
  NoDup (map key (violations c)) ->
  NoDup (map key (violations (add_all new c))).
Proof.
  revert c; induction new as [| v new IH]; intros c H; simpl; auto.
  apply IH; simpl; apply set_add_NoDup; exact H.
Qed.

Lemma adds_within_refl (P : Violation -> Prop) (c : CallImportChecker) :
  adds_within P c c.
Proof. exists []; split; [reflexivity | constructor]. Qed.

Lemma adds_within_one (P : Violation -> Prop) (c : CallImportChecker)
  (v : Violation) :
  P v -> adds_within P c (add_violation c v).
Proof. intros H; exists [v]; split; [reflexivity | repeat constructor; auto]. Qed.

Lemma adds_within_trans (P : Violation -> Prop) (c1 c2 c3 : CallImportChecker) :
  adds_within P c1 c2 -> adds_within P c2 c3 -> adds_within P c1 c3.
Proof.
  intros (n1 & -> & H1) (n2 & -> & H2); exists (n1 ++ n2)%list; split.
  - symmetry; apply add_all_app.
  - apply Forall_app; auto.
Qed.

Lemma adds_within_weaken (P Q : Violation -> Prop) (c c' : CallImportChecker) :
  (forall v, P v -> Q v) -> adds_within P c c' -> adds_within Q c c'.
Proof.
  intros HPQ (new & -> & H); exists new; split; auto.
  eapply Forall_impl; eauto.
Qed.

Lemma adds_within_inv (P : Violation -> Prop) (c c' : CallImportChecker)
  (x : Violation) :
  adds_within P c c' -> In x (violations c') -> In x (violations c) \/ P x.
Proof.
  intros (new & -> & H) Hin; apply add_all_inv in Hin as [Hin | Hin]; auto.
  right; rewrite Forall_forall in H; auto.
Qed.

Lemma adds_within_incl (P : Violation -> Prop) (c c' : CallImportChecker) :
  adds_within P c c' -> incl (violations c) (violations c').
Proof. intros (new & -> & _); apply add_all_incl. Qed.

Lemma adds_within_config (P : Violation -> Prop) (c c' : CallImportChecker) :
  adds_within P c c' ->
  issue_code c' = issue_code c /\ exceptions c' = exceptions c.
Proof. intros (new & -> & _); apply add_all_config. Qed.

Lemma adds_within_NoDup (P : Violation -> Prop) (c c' : CallImportChecker) :
  adds_within P c c' ->
  NoDup (map key (violations c)) -> NoDup (map key (violations c')).
Proof. intros (new & -> & _); apply add_all_NoDup. Qed.

(** ** The hooks in closed form *)

Lemma visit_Call_spec (c : CallImportChecker) o l func args keywords :
  visit_Call c (Call o l func args keywords) =
  Ok (if (0 =? col_offset l) && negb (callee_exempt (exceptions c) func)
      then add_violation c
             (mkViolation (NExpr (Call o l func args keywords))
                import_invoked_a_call)
      else c).
Proof.
  unfold visit_Call, visit_Call_with; cbn [expr_location].
  destruct (0 =? col_offset l); cbn [negb andb]; [| reflexivity].
  destruct func; unfold callee_exempt; simpl;
    try destruct (Str.mem _ (exceptions c)); reflexivity.
Qed.

Lemma visit_Assign_spec (c : CallImportChecker) o l targets value :
  visit_Assign c (Assign o l targets value) =
  Ok (if (0 =? col_offset l)
         && match value with
            | Call _ _ func _ _ => negb (callee_exempt (exceptions c) func)
            | _ => false
            end
      then add_violation c
             (mkViolation (NStmt (Assign o l targets value))
                import_invoked_a_call)
      else c).
Proof.
  unfold visit_Assign; cbn [stmt_location].
  destruct (0 =? col_offset l); cbn [negb andb]; [| reflexivity].
  destruct value as [| | ? ? func ? ? |]; simpl; try reflexivity.
  destruct func; unfold callee_exempt; simpl;
    try destruct (Str.mem _ (exceptions c)); reflexivity.
Qed.

(** ** The traversal returns and records only hook violations *)

Lemma visit_ok_weaken {A : Type}
  (f : CallImportChecker -> A -> result CallImportChecker)
  (nodes nodes' : A -> list AST) (x : A) :
  incl (nodes x) (nodes' x) -> visit_ok f nodes x -> visit_ok f nodes' x.
Proof.
  intros Hincl H c; destruct (H c) as (c' & Hv & Ha).
  exists c'; split; auto.
  eapply adds_within_weaken; [| exact Ha].
  intros v [Hin Hh]; split; auto.
Qed.

Lemma visit_list_ok {A : Type}
  (f : CallImportChecker -> A -> result CallImportChecker)
  (nodes : A -> list AST) (l : list A) :
  Forall (visit_ok f nodes) l ->
  visit_ok (visit_list f) (flat_map nodes) l.
Proof.
  induction 1 as [| x l Hx Hl IH]; intros c; simpl.
  - exists c; split; auto. apply adds_within_refl.
  - destruct (Hx c) as (c1 & -> & H1); simpl.
    destruct (IH c1) as (c2 & -> & H2).
    exists c2; split; auto.
    eapply adds_within_trans; eapply adds_within_weaken; eauto;
      intros v [Hin Hh]; split; auto; apply in_or_app; auto.
Qed.

(** A node without hook: the result of visiting what lies below it. *)
Ltac through IH :=
  let c := fresh "c" in
  let c' := fresh "c'" in
  let Hv := fresh "Hv" in
  let Ha := fresh "Ha" in
  intros c; destruct (IH c) as (c' & Hv & Ha);
  exists c'; split; [exact Hv |];
  eapply adds_within_weaken; [| exact Ha];
  let Hin := fresh "Hin" in
  intros ? [Hin ?]; split; [right; exact Hin | assumption].

(** A node with a hook, the hook rewritten to its closed form. *)
Ltac hooked l :=
  let Hcol := fresh "Hcol" in
  destruct (0 =? col_offset l) eqn:Hcol; cbn [andb];
  [match goal with |- context [if ?b then _ else _] => destruct b end |];
  eexists; (split; [reflexivity |]); try apply adds_within_refl;
  apply adds_within_one; split; [left; reflexivity |];
  split; [reflexivity |]; exists l; split; [reflexivity |];
  apply Z.eqb_eq in Hcol; auto.

Lemma visit_sound :
  (forall e, visit_ok (visit_expr visit_Call) expr_nodes e) /\
  (forall k, visit_ok (visit_keyword visit_Call) keyword_nodes k) /\
  (forall s, visit_ok (visit_stmt visit_Call) stmt_nodes s) /\
  (forall n, visit_ok (visit_AST visit_Call) AST_nodes n).
Proof.
  apply AST_mutual_ind.
  - intros o l id ctx c; exists c; split; auto. apply adds_within_refl.
  - intros o l value attr ctx IH. through IH.
  - intros o l func args keywords _ _ _ c.
    change (visit_expr visit_Call c (Call o l func args keywords))
      with (visit_Call c (Call o l func args keywords)).
    rewrite visit_Call_spec. hooked l.
  - intros cls o l fields IH. apply visit_list_ok in IH. through IH.
  - intros o l arg value IH. through IH.
  - intros o l value IH. through IH.
  - intros o l targets value _ _ c.
    change (visit_stmt visit_Call c (Assign o l targets value))
      with (visit_Assign c (Assign o l targets value)).
    rewrite visit_Assign_spec. hooked l.
  - intros cls o l fields IH. apply visit_list_ok in IH. through IH.
  - intros e IH; exact IH.
  - intros k IH; exact IH.
  - intros s IH; exact IH.
  - intros cls o l fields IH. apply visit_list_ok in IH. through IH.
Qed.

Lemma visit_stmts_ok (body : list stmt) :
  visit_ok (visit_list (visit_stmt visit_Call)) (flat_map stmt_nodes) body.
Proof.
  apply visit_list_ok, Forall_forall; intros s _.
  apply visit_sound.
Qed.

Lemma visit_ASTs_ok (ns : list AST) :
  visit_ok (visit_list (visit_AST visit_Call)) (flat_map AST_nodes) ns.
Proof.
  apply visit_list_ok, Forall_forall; intros n _.
  apply visit_sound.
Qed.

Lemma visit_module_ok (tree : module) : visit_ok visit module_nodes tree.
Proof.
  destruct tree as [body tis]; intros c; unfold visit; simpl.
  destruct (visit_stmts_ok body c) as (c1 & -> & H1); simpl.
  destruct (visit_ASTs_ok tis c1) as (c2 & -> & H2).
  exists c2; split; auto.
  eapply adds_within_trans; eapply adds_within_weaken; eauto;
    intros v [Hin Hh]; split; auto; apply in_or_app; auto.
Qed.

(** ** Distinct objects *)

Lemma NoDup_app_disjoint {A : Type} (l1 l2 : list A) (a : A) :
  NoDup (l1 ++ l2) -> In a l1 -> In a l2 -> False.
Proof.
  induction l1 as [| x l1 IH]; simpl; intros Hnd H1 H2; [contradiction |].
  inversion Hnd as [| ? ? Hx Hrest]; subst.
  destruct H1 as [-> | H1]; [| auto].
  apply Hx, in_or_app; auto.
Qed.

Lemma NoDup_map_inj {A B : Type} (f : A -> B) (l : list A) (x y : A) :
  NoDup (map f l) -> In x l -> In y l -> f x = f y -> x = y.
Proof.
  induction l as [| a l IH]; simpl; intros Hnd Hx Hy Heq; [contradiction |].
  inversion Hnd as [| ? ? Ha Hrest]; subst.
  destruct Hx as [-> | Hx], Hy as [-> | Hy]; auto.
  - exfalso; apply Ha; rewrite Heq; apply in_map; exact Hy.
  - exfalso; apply Ha; rewrite <- Heq; apply in_map; exact Hx.
Qed.

Lemma module_nodes_split (pre post : list stmt) (s : stmt) (tis : list AST) :
  Permutation (module_nodes (Module_ (pre ++ s :: post) tis))
    (stmt_nodes s ++ nodes_outside pre post tis).
Proof.
  unfold module_nodes, nodes_outside.
  rewrite flat_map_app; simpl flat_map.
  rewrite <- !app_assoc.
  apply Permutation_app_swap_app.
Qed.

Lemma outside_stmt (pre post : list stmt) (s : stmt) (tis : list AST) (n : AST) :
  NoDup (module_objs (Module_ (pre ++ s :: post) tis)) ->
  In n (nodes_outside pre post tis) ->
  ~ In (AST_obj n) (stmt_objs s).
Proof.
  intros Hnd Hn Hs.
  unfold module_objs in Hnd.
  eapply Permutation_NoDup in Hnd;
    [| apply Permutation_map, module_nodes_split].
  rewrite map_app in Hnd.
  eapply NoDup_app_disjoint; [exact Hnd | exact Hs |].
  apply in_map; exact Hn.
Qed.

(** ** Printing *)

Section Printing.
Variable get_source_segment : string -> AST -> option string.

Lemma report_line_located (c : CallImportChecker) (file src : string)
  (verbose : bool) (v : Violation) (l : location) :
  AST_location (node v) = Some l ->
  report_line get_source_segment c file src verbose v =
  Ok (format_code (line_at (issue_code c) file l (message v))
        (snippet get_source_segment src verbose (node v))).
Proof.
  intros Hl; unfold report_line, get_lineno, get_col_offset.
  rewrite Hl; reflexivity.
Qed.

Lemma report_line_code (c c' : CallImportChecker) (file src : string)
  (verbose : bool) (v : Violation) :
  issue_code c = issue_code c' ->
  report_line get_source_segment c file src verbose v =
  report_line get_source_segment c' file src verbose v.
Proof. intros H; unfold report_line; rewrite H; reflexivity. Qed.

Lemma print_each_code (c c' : CallImportChecker) (file src : string)
  (verbose : bool) (vs : list Violation) :
  issue_code c = issue_code c' ->
  print_each get_source_segment c file src verbose vs =
  print_each get_source_segment c' file src verbose vs.
Proof.
  intros H; induction vs as [| v vs IH]; simpl; auto.
  rewrite (report_line_code c c'), IH; auto.
Qed.

Lemma print_each_total (c : CallImportChecker) (file src : string)
  (verbose : bool) (vs : list Violation) :
  Forall (fun v => AST_location (node v) <> None) vs ->
  exists lines, print_each get_source_segment c file src verbose vs = Ok lines.
Proof.
  induction 1 as [| v vs Hv _ IH]; simpl; [eexists; reflexivity |].
  destruct (AST_location (node v)) as [l |] eqn:Hl; [| congruence].
  rewrite (report_line_located _ _ _ _ _ l Hl); simpl.
  destruct IH as (lines & ->); simpl; eexists; reflexivity.
Qed.

Lemma print_each_split (c : CallImportChecker) (file src : string)
  (verbose : bool) (before after : list Violation) (v : Violation)
  (lines : stream) :
  print_each get_source_segment c file src verbose (before ++ v :: after)
    = Ok lines ->
  exists lines_before line lines_after,
    lines = (lines_before ++ line :: lines_after)%list /\
    print_each get_source_segment c file src verbose before = Ok lines_before /\
    report_line get_source_segment c file src verbose v = Ok line /\
    print_each get_source_segment c file src verbose after = Ok lines_after.
Proof.
  revert lines; induction before as [| w before IH]; simpl; intros lines H.
  - destruct (report_line _ c file src verbose v) as [line |]; [| discriminate].
    simpl in H.
    destruct (print_each _ c file src verbose after) as [la |]; [| discriminate].
    inversion H; subst. exists [], line, la; auto.
  - destruct (report_line _ c file src verbose w) as [lw |]; [| discriminate].
    simpl in H.
    destruct (print_each _ c file src verbose (before ++ v :: after))
      as [rest |]; [| discriminate].
    inversion H; subst.
    destruct (IH rest eq_refl) as (lb & line & la & -> & -> & Hv & Ha).
    exists (lw :: lb), line, la; simpl; auto.
Qed.

Lemma print_each_Permutation (c : CallImportChecker) (file src : string)
  (verbose : bool) (vs ws : list Violation) (lines : stream) :
  Permutation vs ws ->
  print_each get_source_segment c file src verbose vs = Ok lines ->
  exists lines',
    print_each get_source_segment c file src verbose ws = Ok lines' /\
    Permutation lines lines'.
Proof.
  intros Hp; revert lines; induction Hp as [| x l l' _ IH | x y l | l l' l'' _ IH1 _ IH2];
    intros lines H; simpl in *.
  - inversion H; exists []; auto.
  - destruct (report_line _ c file src verbose x) as [lx |]; [| discriminate].
    simpl in *.
    destruct (print_each _ c file src verbose l) as [rest |]; [| discriminate].
    inversion H; subst.
    destruct (IH rest eq_refl) as (rest' & -> & Hr).
    exists (lx :: rest'); auto.
  - destruct (report_line _ c file src verbose y) as [ly |]; [| discriminate].
    destruct (report_line _ c file src verbose x) as [lx |]; [| discriminate].
    simpl in *.
    destruct (print_each _ c file src verbose l) as [rest |]; [| discriminate].
    inversion H; subst.
    exists (lx :: ly :: rest); split; auto. constructor.
  - destruct (IH1 lines H) as (l1 & H1 & P1).
    destruct (IH2 l1 H1) as (l2 & H2 & P2).
    exists l2; split; auto. eapply perm_trans; eauto.
Qed.
End Printing.

(** ** One statement among the others *)

Lemma visit_list_app {A : Type}
  (f : CallImportChecker -> A -> result CallImportChecker)
  (l1 l2 : list A) (c : CallImportChecker) :
  visit_list f c (l1 ++ l2) = (c1 <- visit_list f c l1 ;; visit_list f c1 l2).
Proof.
  revert c; induction l1 as [| x l1 IH]; intros c; simpl; auto.
  destruct (f c x); simpl; auto.
Qed.

(** Visiting a module whose body is [pre ++ s :: post]: the checker when
    the traversal reaches [s], and when it leaves it. *)
Lemma visit_around (c0 c' : CallImportChecker) (pre post : list stmt)
  (s : stmt) (tis : list AST) :
  visit c0 (Module_ (pre ++ s :: post) tis) = Ok c' ->
  let outside := fun v =>
    In (node v) (nodes_outside pre post tis) /\ hook_violation v in
  exists c1 c2,
    adds_within outside c0 c1 /\
    visit_stmt visit_Call c1 s = Ok c2 /\
    adds_within outside c2 c'.
Proof.
  intros Hv outside; unfold visit, visit_mod in Hv.
  rewrite visit_list_app in Hv.
  destruct (visit_stmts_ok pre c0) as (c1 & H1 & A1); rewrite H1 in Hv.
  cbn [bind visit_list] in Hv.
  destruct (visit_stmt visit_Call c1 s) as [c2 |] eqn:H2; [| discriminate].
  cbn [bind] in Hv.
  destruct (visit_stmts_ok post c2) as (c3 & H3 & A3); rewrite H3 in Hv.
  cbn [bind] in Hv.
  destruct (visit_ASTs_ok tis c3) as (c4 & H4 & A4); rewrite H4 in Hv.
  inversion Hv; subst c4.
  exists c1, c2; repeat split; auto.
  - eapply adds_within_weaken; [| exact A1].
    intros v [Hin Hh]; split; auto. apply in_or_app; auto.
  - apply (adds_within_trans _ c2 c3 c').
    + eapply adds_within_weaken; [| exact A3].
      intros v [Hin Hh]; split; auto; unfold nodes_outside.
      apply in_or_app; right; apply in_or_app; auto.
    + eapply adds_within_weaken; [| exact A4].
      intros v [Hin Hh]; split; auto; unfold nodes_outside.
      apply in_or_app; right; apply in_or_app; auto.
Qed.

Section EngineFacts.
Variable parse : string -> result module.
Variable get_source_segment : string -> AST -> option string.

(** A run of a linter with one checker whose set is empty: the traversal
    returns, the set is printed in the order [it] and the linter is as
    before. *)
Lemma run_single (it : set_iter) (c0 : CallImportChecker)
  (file src : string) (verbose : bool) (tree : module) :
  parse src = Ok tree -> valid_iter it -> violations c0 = [] ->
  exists c' lines,
    visit c0 tree = Ok c' /\
    adds_within
      (fun v => In (node v) (module_nodes tree) /\ hook_violation v) c0 c' /\
    print_each get_source_segment c0 file src verbose (it (violations c'))
      = Ok lines /\
    run parse get_source_segment it (single c0) file src verbose
      = Ok (lines, single c0).
Proof.
  intros Hparse Hit Hempty.
  destruct (visit_module_ok tree c0) as (c' & Hv & Ha).
  destruct (adds_within_config _ _ _ Ha) as [Hcode Hexc].
  assert (Forall (fun v => AST_location (node v) <> None)
            (it (violations c'))) as Hloc.
  { apply Forall_forall; intros v Hin.
    apply (Permutation_in _ (Hit _)) in Hin.
    destruct (adds_within_inv _ _ _ _ Ha Hin) as [H | [_ [_ (l & Hl & _)]]].
    - rewrite Hempty in H; destruct H.
    - congruence. }
  destruct (print_each_total get_source_segment c0 file src verbose _ Hloc)
    as (lines & Hlines).
  exists c', lines; repeat split; auto.
  unfold run, single; cbn [checkers]. rewrite Hparse; cbn [bind run_checkers].
  rewrite Hv; cbn [bind]. unfold print_violations.
  rewrite (print_each_code _ c' c0), Hlines by exact Hcode.
  cbn [bind]. rewrite app_nil_r.
  replace (clear_violations c') with c0; [reflexivity |].
  destruct c0, c'; unfold clear_violations; simpl in *; congruence.
Qed.


(** The statement [s] records the violation [V] on one of its objects:
    [V] is reported once, and no other report is on an object of [s]. *)
Lemma one_reported (it : set_iter) (c0 : CallImportChecker)
  (file src : string) (verbose : bool)
  (pre post : list stmt) (s : stmt) (tis : list AST)
  (V : Violation) (lv : location) :
  parse src = Ok (Module_ (pre ++ s :: post) tis) ->
  NoDup (module_objs (Module_ (pre ++ s :: post) tis)) ->
  valid_iter it -> violations c0 = [] ->
  (forall c, exceptions c = exceptions c0 ->
             visit_stmt visit_Call c s = Ok (add_violation c V)) ->
  In (node V) (stmt_nodes s) -> AST_location (node V) = Some lv ->
  exists before after lines_before lines_after,
    run parse get_source_segment it (single c0) file src verbose
      = Ok ((lines_before
             ++ format_code (line_at (issue_code c0) file lv (message V))
                  (snippet get_source_segment src verbose (node V))
             :: lines_after)%list, single c0) /\
    print_each get_source_segment c0 file src verbose before
      = Ok lines_before /\
    print_each get_source_segment c0 file src verbose after
      = Ok lines_after /\
    forall v, In v (before ++ after) ->
              ~ In (AST_obj (node v)) (stmt_objs s).
Proof.
  intros Hparse Hnd Hit Hempty Hs HV Hlv.
  destruct (run_single it c0 file src verbose _ Hparse Hit Hempty)
    as (c' & lines & Hv & _ & Hlines & Hrun).
  destruct (visit_around _ _ _ _ _ _ Hv) as (c1 & c2 & A1 & H2 & A2).
  rewrite Hs in H2 by (apply (adds_within_config _ _ _ A1)).
  inversion H2; subst c2; clear H2.
  (* nothing but [V] and reports from outside [s] *)
  assert (forall x, In x (violations c') ->
                    x = V \/ In (node x) (nodes_outside pre post tis)) as Hall.
  { intros x Hx.
    destruct (adds_within_inv _ _ _ _ A2 Hx) as [H | [H _]]; auto.
    apply set_add_inv in H as [H | H]; auto.
    destruct (adds_within_inv _ _ _ _ A1 H) as [H' | [H' _]]; auto.
    rewrite Hempty in H'; destruct H'. }
  (* [V] itself is in the set *)
  assert (In V (violations c')) as HinV.
  { apply (adds_within_incl _ _ _ A2); cbn [violations add_violation].
    unfold set_add.
    destruct (existsb (Violation_eqb V) (violations c1)) eqn:E;
      [| apply in_or_app; right; left; reflexivity].
    exfalso.
    apply existsb_exists in E as (y & Hy & Ey).
    apply Violation_eqb_key in Ey; inversion Ey as [[Hobj Hmsg]].
    destruct (adds_within_inv _ _ _ _ A1 Hy) as [H' | [H' _]];
      [rewrite Hempty in H'; destruct H' |].
    apply (outside_stmt _ _ _ _ _ Hnd H').
    rewrite <- Hobj. apply in_map; exact HV. }
  (* the set holds no violation twice *)
  assert (NoDup (violations c')) as Hnodup.
  { apply (NoDup_map_inv key).
    apply (adds_within_NoDup _ _ _ A2); cbn [violations add_violation].
    apply set_add_NoDup, (adds_within_NoDup _ _ _ A1).
    rewrite Hempty; constructor. }
  pose proof (Hit (violations c')) as Hperm.
  apply (Permutation_in _ (Permutation_sym Hperm)) in HinV.
  apply in_split in HinV as (before & after & Hsplit).
  rewrite Hsplit in Hlines.
  apply print_each_split in Hlines
    as (lb & line & la & -> & Hb & Hline & Hl).
  rewrite (report_line_located _ _ _ _ _ _ lv Hlv) in Hline.
  inversion Hline; subst line.
  exists before, after, lb, la; repeat split; auto.
  intros v Hin.
  assert (NoDup (before ++ V :: after)) as Hnd'
      by (rewrite <- Hsplit; eapply Permutation_NoDup;
          [apply Permutation_sym; exact Hperm | exact Hnodup]).
  assert (In v (violations c')) as Hv'.
  { apply (Permutation_in _ Hperm); rewrite Hsplit.
    apply in_app_or in Hin as [Hin | Hin]; apply in_or_app; simpl; auto. }
  destruct (Hall v Hv') as [-> | Hout].
  - exfalso; exact (NoDup_remove_2 _ _ _ Hnd' Hin).
  - eapply outside_stmt; eauto.
Qed.
End EngineFacts.

(** ** Call statements and assignments at the top level *)

Lemma lint_linter_single : lint_linter = single (CallImportChecker_init "W001").
Proof. reflexivity. Qed.

Lemma in_order_valid : valid_iter Samples.in_order.
Proof. intros s; apply Permutation_refl. Qed.

Lemma reversed_valid : valid_iter Samples.reversed.
Proof. intros s; apply Permutation_sym, Permutation_rev. Qed.

(** Distinct identities in a given tree. *)
Ltac distinct_objs :=
  vm_compute;
  repeat (constructor; [simpl; intuition discriminate |]); constructor.



(** ** The type test of the [Call] hook *)

Lemma visit_list_ext {A : Type}
  (f g : CallImportChecker -> A -> result CallImportChecker) (l : list A) :
  Forall (fun x => forall c, f c x = g c x) l ->
  forall c, visit_list f c l = visit_list g c l.
Proof.
  induction 1 as [| x l Hx _ IH]; intros c; simpl; auto.
  rewrite Hx; destruct (g c x); simpl; auto.
Qed.

Lemma visit_Call_name_only (self : CallImportChecker) (node : expr) :
  visit_Call self node = visit_Call_with [ClsName] self node.
Proof.
  unfold visit_Call, visit_Call_with.
  destruct (negb (0 =? col_offset (expr_location node))); [reflexivity |].
  destruct (get_func node) as [func |]; [| reflexivity].
  destruct func; reflexivity.
Qed.

(** C9: the [ast.Assign] alternative of the bare-name test in [visit_Call]
    is dead: on every node the hook returns what the variant testing
    [ast.Name] alone returns, a callee being an expression and never an
    assignment; so the whole traversal of any tree is the same with either
    hook. *)
Theorem visit_Call_Assign_alternative_dead :
  (forall (func : expr), isinstance func [ClsAssign] = false) /\
  (forall (self : CallImportChecker) (node : expr),
     visit_Call self node = visit_Call_with [ClsName] self node) /\
  (forall (self : CallImportChecker) (tree : module),
     visit_mod visit_Call self tree
     = visit_mod (visit_Call_with [ClsName]) self tree).
Proof.
  split; [intros []; reflexivity |].
  split; [exact visit_Call_name_only |].
  assert ((forall e c, visit_expr visit_Call c e
                       = visit_expr (visit_Call_with [ClsName]) c e) /\
          (forall k c, visit_keyword visit_Call c k
                       = visit_keyword (visit_Call_with [ClsName]) c k) /\
          (forall s c, visit_stmt visit_Call c s
                       = visit_stmt (visit_Call_with [ClsName]) c s) /\
          (forall n c, visit_AST visit_Call c n
                       = visit_AST (visit_Call_with [ClsName]) c n))
    as (_ & _ & Hs & Hn).
  { apply AST_mutual_ind; intros; cbn [visit_expr visit_keyword visit_stmt visit_AST];
      auto using visit_Call_name_only, visit_list_ext. }
  intros self [body tis]; cbn [visit_mod].
  rewrite (visit_list_ext _ (visit_stmt (visit_Call_with [ClsName])))
    by (apply Forall_forall; auto).
  destruct (visit_list _ self body); cbn [bind]; auto.
  apply visit_list_ext, Forall_forall; auto.
Qed.

(** ** [lint] on nothing to analyse *)

Section LintFacts.
Variable parse : string -> result module.
Variable get_source_segment : string -> AST -> option string.
Variable is_file : string -> bool.
Variable read_file : string -> result string.

Lemma lint_files_all_skipped (its : nat -> set_iter) (verbose : bool)
  (files : list string) (linter : Linter) (n : nat) (out : output) :
  Forall (fun path => is_file path = false) files ->
  lint_files parse get_source_segment is_file read_file its verbose files
    linter n out
  = Ok (n, {| stdout := stdout out;
              stderr := (stderr out
                         ++ (if verbose
                             then map (fun path =>
                                         ("ignoring file: " ++ path)%string)
                                    files
                             else []))%list |}).
Proof.
  intros H; revert out; induction H as [| path files Hp _ IH]; intros out.
  - simpl; destruct verbose, out; simpl; rewrite app_nil_r; reflexivity.
  - cbn [lint_files]; rewrite Hp; cbn [negb].
    rewrite IH; destruct verbose; cbn [stdout stderr map]; auto.
    rewrite <- app_assoc; reflexivity.
Qed.
End LintFacts.

(** C10: when no path is supplied, or none of the supplied paths is an
    existing regular file, [lint] returns without raising, prints nothing
    on standard output, and the error stream ends with the summary
    [Analyzed 0 files]; before it come only the notes on the skipped
    paths, when verbose. *)
Theorem lint_nothing_to_analyse
  (parse : string -> result module)
  (get_source_segment : string -> AST -> option string)
  (is_file : string -> bool) (read_file : string -> result string)
  (its : nat -> set_iter) (files : list string) (verbose : bool) :
  Forall (fun path => is_file path = false) files ->
  lint parse get_source_segment is_file read_file its files verbose
  = Ok {| stdout := [];
          stderr := ((if verbose
                      then map (fun path => ("ignoring file: " ++ path)%string)
                             files
                      else [])
                     ++ [("Analyzed 0 files" ++ Str.newline)%string])%list |}.
Proof.
  intros H; unfold lint.
  rewrite (lint_files_all_skipped parse get_source_segment is_file read_file
             its verbose files _ 0%nat _ H).
  reflexivity.
Qed.

Lemma lint_nothing_to_analyse_witness :
  lint Samples.parse Samples.get_source_segment Samples.is_file
    Samples.read_file (fun _ => Samples.in_order) [] false
  = Ok {| stdout := []; stderr := [("Analyzed 0 files" ++ Str.newline)%string] |}
  /\
  lint Samples.parse Samples.get_source_segment Samples.is_file
    Samples.read_file (fun _ => Samples.in_order) ["/nowhere.py"; "/tmp"] true
  = Ok {| stdout := [];
          stderr := ["ignoring file: /nowhere.py"; "ignoring file: /tmp";
                     ("Analyzed 0 files" ++ Str.newline)%string] |}.
Proof.
  split.
  - apply (lint_nothing_to_analyse Samples.parse Samples.get_source_segment
             Samples.is_file Samples.read_file (fun _ => Samples.in_order)
             [] false).
    constructor.
  - apply (lint_nothing_to_analyse Samples.parse Samples.get_source_segment
             Samples.is_file Samples.read_file (fun _ => Samples.in_order)
             ["/nowhere.py"; "/tmp"] true).
    repeat constructor.
Defined.

(** ** Runs of the engine *)

Section RunFacts.
Variable parse : string -> result module.
Variable get_source_segment : string -> AST -> option string.

Lemma print_each_lines (c : CallImportChecker) (file src : string)
  (verbose : bool) (vs : list Violation) (lines : stream) :
  print_each get_source_segment c file src verbose vs = Ok lines ->
  Forall (fun line => exists v,
            In v vs /\
            report_line get_source_segment c file src verbose v = Ok line)
    lines.
Proof.
  revert lines; induction vs as [| v vs IH]; simpl; intros lines H.
  - inversion H; constructor.
  - destruct (report_line _ c file src verbose v) as [line |] eqn:Hline;
      [| discriminate].
    cbn [bind] in H.
    destruct (print_each _ c file src verbose vs) as [rest |];
      [| discriminate].
    inversion H; subst; constructor.
    + exists v; auto.
    + eapply Forall_impl; [| apply IH; reflexivity].
      intros line' (w & Hw & Hl); exists w; auto.
Qed.

(** After the loop of [run] every checker is the one it was, its set
    empty. *)
Lemma run_checkers_cleared (it : set_iter) (tree : module)
  (file src : string) (verbose : bool) (cs cs' : list CallImportChecker)
  (lines : stream) :
  run_checkers get_source_segment it tree file src verbose cs
    = Ok (lines, cs') ->
  cs' = map clear_violations cs.
Proof.
  revert lines cs'; induction cs as [| c cs IH]; intros lines cs' H.
  - inversion H; reflexivity.
  - cbn [run_checkers] in H.
    destruct (visit_module_ok tree c) as (c1 & Hv & Ha).
    rewrite Hv in H; cbn [bind] in H. unfold print_violations in H.
    destruct (print_each _ c1 file src verbose (it (violations c1)));
      [| discriminate].
    cbn [bind] in H.
    destruct (run_checkers _ it tree file src verbose cs) as [[more rest] |];
      [| discriminate].
    cbn [bind] in H. inversion H; subst.
    rewrite (IH more rest eq_refl); cbn [map]. f_equal.
    destruct (adds_within_config _ _ _ Ha) as [Hc He].
    unfold clear_violations; rewrite Hc, He; reflexivity.
Qed.

(** The loop returns when the violations waiting in the sets are on
    nodes with a position. *)
Lemma run_checkers_total (it : set_iter) (tree : module)
  (file src : string) (verbose : bool) (cs : list CallImportChecker) :
  valid_iter it ->
  Forall (fun c => Forall (fun v => AST_location (node v) <> None)
                     (violations c)) cs ->
  exists lines cs',
    run_checkers get_source_segment it tree file src verbose cs
      = Ok (lines, cs').
Proof.
  intros Hit; induction 1 as [| c cs Hc _ IH].
  - eexists _, _; reflexivity.
  - cbn [run_checkers].
    destruct (visit_module_ok tree c) as (c1 & -> & Ha); cbn [bind].
    unfold print_violations.
    destruct (print_each_total get_source_segment c1 file src verbose
                (it (violations c1))) as (lines & ->).
    + apply Forall_forall; intros v Hin.
      apply (Permutation_in _ (Hit _)) in Hin.
      destruct (adds_within_inv _ _ _ _ Ha Hin) as [H | [_ [_ (l & Hl & _)]]].
      * rewrite Forall_forall in Hc; auto.
      * congruence.
    + cbn [bind]. destruct IH as (more & rest & ->); cbn [bind].
      eexists _, _; reflexivity.
Qed.

(** Starting from empty sets, every line the loop prints reports a hook
    violation on an object of the tree it was given. *)
Lemma run_checkers_reports (it : set_iter) (tree : module)
  (file src : string) (verbose : bool) (cs cs' : list CallImportChecker)
  (lines : stream) :
  valid_iter it ->
  Forall (fun c => violations c = []) cs ->
  run_checkers get_source_segment it tree file src verbose cs
    = Ok (lines, cs') ->
  Forall (fun line => exists c v,
            In c cs /\ In (node v) (module_nodes tree) /\
            hook_violation v /\
            report_line get_source_segment c file src verbose v = Ok line)
    lines.
Proof.
  intros Hit Hempty; revert lines cs';
    induction Hempty as [| c cs Hc _ IH]; intros lines cs' H.
  - inversion H; constructor.
  - cbn [run_checkers] in H.
    destruct (visit_module_ok tree c) as (c1 & Hv & Ha).
    rewrite Hv in H; cbn [bind] in H. unfold print_violations in H.
    destruct (print_each _ c1 file src verbose (it (violations c1)))
      as [mine |] eqn:Hmine; [| discriminate].
    cbn [bind] in H.
    destruct (run_checkers _ it tree file src verbose cs) as [[more rest] |];
      [| discriminate].
    cbn [bind] in H. inversion H; subst.
    apply Forall_app; split.
    + apply print_each_lines in Hmine.
      eapply Forall_impl; [| exact Hmine].
      intros line (v & Hin & Hline).
      apply (Permutation_in _ (Hit _)) in Hin.
      destruct (adds_within_inv _ _ _ _ Ha Hin) as [Hold | [Hnode Hhook]];
        [rewrite Hc in Hold; destruct Hold |].
      exists c, v; repeat split; auto; try (left; reflexivity); try apply Hhook.
      rewrite <- Hline; apply report_line_code.
      symmetry; apply (adds_within_config _ _ _ Ha).
    + eapply Forall_impl; [| apply (IH more rest eq_refl)].
      intros line (c' & v & Hin & Hrest); exists c', v; split; auto.
      right; exact Hin.
Qed.

(** Two iteration orders give the same lines in another order. *)
Lemma run_checkers_orders (it1 it2 : set_iter) (tree : module)
  (file src : string) (verbose : bool) (cs cs1 : list CallImportChecker)
  (lines1 : stream) :
  valid_iter it1 -> valid_iter it2 ->
  run_checkers get_source_segment it1 tree file src verbose cs
    = Ok (lines1, cs1) ->
  exists lines2,
    run_checkers get_source_segment it2 tree file src verbose cs
      = Ok (lines2, cs1) /\
    Permutation lines1 lines2.
Proof.
  intros H1 H2; revert lines1 cs1; induction cs as [| c cs IH];
    intros lines1 cs1 H.
  - inversion H; exists []; auto.
  - cbn [run_checkers] in *.
    destruct (visit c tree) as [c1 |]; [| discriminate].
    cbn [bind] in *. unfold print_violations in *.
    destruct (print_each _ c1 file src verbose (it1 (violations c1)))
      as [mine |] eqn:Hmine; [| discriminate].
    cbn [bind] in H.
    destruct (run_checkers _ it1 tree file src verbose cs)
      as [[more rest] |]; [| discriminate].
    cbn [bind] in H. inversion H; subst.
    destruct (print_each_Permutation get_source_segment c1 file src verbose
                (it1 (violations c1)) (it2 (violations c1)) mine)
      as (mine' & -> & Hp); auto.
    { eapply perm_trans; [apply H1 | apply Permutation_sym, H2]. }
    cbn [bind].
    destruct (IH more rest eq_refl) as (more' & -> & Hq); cbn [bind].
    eexists; split; [reflexivity |].
    apply Permutation_app; auto.
Qed.
End RunFacts.

Lemma clear_violations_empty (cs : list CallImportChecker) :
  Forall (fun c => violations c = []) cs -> map clear_violations cs = cs.
Proof.
  induction 1 as [| c cs Hc _ IH]; simpl; auto.
  rewrite IH; f_equal. destruct c; unfold clear_violations; simpl in *.
  congruence.
Qed.

Lemma cleared_empty (cs : list CallImportChecker) :
  Forall (fun c => violations c = []) (map clear_violations cs).
Proof. induction cs; simpl; constructor; auto. Qed.

Lemma run_cleared (parse : string -> result module)
  (get_source_segment : string -> AST -> option string)
  (it : set_iter) (L L' : Linter) (file src : string) (verbose : bool)
  (lines : stream) :
  run parse get_source_segment it L file src verbose = Ok (lines, L') ->
  checkers L' = map clear_violations (checkers L).
Proof.
  unfold run; intros H.
  destruct (parse src) as [tree |]; [| discriminate]. cbn [bind] in H.
  destruct (run_checkers _ it tree file src verbose (checkers L))
    as [[out cs] |] eqn:Hrun; [| discriminate].
  cbn [bind] in H; inversion H; subst; cbn [checkers].
  eapply run_checkers_cleared; eauto.
Qed.

(** C4: after a run on a file every checker's violation set is empty;
    hence, when a file B is run after a file A, the sets are empty again
    after B and every line printed for B reports a violation a hook
    recorded on an object of B's own tree. *)
Theorem violations_do_not_leak
  (parse : string -> result module)
  (get_source_segment : string -> AST -> option string)
  (itA itB : set_iter) (L L1 L2 : Linter)
  (fileA srcA fileB srcB : string) (verboseA verboseB : bool)
  (linesA linesB : stream) (treeB : module) :
  run parse get_source_segment itA L fileA srcA verboseA = Ok (linesA, L1) ->
  parse srcB = Ok treeB ->
  valid_iter itB ->
  run parse get_source_segment itB L1 fileB srcB verboseB = Ok (linesB, L2) ->
  Forall (fun c => violations c = []) (checkers L1) /\
  Forall (fun c => violations c = []) (checkers L2) /\
  Forall (fun line => exists c v,
            In c (checkers L1) /\ In (node v) (module_nodes treeB) /\
            hook_violation v /\
            report_line get_source_segment c fileB srcB verboseB v = Ok line)
    linesB.
Proof.
  intros HA HparseB HitB HB.
  pose proof (run_cleared _ _ _ _ _ _ _ _ _ HA) as H1.
  pose proof (run_cleared _ _ _ _ _ _ _ _ _ HB) as H2.
  assert (Forall (fun c => violations c = []) (checkers L1)) as HE1
      by (rewrite H1; apply cleared_empty).
  repeat split; auto.
  - rewrite H2; apply cleared_empty.
  - unfold run in HB; rewrite HparseB in HB; cbn [bind] in HB.
    destruct (run_checkers _ itB treeB fileB srcB verboseB (checkers L1))
      as [[out cs] |] eqn:Hrun; [| discriminate].
    cbn [bind] in HB; inversion HB; subst.
    eapply run_checkers_reports; eauto.
Qed.

Lemma violations_do_not_leak_witness :
  Forall (fun c => violations c = []) (checkers lint_linter) /\
  Forall (fun c => violations c = []) (checkers lint_linter) /\
  Forall (fun line => exists c v,
            In c (checkers lint_linter) /\
            In (node v) (module_nodes Samples.tree_call) /\
            hook_violation v /\
            report_line Samples.get_source_segment c "b.py" Samples.src_call
              false v = Ok line)
    ["b.py:2:0: W001: Import invoked a Call"].
Proof.
  apply (violations_do_not_leak Samples.parse Samples.get_source_segment
           Samples.reversed Samples.in_order lint_linter lint_linter
           lint_linter "a.py" Samples.src_two "b.py" Samples.src_call
           true false
           ["a.py:2:0: W001: Import invoked a Call | bar()";
            "a.py:1:0: W001: Import invoked a Call | foo()"]
           ["b.py:2:0: W001: Import invoked a Call"] Samples.tree_call).
  - reflexivity.
  - reflexivity.
  - exact in_order_valid.
  - reflexivity.
Defined.

(** C7, as stated, fails on a file with two violations, [foo()\nbar()]:
    the set of the two yields them in either order, and the two runs print
    different texts. *)
Lemma two_runs_print_differently :
  valid_iter Samples.in_order /\ valid_iter Samples.reversed /\
  run Samples.parse Samples.get_source_segment Samples.in_order lint_linter
    "test.py" Samples.src_two false
    = Ok (["test.py:1:0: W001: Import invoked a Call";
           "test.py:2:0: W001: Import invoked a Call"], lint_linter) /\
  run Samples.parse Samples.get_source_segment Samples.reversed lint_linter
    "test.py" Samples.src_two false
    = Ok (["test.py:2:0: W001: Import invoked a Call";
           "test.py:1:0: W001: Import invoked a Call"], lint_linter) /\
  stream_text ["test.py:1:0: W001: Import invoked a Call";
               "test.py:2:0: W001: Import invoked a Call"]
  <> stream_text ["test.py:2:0: W001: Import invoked a Call";
                  "test.py:1:0: W001: Import invoked a Call"].
Proof.
  split; [exact in_order_valid |]. split; [exact reversed_valid |].
  split; [reflexivity |]. split; [reflexivity |].
  vm_compute; discriminate.
Qed.

(** C7 (amended): two runs of the engine on the same file name, source
    text and verbosity, from a linter whose sets are empty, leave the
    linter as it was and print the same lines, each as often, in orders
    that may differ with the order in which the violation sets yield their
    elements; when at most one line is printed the two outputs are the
    same text. *)
Theorem reruns_print_same_lines
  (parse : string -> result module)
  (get_source_segment : string -> AST -> option string)
  (it1 it2 : set_iter) (L L1 : Linter) (file src : string) (verbose : bool)
  (lines1 : stream) :
  valid_iter it1 -> valid_iter it2 ->
  Forall (fun c => violations c = []) (checkers L) ->
  run parse get_source_segment it1 L file src verbose = Ok (lines1, L1) ->
  L1 = L /\
  exists lines2,
    run parse get_source_segment it2 L1 file src verbose = Ok (lines2, L1) /\
    Permutation lines1 lines2 /\
    ((List.length lines1 <= 1)%nat -> stream_text lines2 = stream_text lines1).
Proof.
  intros H1 H2 Hempty Hrun.
  assert (L1 = L) as HL.
  { pose proof (run_cleared _ _ _ _ _ _ _ _ _ Hrun) as Hc.
    rewrite clear_violations_empty in Hc by exact Hempty.
    destruct L, L1; simpl in Hc; congruence. }
  subst L1. split; [reflexivity |].
  unfold run in *. destruct (parse src) as [tree |]; [| discriminate].
  cbn [bind] in *.
  destruct (run_checkers _ it1 tree file src verbose (checkers L))
    as [[out cs] |] eqn:Hloop; [| discriminate].
  cbn [bind] in Hrun.
  assert (out = lines1 /\ {| checkers := cs |} = L) as [-> Hcs]
      by (inversion Hrun; auto).
  destruct (run_checkers_orders get_source_segment it1 it2 tree file src
              verbose (checkers L) cs lines1 H1 H2 Hloop)
    as (lines2 & -> & Hp).
  cbn [bind]. exists lines2; repeat split; auto.
  - rewrite Hcs; reflexivity.
  - intros Hlen. destruct lines1 as [| a [| b rest]].
    + apply Permutation_nil in Hp; subst; reflexivity.
    + apply Permutation_length_1_inv in Hp; subst; reflexivity.
    + simpl in Hlen; lia.
Qed.

Lemma reruns_print_same_lines_witness :
  lint_linter = lint_linter /\
  exists lines2,
    run Samples.parse Samples.get_source_segment Samples.reversed lint_linter
      "test.py" Samples.src_two false = Ok (lines2, lint_linter) /\
    Permutation ["test.py:1:0: W001: Import invoked a Call";
                 "test.py:2:0: W001: Import invoked a Call"] lines2 /\
    ((List.length ["test.py:1:0: W001: Import invoked a Call";
              "test.py:2:0: W001: Import invoked a Call"] <= 1)%nat ->
     stream_text lines2
     = stream_text ["test.py:1:0: W001: Import invoked a Call";
                    "test.py:2:0: W001: Import invoked a Call"]).
Proof.
  apply (reruns_print_same_lines Samples.parse Samples.get_source_segment
           Samples.in_order Samples.reversed lint_linter lint_linter
           "test.py" Samples.src_two false).
  - exact in_order_valid.
  - exact reversed_valid.
  - repeat constructor.
  - reflexivity.
Defined.

(** ** The format of a report *)

Lemma append_assoc' (a b c : string) : ((a ++ b) ++ c = a ++ b ++ c)%string.
Proof. induction a as [| x a IH]; simpl; [| rewrite IH]; reflexivity. Qed.

Lemma append_empty_r (a : string) : (a ++ "" = a)%string.
Proof. induction a as [| x a IH]; simpl; [| rewrite IH]; reflexivity. Qed.

Lemma join_cons (x : string) (l : list string) :
  Str.join (x :: l) = (x ++ Str.join l)%string.
Proof.
  unfold Str.join; destruct l; simpl; [rewrite append_empty_r |]; reflexivity.
Qed.

Lemma join_app (l1 l2 : list string) :
  Str.join (l1 ++ l2) = (Str.join l1 ++ Str.join l2)%string.
Proof.
  induction l1 as [| x l1 IH]; [reflexivity |].
  rewrite <- app_comm_cons, !join_cons, IH, append_assoc'; reflexivity.
Qed.

Lemma interleave_loop (left_pad : string) (lines init : list string) :
  fold_left
    (fun interleave line =>
       if Str.is_empty line then interleave
       else (interleave ++ [(line ++ Str.newline)%string; left_pad])%list)
    lines init
  = (init ++ flat_map (fun line => if Str.is_empty line then []
                                   else [(line ++ Str.newline)%string; left_pad])
               lines)%list.
Proof.
  revert init; induction lines as [| line lines IH]; intros init; simpl.
  - rewrite app_nil_r; reflexivity.
  - rewrite IH; destruct (Str.is_empty line); simpl; auto.
    rewrite <- app_assoc; reflexivity.
Qed.

Lemma format_code_lines (message code : string) :
  Str.has_newline code = true ->
  format_code message code
  = (message ++ " | "
     ++ Str.join
          (map (fun line => line ++ Str.newline
                            ++ Str.spaces (String.length message) ++ " | ")
             (filter (fun line => negb (Str.is_empty line))
                (Str.split_lines code))))%string.
Proof.
  intros Hnl; unfold format_code.
  destruct code as [| ch code]; [discriminate |].
  cbn [Str.is_empty]; rewrite Hnl; cbn [negb].
  rewrite interleave_loop, join_app, join_cons.
  change (Str.join []) with EmptyString.
  rewrite append_empty_r, append_assoc'. do 2 f_equal.
  induction (Str.split_lines (String ch code)) as [| line lines IH];
    [reflexivity |].
  cbn [flat_map filter]; destruct (Str.is_empty line); cbn [negb]; auto.
  rewrite join_app, IH; cbn [map]; rewrite !join_cons.
  change (Str.join []) with EmptyString.
  rewrite append_empty_r, !append_assoc'; reflexivity.
Qed.

(** C5, as stated, fails on a snippet with a blank line, the text of
    [foo(1,\n\n    2)]: of its three physical lines only the two that are
    not empty are printed, the blank one is left out. *)
Lemma blank_line_of_snippet_dropped :
  Samples.get_source_segment Samples.src_blank (NExpr Samples.blank_call)
    = Some Samples.code_blank /\
  Str.split_lines Samples.code_blank = ["foo(1,"; ""; "    2)"] /\
  run Samples.parse Samples.get_source_segment Samples.in_order lint_linter
    "t.py" Samples.src_blank true
    = Ok ([format_code "t.py:1:0: W001: Import invoked a Call"
             Samples.code_blank], lint_linter) /\
  format_code "t.py:1:0: W001: Import invoked a Call" Samples.code_blank
    = ("t.py:1:0: W001: Import invoked a Call | foo(1," ++ Str.newline
       ++ Str.spaces 37 ++ " |     2)" ++ Str.newline
       ++ Str.spaces 37 ++ " | ")%string /\
  format_code "t.py:1:0: W001: Import invoked a Call" Samples.code_blank
    <> ("t.py:1:0: W001: Import invoked a Call" ++ " | "
        ++ Str.join
             (map (fun line => line ++ Str.newline ++ Str.spaces 37 ++ " | ")
                (Str.split_lines Samples.code_blank)))%string.
Proof.
  repeat split; try reflexivity.
  vm_compute; discriminate.
Qed.

(** C5 (amended): a violation on a node with a position is printed as
    [<file_name>:<line>:<col>: <issue_code>: <message>], line and column
    being the node's [lineno] (1-based) and [col_offset] (0-based); when
    verbose, the source snippet follows: nothing for an empty one, the
    snippet after [" | "] for a non-empty one of a single line, and for one
    of several lines each of its non-empty lines followed by a newline and
    a gutter of as many spaces as the message is long and [" | "]; empty
    lines of the snippet are left out. *)
Theorem report_line_format
  (get_source_segment : string -> AST -> option string)
  (c : CallImportChecker) (file src : string) (v : Violation) (l : location) :
  AST_location (node v) = Some l ->
  report_line get_source_segment c file src false v
    = Ok (file ++ ":" ++ Str.of_Z (lineno l) ++ ":" ++ Str.of_Z (col_offset l)
          ++ ": " ++ issue_code c ++ ": " ++ message v)%string /\
  report_line get_source_segment c file src true v
    = Ok (format_code
            (file ++ ":" ++ Str.of_Z (lineno l) ++ ":"
             ++ Str.of_Z (col_offset l) ++ ": " ++ issue_code c ++ ": "
             ++ message v)
            (fstring_of_option (get_source_segment src (node v)))) /\
  (forall message : string, format_code message "" = message) /\
  (forall message code : string,
     code <> ""%string -> Str.has_newline code = false ->
     format_code message code = (message ++ " | " ++ code)%string) /\
  (forall message code : string,
     Str.has_newline code = true ->
     format_code message code
     = (message ++ " | "
        ++ Str.join
             (map (fun line => line ++ Str.newline
                               ++ Str.spaces (String.length message) ++ " | ")
                (filter (fun line => negb (Str.is_empty line))
                   (Str.split_lines code))))%string).
Proof.
  intros Hl; repeat split.
  - rewrite (report_line_located _ _ _ _ _ _ l Hl); reflexivity.
  - rewrite (report_line_located _ _ _ _ _ _ l Hl); reflexivity.
  - intros message code Hne Hnl; unfold format_code.
    destruct code; [congruence |]. cbn [Str.is_empty]; rewrite Hnl; reflexivity.
  - apply format_code_lines.
Qed.

Lemma report_line_format_witness :
  AST_location (NExpr Samples.blank_call) = Some (Samples.span 1 0 3 6) /\
  report_line Samples.get_source_segment (CallImportChecker_init "W001")
    "t.py" Samples.src_blank false
    (mkViolation (NExpr Samples.blank_call) import_invoked_a_call)
    = Ok "t.py:1:0: W001: Import invoked a Call" /\
  report_line Samples.get_source_segment (CallImportChecker_init "W001")
    "t.py" Samples.src_blank true
    (mkViolation (NExpr Samples.blank_call) import_invoked_a_call)
    = Ok (format_code "t.py:1:0: W001: Import invoked a Call"
            Samples.code_blank) /\
  format_code "m" "f(x)" = "m | f(x)" /\
  format_code "m" ("f(" ++ Str.newline ++ "x)")
    = ("m | f(" ++ Str.newline ++ "  | x)" ++ Str.newline ++ "  | ")%string.
Proof.
  split; [reflexivity |].
  destruct (report_line_format Samples.get_source_segment
              (CallImportChecker_init "W001") "t.py" Samples.src_blank
              (mkViolation (NExpr Samples.blank_call) import_invoked_a_call)
              (Samples.span 1 0 3 6) eq_refl)
    as (H1 & H2 & _ & H4 & H5).
  split; [exact H1 |]. split; [exact H2 |]. split.
  - apply H4; [discriminate | reflexivity].
  - rewrite H5 by reflexivity. reflexivity.
Defined.

(** ** Below nodes with and without hook *)

Lemma bind_Ok {A : Type} (m : result A) : bind m Ok = m.
Proof. destruct m; reflexivity. Qed.

Lemma generic_visit_children (n : AST) (fields : list AST)
  (c : CallImportChecker) :
  generic_children n = Some fields ->
  visit_AST visit_Call c n = visit_list (visit_AST visit_Call) c fields.
Proof.
  destruct n as [[| | |] | [] | [| |] |]; cbn [generic_children];
    intros H; inversion H; subst; cbn [visit_AST visit_expr visit_keyword
                                        visit_stmt visit_list];
    rewrite ?bind_Ok; reflexivity.
Qed.

Lemma hooked_visit (n : AST) (c : CallImportChecker) :
  generic_children n = None ->
  visit_AST visit_Call c n = Ok c \/
  visit_AST visit_Call c n
  = Ok (add_violation c (mkViolation n import_invoked_a_call)).
Proof.
  destruct n as [[| | |] | [] | [| |] |]; cbn [generic_children];
    intros H; try discriminate H.
  - cbn [visit_AST visit_expr]. rewrite visit_Call_spec.
    destruct (_ && _); auto.
  - cbn [visit_AST visit_stmt]. rewrite visit_Assign_spec.
    destruct (_ && _); auto.
Qed.

Lemma AST_nodes_self (n : AST) : In n (AST_nodes n).
Proof. destruct n as [[| | |] | [] | [| |] |]; left; reflexivity. Qed.

Lemma generic_children_nodes (n m : AST) (fields : list AST) :
  generic_children n = Some fields -> In m fields ->
  incl (AST_nodes m) (AST_nodes n).
Proof.
  intros H Hm k Hk.
  assert (In k (flat_map AST_nodes fields)) as Hflat
      by (apply in_flat_map; exists m; auto).
  destruct n as [[| | |] | [] | [| |] |]; cbn [generic_children] in H;
    inversion H; subst; cbn [AST_nodes expr_nodes keyword_nodes stmt_nodes];
    try (right; exact Hflat);
    try (destruct Hm as [<- | []]; right; exact Hk).
Qed.

Lemma below_nodes (n k : AST) : below_unhooked n k -> In k (AST_nodes n).
Proof.
  induction 1 as [n | n m k fields Hc Hm _ IH].
  - apply AST_nodes_self.
  - eapply generic_children_nodes; eauto.
Qed.

Lemma keys_incl (c c' : CallImportChecker) (k : obj_id * string) :
  incl (violations c) (violations c') ->
  In k (map key (violations c)) -> In k (map key (violations c')).
Proof.
  intros Hincl Hk; apply in_map_iff in Hk as (v & <- & Hv).
  apply in_map; auto.
Qed.

(** A call at column 0 whose callee is not exempt, below a node with only
    nodes without hook in between, is recorded when that node is
    visited. *)
Lemma found_below (exc : list string) (n : AST) co cl func args keywords :
  below_unhooked n (NExpr (Call co cl func args keywords)) ->
  col_offset cl = 0 -> callee_exempt exc func = false ->
  forall c, exceptions c = exc ->
  exists c',
    visit_AST visit_Call c n = Ok c' /\
    In (key (mkViolation (NExpr (Call co cl func args keywords))
               import_invoked_a_call))
       (map key (violations c')).
Proof.
  intros Hbelow Hcol Hexempt.
  remember (NExpr (Call co cl func args keywords)) as k eqn:Hk.
  induction Hbelow as [n | n m k fields Hc Hm _ IH]; intros c Hexc.
  - subst n; cbn [visit_AST visit_expr].
    rewrite visit_Call_spec, Hcol, Hexc, Hexempt; cbn [andb negb Z.eqb].
    eexists; split; [reflexivity |]. apply set_add_key.
  - specialize (IH Hk).
    rewrite (generic_visit_children n fields c Hc).
    clear Hc. revert c Hexc; induction fields as [| x fields IHf];
      intros c Hexc; [destruct Hm |].
    cbn [visit_list].
    destruct (proj2 (proj2 (proj2 visit_sound)) x c) as (c1 & Hx & Ax).
    rewrite Hx; cbn [bind].
    destruct (adds_within_config _ _ _ Ax) as [_ He1].
    destruct Hm as [-> | Hm].
    + destruct (IH c Hexc) as (c1' & Hx' & Hkey).
      rewrite Hx in Hx'; inversion Hx'; subst c1'.
      destruct (visit_ASTs_ok fields c1) as (c2 & H2 & A2).
      exists c2; split; auto.
      eapply keys_incl; [eapply adds_within_incl; exact A2 | exact Hkey].
    + apply IHf; auto. congruence.
Qed.

(** C6, as stated, fails on a call nested in another call,
    [foo().getLogger()]: the inner call [foo()] is at column 0 and its
    callee [foo] is not exempt, but the traversal stops at the outer call,
    whose callee name [getLogger] is exempt, and the run prints nothing. *)
Lemma call_nested_in_call_not_found :
  Samples.parse Samples.src_nested
    = Ok (Module_ [Expr 1 (Samples.span 1 0 1 17) Samples.nested_outer] []) /\
  Samples.nested_outer
    = Call 2 (Samples.span 1 0 1 17)
        (Attribute 3 (Samples.span 1 0 1 15) Samples.nested_inner
           "getLogger" Load) [] [] /\
  Samples.nested_inner
    = Call 4 (Samples.span 1 0 1 5) (Name 5 (Samples.span 1 0 1 3) "foo" Load)
        [] [] /\
  col_offset (expr_location Samples.nested_inner) = 0 /\
  callee_exempt ["getLogger"] (Name 5 (Samples.span 1 0 1 3) "foo" Load)
    = false /\
  In (NExpr Samples.nested_inner) (expr_nodes Samples.nested_outer) /\
  run Samples.parse Samples.get_source_segment Samples.in_order lint_linter
    "test.py" Samples.src_nested false = Ok ([], lint_linter).
Proof.
  repeat split; try reflexivity.
  cbn; auto.
Qed.

(** C6 (amended): on a node of a class without hook the traversal goes on
    to the nodes its fields hold, so a call at column 0 with a callee that
    is not exempt, lying below a statement of the module body with only
    such nodes in between (the operand of an operation, say), is found and
    reported at its position; on a [Call] or an [Assign], which have a
    hook, the traversal records at most that node and does not go below
    it. *)
Theorem nested_calls_found_below_unhooked_nodes
  (parse : string -> result module)
  (get_source_segment : string -> AST -> option string)
  (it : set_iter) (file src : string) (verbose : bool)
  (pre post : list stmt) (s : stmt) (tis : list AST)
  (co : obj_id) (cl : location) (func : expr) (args : list expr)
  (keywords : list keyword) :
  (forall n fields c,
     generic_children n = Some fields ->
     visit_AST visit_Call c n = visit_list (visit_AST visit_Call) c fields) /\
  (forall n c,
     generic_children n = None ->
     visit_AST visit_Call c n = Ok c \/
     visit_AST visit_Call c n
     = Ok (add_violation c (mkViolation n import_invoked_a_call))) /\
  (parse src = Ok (Module_ (pre ++ s :: post) tis) ->
   NoDup (module_objs (Module_ (pre ++ s :: post) tis)) ->
   valid_iter it ->
   below_unhooked (NStmt s) (NExpr (Call co cl func args keywords)) ->
   col_offset cl = 0 ->
   callee_exempt ["getLogger"] func = false ->
   exists lines_before lines_after,
     run parse get_source_segment it lint_linter file src verbose
     = Ok ((lines_before
            ++ format_code
                 (file ++ ":" ++ Str.of_Z (lineno cl) ++ ":0: W001: "
                  ++ "Import invoked a Call")
                 (snippet get_source_segment src verbose
                    (NExpr (Call co cl func args keywords)))
            :: lines_after)%list, lint_linter)).
Proof.
  split; [intros; apply generic_visit_children; auto |].
  split; [intros; apply hooked_visit; auto |].
  intros Hparse Hnd Hit Hbelow Hcol Hexempt.
  set (call := Call co cl func args keywords) in *.
  set (V := mkViolation (NExpr call) import_invoked_a_call).
  rewrite lint_linter_single.
  destruct (run_single parse get_source_segment it
              (CallImportChecker_init "W001") file src verbose _
              Hparse Hit eq_refl)
    as (c' & lines & Hv & Hall & Hlines & Hrun).
  destruct (visit_around _ _ _ _ _ _ Hv) as (c1 & c2 & A1 & H2 & A2).
  destruct (found_below ["getLogger"] (NStmt s) co cl func args keywords
              Hbelow Hcol Hexempt c1) as (c2' & H2' & Hkey).
  { apply (adds_within_config _ _ _ A1). }
  cbn [visit_AST] in H2'. rewrite H2 in H2'; inversion H2'; subst c2'.
  apply (keys_incl c2 c' _ (adds_within_incl _ _ _ A2)) in Hkey.
  apply in_map_iff in Hkey as (w & Hw & Hin).
  (* the recorded violation is the one on the call itself *)
  assert (w = V) as ->.
  { destruct (adds_within_inv _ _ _ _ Hall Hin) as [[] | [Hnode _]].
    inversion Hw as [[Hobj Hmsg]].
    assert (node w = NExpr call) as Hsame.
    { apply (NoDup_map_inj AST_obj _ _ _ Hnd Hnode); auto.
      apply (Permutation_in _ (Permutation_sym (module_nodes_split _ _ _ _))).
      apply in_or_app; left. apply (below_nodes _ _ Hbelow). }
    destruct w as [wn wm]; cbn [node message V] in Hsame, Hmsg.
    unfold V; rewrite Hsame, Hmsg; reflexivity. }
  apply (Permutation_in _ (Permutation_sym (Hit _))) in Hin.
  apply in_split in Hin as (before & after & Hsplit).
  rewrite Hsplit in Hlines.
  apply print_each_split in Hlines as (lb & line & la & -> & _ & Hline & _).
  rewrite (report_line_located get_source_segment
             (CallImportChecker_init "W001") file src verbose V cl eq_refl)
    in Hline.
  inversion Hline; subst line.
  exists lb, la. rewrite Hrun.
  unfold line_at; cbn [message issue_code CallImportChecker_init V].
  rewrite Hcol; reflexivity.
Qed.

Lemma nested_calls_found_below_unhooked_nodes_witness :
  below_unhooked (NStmt Samples.binop_stmt) (NExpr Samples.binop_call) /\
  exists lines_before lines_after,
    run Samples.parse Samples.get_source_segment Samples.in_order lint_linter
      "test.py" Samples.src_binop false
    = Ok ((lines_before
           ++ format_code
                ("test.py" ++ ":" ++ Str.of_Z 1 ++ ":0: W001: "
                 ++ "Import invoked a Call")
                (snippet Samples.get_source_segment Samples.src_binop false
                   (NExpr Samples.binop_call))
           :: lines_after)%list, lint_linter).
Proof.
  assert (below_unhooked (NStmt Samples.binop_stmt)
            (NExpr Samples.binop_call)) as Hbelow.
  { eapply below_child; [reflexivity | left; reflexivity |].
    eapply below_child; [reflexivity | left; reflexivity |].
    apply below_here. }
  split; [exact Hbelow |].
  apply (proj2 (proj2 (nested_calls_found_below_unhooked_nodes
                         Samples.parse Samples.get_source_segment
                         Samples.in_order "test.py" Samples.src_binop false
                         [] [] Samples.binop_stmt [] 3
                         (Samples.span 1 0 1 5)
                         (Name 4 (Samples.span 1 0 1 3) "foo" Load) [] []))).
  - reflexivity.
  - distinct_objs.
  - exact in_order_valid.
  - exact Hbelow.
  - reflexivity.
  - reflexivity.
Defined.

(** * Further properties *)

(** ** The traversal records the sites of the tree *)

Lemma visit_list_sites {A : Type}
  (f : CallImportChecker -> A -> result CallImportChecker)
  (sites : list string -> A -> list Violation) (l : list A) :
  Forall (fun x => forall c, f c x = Ok (add_all (sites (exceptions c) x) c)) l ->
  forall c,
    visit_list f c l = Ok (add_all (flat_map (sites (exceptions c)) l) c).
Proof.
  induction 1 as [| x l Hx _ IH]; intros c; [reflexivity |].
  cbn [visit_list flat_map]. rewrite Hx; cbn [bind].
  rewrite IH, add_all_app.
  destruct (add_all_config (sites (exceptions c) x) c) as [_ ->].
  reflexivity.
Qed.

Lemma visit_sites :
  (forall e c, visit_expr visit_Call c e
               = Ok (add_all (expr_sites (exceptions c) e) c)) /\
  (forall k c, visit_keyword visit_Call c k
               = Ok (add_all (keyword_sites (exceptions c) k) c)) /\
  (forall s c, visit_stmt visit_Call c s
               = Ok (add_all (stmt_sites (exceptions c) s) c)) /\
  (forall n c, visit_AST visit_Call c n
               = Ok (add_all (AST_sites (exceptions c) n) c)).
Proof.
  apply AST_mutual_ind.
  - reflexivity.
  - intros o l value attr ctx IH c; exact (IH c).
  - intros o l func args keywords _ _ _ c.
    cbn [visit_expr expr_sites call_site]. rewrite visit_Call_spec.
    destruct (_ && _); reflexivity.
  - intros cls o l fields IH c.
    exact (visit_list_sites _ AST_sites fields IH c).
  - intros o l arg value IH c; exact (IH c).
  - intros o l value IH c; exact (IH c).
  - intros o l targets value _ _ c.
    cbn [visit_stmt stmt_sites assign_site]. rewrite visit_Assign_spec.
    destruct value as [| | ? ? func ? ? |];
      rewrite ?andb_false_r; try reflexivity.
    destruct (_ && _); reflexivity.
  - intros cls o l fields IH c.
    exact (visit_list_sites _ AST_sites fields IH c).
  - intros e IH c; exact (IH c).
  - intros k IH c; exact (IH c).
  - intros s IH c; exact (IH c).
  - intros cls o l fields IH c.
    exact (visit_list_sites _ AST_sites fields IH c).
Qed.

Lemma visit_module_sites (c : CallImportChecker) (tree : module) :
  visit c tree = Ok (add_all (module_sites (exceptions c) tree) c).
Proof.
  destruct tree as [body tis]; unfold visit; cbn [visit_mod module_sites].
  rewrite (visit_list_sites _ stmt_sites body)
    by (apply Forall_forall; intros; apply visit_sites).
  cbn [bind].
  rewrite (visit_list_sites _ AST_sites tis)
    by (apply Forall_forall; intros; apply visit_sites).
  rewrite add_all_app.
  destruct (add_all_config (flat_map (stmt_sites (exceptions c)) body) c)
    as [_ ->].
  reflexivity.
Qed.

(** ** The sites are the violating nodes the traversal reaches *)

Lemma violation_eta (v : Violation) (n : AST) :
  node v = n -> message v = import_invoked_a_call ->
  v = mkViolation n import_invoked_a_call.
Proof. destruct v; cbn; intros -> ->; reflexivity. Qed.

Lemma sites_children (exc : list string) (n : AST) (fields : list AST) :
  generic_children n = Some fields ->
  AST_sites exc n = flat_map (AST_sites exc) fields.
Proof.
  destruct n as [[| | |] | [] | [| |] |]; cbn [generic_children];
    intros H; inversion H; subst;
    cbn [AST_sites expr_sites keyword_sites stmt_sites flat_map];
    rewrite ?app_nil_r; reflexivity.
Qed.

Lemma sites_hooked (exc : list string) (n : AST) (v : Violation) :
  generic_children n = None ->
  In v (AST_sites exc n) <->
  v = mkViolation n import_invoked_a_call /\ violating exc n.
Proof.
  destruct n as [[| | o l func args keywords |] | []
                 | [| o l targets value |] |];
    cbn [generic_children]; intros H; try discriminate H;
    cbn [AST_sites expr_sites stmt_sites call_site assign_site violating].
  - destruct (0 =? col_offset l) eqn:Hcol; cbn [andb].
    + apply Z.eqb_eq in Hcol.
      destruct (callee_exempt exc func); cbn [negb In];
        intuition (try congruence; auto).
    + apply Z.eqb_neq in Hcol. cbn [In]; intuition congruence.
  - destruct value as [| | ? ? func ? ? |];
      try (cbn [In]; intuition congruence).
    destruct (0 =? col_offset l) eqn:Hcol; cbn [andb].
    + apply Z.eqb_eq in Hcol.
      destruct (callee_exempt exc func); cbn [negb In];
        intuition (try congruence; auto).
    + apply Z.eqb_neq in Hcol. cbn [In]; intuition congruence.
Qed.

Lemma violating_hooked (exc : list string) (n : AST) :
  violating exc n -> generic_children n = None.
Proof.
  destruct n as [[| | |] | [] | [| |] |]; cbn [violating generic_children];
    intros H; try destruct H; reflexivity.
Qed.

Lemma sites_below (exc : list string) (n k : AST) :
  below_unhooked n k -> violating exc k ->
  In (mkViolation k import_invoked_a_call) (AST_sites exc n).
Proof.
  induction 1 as [n | n m k fields Hc Hm _ IH]; intros Hk.
  - apply sites_hooked; [apply (violating_hooked exc) |]; auto.
  - rewrite (sites_children exc n fields Hc).
    apply in_flat_map; exists m; auto.
Qed.

Lemma below_sites (exc : list string) :
  (forall e v, In v (expr_sites exc e) ->
     message v = import_invoked_a_call /\ violating exc (node v) /\
     below_unhooked (NExpr e) (node v)) /\
  (forall k v, In v (keyword_sites exc k) ->
     message v = import_invoked_a_call /\ violating exc (node v) /\
     below_unhooked (NKeyword k) (node v)) /\
  (forall s v, In v (stmt_sites exc s) ->
     message v = import_invoked_a_call /\ violating exc (node v) /\
     below_unhooked (NStmt s) (node v)) /\
  (forall n v, In v (AST_sites exc n) ->
     message v = import_invoked_a_call /\ violating exc (node v) /\
     below_unhooked n (node v)).
Proof.
  assert (forall n fields,
            generic_children n = Some fields ->
            Forall (fun m => forall v, In v (AST_sites exc m) ->
                      message v = import_invoked_a_call /\
                      violating exc (node v) /\
                      below_unhooked m (node v)) fields ->
            forall v, In v (flat_map (AST_sites exc) fields) ->
              message v = import_invoked_a_call /\ violating exc (node v) /\
              below_unhooked n (node v)) as Hstep.
  { intros n fields Hc Hall v Hv.
    apply in_flat_map in Hv as (m & Hm & Hv).
    rewrite Forall_forall in Hall.
    destruct (Hall m Hm v Hv) as (Hmsg & Hviol & Hbelow).
    repeat split; auto. eapply below_child; eauto. }
  assert (forall n v,
            generic_children n = None -> In v (AST_sites exc n) ->
            message v = import_invoked_a_call /\ violating exc (node v) /\
            below_unhooked n (node v)) as Hhook.
  { intros n v Hc Hv. apply (sites_hooked exc n v Hc) in Hv as [-> Hviol].
    repeat split; auto. apply below_here. }
  apply AST_mutual_ind.
  - intros o l id ctx v [].
  - intros o l value attr ctx IH v Hv.
    apply (Hstep (NExpr (Attribute o l value attr ctx)) [NExpr value]);
      [reflexivity | constructor; [exact IH | constructor] |].
    cbn [flat_map]; rewrite app_nil_r; exact Hv.
  - intros o l func args keywords _ _ _ v Hv.
    apply (Hhook (NExpr (Call o l func args keywords))); auto.
  - intros cls o l fields IH.
    apply (Hstep (NExpr (ExprOther cls o l fields)) fields); auto.
  - intros o l arg value IH v Hv.
    apply (Hstep (NKeyword (Keyword o l arg value)) [NExpr value]);
      [reflexivity | constructor; [exact IH | constructor] |].
    cbn [flat_map]; rewrite app_nil_r; exact Hv.
  - intros o l value IH v Hv.
    apply (Hstep (NStmt (Expr o l value)) [NExpr value]);
      [reflexivity | constructor; [exact IH | constructor] |].
    cbn [flat_map]; rewrite app_nil_r; exact Hv.
  - intros o l targets value _ _ v Hv.
    apply (Hhook (NStmt (Assign o l targets value))); auto.
  - intros cls o l fields IH.
    apply (Hstep (NStmt (StmtOther cls o l fields)) fields); auto.
  - intros e IH; exact IH.
  - intros k IH; exact IH.
  - intros s IH; exact IH.
  - intros cls o l fields IH.
    apply (Hstep (NOther cls o l fields) fields); auto.
Qed.

Lemma module_sites_reportable (exc : list string) (tree : module)
  (v : Violation) :
  In v (module_sites exc tree) <-> reportable exc tree v.
Proof.
  destruct tree as [body tis]; unfold reportable;
    cbn [module_sites module_roots]; split.
  - intros H; apply in_app_or in H as [H | H];
      apply in_flat_map in H as (x & Hx & Hv).
    + destruct (proj1 (proj2 (proj2 (below_sites exc))) x v Hv)
        as (Hm & Hviol & Hb).
      repeat split; auto. exists (NStmt x); split; auto.
      apply in_or_app; left; apply in_map; auto.
    + destruct (proj2 (proj2 (proj2 (below_sites exc))) x v Hv)
        as (Hm & Hviol & Hb).
      repeat split; auto. exists x; split; auto.
      apply in_or_app; auto.
  - intros (Hm & Hviol & root & Hroot & Hb).
    rewrite (violation_eta v (node v) eq_refl Hm).
    pose proof (sites_below exc root (node v) Hb Hviol) as Hin.
    apply in_or_app.
    apply in_app_or in Hroot as [Hroot | Hroot].
    + apply in_map_iff in Hroot as (s & <- & Hs).
      left; apply in_flat_map; exists s; auto.
    + right; apply in_flat_map; exists root; auto.
Qed.

(** ** Distinct objects give distinct sites *)

Lemma sites_nodes (exc : list string) (n : AST) (v : Violation) :
  In v (AST_sites exc n) -> In (node v) (AST_nodes n).
Proof.
  intros H; apply below_nodes.
  apply (proj2 (proj2 (proj2 (below_sites exc))) n v H).
Qed.

Lemma flat_map_sites_NoDup {A : Type} (sites : A -> list Violation)
  (nodes : A -> list AST) (l : list A) :
  (forall x v, In x l -> In v (sites x) -> In (node v) (nodes x)) ->
  (forall x, In x l -> NoDup (map AST_obj (nodes x)) ->
             NoDup (map AST_obj (map node (sites x)))) ->
  NoDup (map AST_obj (flat_map nodes l)) ->
  NoDup (map AST_obj (map node (flat_map sites l))).
Proof.
  induction l as [| x l IH]; intros Hin Hone Hnd; [constructor |].
  cbn [flat_map] in *. rewrite !map_app in *.
  apply NoDup_app.
  - apply Hone; [left; reflexivity |].
    eapply NoDup_app_remove_r; exact Hnd.
  - apply IH; [intros; apply Hin; auto; right; auto
              | intros; apply Hone; auto; right; auto |].
    eapply NoDup_app_remove_l; exact Hnd.
  - intros o Ho Ho'.
    apply (NoDup_app_disjoint _ _ o Hnd).
    + apply in_map_iff in Ho as (n & <- & Hn).
      apply in_map_iff in Hn as (v & <- & Hv).
      apply in_map, (Hin x v); auto. left; reflexivity.
    + apply in_map_iff in Ho' as (n & <- & Hn).
      apply in_map_iff in Hn as (v & <- & Hv).
      apply in_flat_map in Hv as (y & Hy & Hv).
      apply in_map, in_flat_map. exists y; split; auto.
      apply (Hin y v); auto. right; auto.
Qed.

Lemma sites_NoDup (exc : list string) :
  (forall e, NoDup (map AST_obj (expr_nodes e)) ->
             NoDup (map AST_obj (map node (expr_sites exc e)))) /\
  (forall k, NoDup (map AST_obj (keyword_nodes k)) ->
             NoDup (map AST_obj (map node (keyword_sites exc k)))) /\
  (forall s, NoDup (map AST_obj (stmt_nodes s)) ->
             NoDup (map AST_obj (map node (stmt_sites exc s)))) /\
  (forall n, NoDup (map AST_obj (AST_nodes n)) ->
             NoDup (map AST_obj (map node (AST_sites exc n)))).
Proof.
  assert (forall fields,
            Forall (fun n => NoDup (map AST_obj (AST_nodes n)) ->
                      NoDup (map AST_obj (map node (AST_sites exc n))))
              fields ->
            NoDup (map AST_obj (flat_map AST_nodes fields)) ->
            NoDup (map AST_obj (map node (flat_map (AST_sites exc) fields))))
    as Hfields.
  { intros fields Hall; rewrite Forall_forall in Hall.
    apply flat_map_sites_NoDup; auto.
    intros x v _; apply sites_nodes. }
  assert (forall (l : list Violation) (v : Violation),
            l = [] \/ l = [v] ->
            NoDup (map AST_obj (map node l))) as Hsmall.
  { intros l v [-> | ->]; repeat constructor. intros []. }
  apply AST_mutual_ind.
  - constructor.
  - intros o l value attr ctx IH Hnd; apply IH.
    cbn [expr_nodes map] in Hnd; inversion Hnd; auto.
  - intros o l func args keywords _ _ _ _.
    cbn [expr_sites call_site].
    eapply Hsmall; destruct (_ && _); [right | left]; reflexivity.
  - intros cls o l fields IH Hnd; apply Hfields; auto.
    cbn [expr_nodes map] in Hnd; inversion Hnd; auto.
  - intros o l arg value IH Hnd; apply IH.
    cbn [keyword_nodes map] in Hnd; inversion Hnd; auto.
  - intros o l value IH Hnd; apply IH.
    cbn [stmt_nodes map] in Hnd; inversion Hnd; auto.
  - intros o l targets value _ _ _.
    cbn [stmt_sites assign_site].
    eapply Hsmall; destruct value; try (left; reflexivity).
    destruct (_ && _); [right | left]; reflexivity.
  - intros cls o l fields IH Hnd; apply Hfields; auto.
    cbn [stmt_nodes map] in Hnd; inversion Hnd; auto.
  - intros e IH; exact IH.
  - intros k IH; exact IH.
  - intros s IH; exact IH.
  - intros cls o l fields IH Hnd; apply Hfields; auto.
    cbn [AST_nodes map] in Hnd; inversion Hnd; auto.
Qed.

Lemma module_sites_NoDup (exc : list string) (tree : module) :
  NoDup (module_objs tree) ->
  NoDup (map key (module_sites exc tree)).
Proof.
  intros Hnd.
  assert (NoDup (map AST_obj (map node (module_sites exc tree)))) as H.
  { destruct tree as [body tis]; unfold module_objs in Hnd.
    cbn [module_nodes module_sites] in *.
    change (flat_map stmt_nodes body ++ flat_map AST_nodes tis)%list
      with (flat_map stmt_nodes body
            ++ flat_map AST_nodes tis)%list in Hnd.
    rewrite !map_app in *. apply NoDup_app.
    - apply (flat_map_sites_NoDup (stmt_sites exc) stmt_nodes).
      + intros s v _ Hv; apply (sites_nodes exc (NStmt s) v Hv).
      + intros s _; apply sites_NoDup.
      + eapply NoDup_app_remove_r; exact Hnd.
    - apply (flat_map_sites_NoDup (AST_sites exc) AST_nodes).
      + intros n v _; apply sites_nodes.
      + intros n _; apply sites_NoDup.
      + eapply NoDup_app_remove_l; exact Hnd.
    - intros o Ho Ho'.
      apply (NoDup_app_disjoint _ _ o Hnd).
      + apply in_map_iff in Ho as (n & <- & Hn).
        apply in_map_iff in Hn as (v & <- & Hv).
        apply in_flat_map in Hv as (s & Hs & Hv).
        apply in_map, in_flat_map; exists s; split; auto.
        apply (sites_nodes exc (NStmt s) v Hv).
      + apply in_map_iff in Ho' as (n & <- & Hn).
        apply in_map_iff in Hn as (v & <- & Hv).
        apply in_flat_map in Hv as (m & Hm & Hv).
        apply in_map, in_flat_map; exists m; split; auto.
        apply sites_nodes with (exc := exc); auto. }
  rewrite map_map in H.
  apply (NoDup_map_inv fst). rewrite map_map. exact H.
Qed.

Lemma add_all_fresh (new : list Violation) (c : CallImportChecker) :
  NoDup (map key (violations c ++ new)) ->
  violations (add_all new c) = (violations c ++ new)%list.
Proof.
  revert c; induction new as [| v new IH]; intros c Hnd; cbn [add_all fold_left].
  - rewrite app_nil_r; reflexivity.
  - assert (set_add v (violations c) = (violations c ++ [v])%list) as Hadd.
    { unfold set_add.
      destruct (existsb (Violation_eqb v) (violations c)) eqn:E; auto.
      exfalso. apply existsb_eqb_key in E.
      rewrite map_app in Hnd.
      apply (NoDup_app_disjoint _ _ (key v) Hnd E). left; reflexivity. }
    change (fold_left add_violation new (add_violation c v))
      with (add_all new (add_violation c v)).
    rewrite IH; cbn [violations add_violation]; rewrite Hadd, <- app_assoc;
      auto.
Qed.

Lemma print_each_length (get_source_segment : string -> AST -> option string)
  (c : CallImportChecker) (file src : string) (verbose : bool)
  (vs : list Violation) (lines : stream) :
  print_each get_source_segment c file src verbose vs = Ok lines ->
  List.length lines = List.length vs.
Proof.
  revert lines; induction vs as [| v vs IH]; cbn [print_each]; intros lines H.
  - inversion H; reflexivity.
  - destruct (report_line _ c file src verbose v); [| discriminate].
    cbn [bind] in H.
    destruct (print_each _ c file src verbose vs) as [rest |]; [| discriminate].
    inversion H; subst; cbn [List.length]. rewrite (IH rest); reflexivity.
Qed.

Lemma visit_fresh (c : CallImportChecker) (tree : module) :
  violations c = [] -> NoDup (module_objs tree) ->
  visit c tree
  = Ok {| issue_code := issue_code c;
          violations := module_sites (exceptions c) tree;
          exceptions := exceptions c |}.
Proof.
  intros Hempty Hnd; rewrite visit_module_sites; f_equal.
  pose proof (add_all_fresh (module_sites (exceptions c) tree) c) as Hv.
  rewrite Hempty in Hv; cbn [app] in Hv.
  specialize (Hv (module_sites_NoDup _ _ Hnd)).
  destruct (add_all_config (module_sites (exceptions c) tree) c) as [Hc He].
  destruct (add_all _ c) as [code vs exc]; cbn in *; subst; reflexivity.
Qed.

(** X1: from an empty set and a tree of distinct objects, a traversal
    records exactly the violations on the violating nodes it reaches: calls
    at column 0 with a callee that is not exempt and assignments at column
    0 whose value is such a call, with no [Call] and no [Assign] above
    them; each once, and the checker's issue code and exception list are
    unchanged. *)
Theorem traversal_records_reportable
  (c : CallImportChecker) (tree : module) :
  violations c = [] ->
  NoDup (module_objs tree) ->
  exists c',
    visit c tree = Ok c' /\
    issue_code c' = issue_code c /\ exceptions c' = exceptions c /\
    NoDup (violations c') /\
    forall v, In v (violations c') <-> reportable (exceptions c) tree v.
Proof.
  intros Hempty Hnd; eexists; split; [apply visit_fresh; auto |].
  cbn [issue_code exceptions violations].
  split; [reflexivity |]. split; [reflexivity |]. split.
  - apply (NoDup_map_inv key), module_sites_NoDup; exact Hnd.
  - intros v; apply module_sites_reportable.
Qed.

Lemma traversal_records_reportable_witness :
  exists c',
    visit (CallImportChecker_init "W001") Samples.tree_binop = Ok c' /\
    issue_code c' = "W001" /\ exceptions c' = ["getLogger"] /\
    NoDup (violations c') /\
    forall v, In v (violations c') <->
              reportable ["getLogger"] Samples.tree_binop v.
Proof.
  apply (traversal_records_reportable (CallImportChecker_init "W001")
           Samples.tree_binop).
  - reflexivity.
  - distinct_objs.
Defined.

(** X2: a run of a linter with one checker, its set empty, on a source
    whose tree has distinct objects prints one line for each reportable
    violation of the tree and no other line, and leaves the linter as it
    was. *)
Theorem run_prints_one_line_per_reportable
  (parse : string -> result module)
  (get_source_segment : string -> AST -> option string)
  (it : set_iter) (c0 : CallImportChecker) (file src : string)
  (verbose : bool) (tree : module) :
  parse src = Ok tree ->
  NoDup (module_objs tree) ->
  valid_iter it ->
  violations c0 = [] ->
  exists reported lines,
    run parse get_source_segment it (single c0) file src verbose
      = Ok (lines, single c0) /\
    print_each get_source_segment c0 file src verbose reported = Ok lines /\
    List.length lines = List.length reported /\
    NoDup reported /\
    Permutation reported (module_sites (exceptions c0) tree) /\
    forall v, In v reported <-> reportable (exceptions c0) tree v.
Proof.
  intros Hparse Hnd Hit Hempty.
  destruct (run_single parse get_source_segment it c0 file src verbose tree
              Hparse Hit Hempty) as (c' & lines & Hv & _ & Hlines & Hrun).
  rewrite (visit_fresh c0 tree Hempty Hnd) in Hv; inversion Hv; subst c'.
  cbn [violations] in Hlines.
  exists (it (module_sites (exceptions c0) tree)), lines.
  split; [exact Hrun |]. split; [exact Hlines |].
  split; [eapply print_each_length; eauto |].
  split; [| split; [apply Hit |]].
  - eapply Permutation_NoDup; [apply Permutation_sym, Hit |].
    apply (NoDup_map_inv key), module_sites_NoDup; exact Hnd.
  - intros v; split; intros H.
    + apply module_sites_reportable.
      apply (Permutation_in _ (Hit _)); exact H.
    + apply (Permutation_in _ (Permutation_sym (Hit _))).
      apply module_sites_reportable; exact H.
Qed.

Lemma run_prints_one_line_per_reportable_witness :
  exists reported lines,
    run Samples.parse Samples.get_source_segment Samples.reversed
      (single (CallImportChecker_init "W001")) "test.py" Samples.src_two true
      = Ok (lines, single (CallImportChecker_init "W001")) /\
    print_each Samples.get_source_segment (CallImportChecker_init "W001")
      "test.py" Samples.src_two true reported = Ok lines /\
    List.length lines = List.length reported /\
    NoDup reported /\
    Permutation reported (module_sites ["getLogger"] Samples.tree_two) /\
    forall v, In v reported <-> reportable ["getLogger"] Samples.tree_two v.
Proof.
  apply (run_prints_one_line_per_reportable Samples.parse
           Samples.get_source_segment Samples.reversed
           (CallImportChecker_init "W001") "test.py" Samples.src_two true
           Samples.tree_two).
  - reflexivity.
  - distinct_objs.
  - exact reversed_valid.
  - reflexivity.
Defined.

Lemma run_checkers_silent
  (get_source_segment : string -> AST -> option string)
  (it : set_iter) (tree : module) (file src : string) (verbose : bool)
  (cs : list CallImportChecker) :
  valid_iter it ->
  (forall exc, module_sites exc tree = []) ->
  Forall (fun c => violations c = []) cs ->
  run_checkers get_source_segment it tree file src verbose cs = Ok ([], cs).
Proof.
  intros Hit Hsites; induction 1 as [| c cs Hc _ IH]; [reflexivity |].
  cbn [run_checkers]. rewrite visit_module_sites, Hsites; cbn [add_all fold_left bind].
  unfold print_violations. rewrite Hc.
  rewrite (Permutation_nil (Permutation_sym (Hit []))).
  cbn [print_each bind]. rewrite IH; cbn [bind app].
  do 3 f_equal. destruct c; unfold clear_violations; cbn in *; congruence.
Qed.

(** X3: when no [Call] and no [Assign] node of the tree is at column 0 (as
    in a module whose calls all sit in indented blocks), a run prints
    nothing, whatever the checkers' exception lists, and leaves the linter
    as it was. *)
Theorem no_report_without_hooked_node_at_column_0
  (parse : string -> result module)
  (get_source_segment : string -> AST -> option string)
  (it : set_iter) (L : Linter) (file src : string) (verbose : bool)
  (tree : module) :
  parse src = Ok tree ->
  valid_iter it ->
  Forall (fun c => violations c = []) (checkers L) ->
  (forall n, In n (module_nodes tree) -> hooked_at_column_0 n = false) ->
  run parse get_source_segment it L file src verbose = Ok ([], L).
Proof.
  intros Hparse Hit Hempty Hquiet.
  assert (forall exc, module_sites exc tree = []) as Hsites.
  { intros exc. destruct (module_sites exc tree) as [| v rest] eqn:E; auto.
    exfalso.
    assert (reportable exc tree v) as (_ & Hviol & root & Hroot & Hbelow)
        by (apply module_sites_reportable; rewrite E; left; reflexivity).
    assert (In (node v) (module_nodes tree)) as Hin.
    { apply below_nodes in Hbelow.
      destruct tree as [body tis]; cbn [module_roots module_nodes] in *.
      apply in_or_app. apply in_app_or in Hroot as [Hroot | Hroot].
      - apply in_map_iff in Hroot as (s & <- & Hs).
        left; apply in_flat_map; exists s; auto.
      - right; apply in_flat_map; exists root; auto. }
    specialize (Hquiet _ Hin).
    destruct (node v) as [[| | ? l ? ? ? |] | [] | [| ? l ? [] |] |];
      cbn [violating hooked_at_column_0] in *; try contradiction;
      destruct Hviol as [Hcol _]; rewrite Hcol in Hquiet; discriminate. }
  unfold run; rewrite Hparse; cbn [bind].
  rewrite (run_checkers_silent get_source_segment it tree file src verbose
             (checkers L) Hit Hsites Hempty).
  cbn [bind]. destruct L; reflexivity.
Qed.

Lemma no_report_without_hooked_node_at_column_0_witness :
  MoreSamples.parse MoreSamples.src_def = Ok MoreSamples.tree_def /\
  run MoreSamples.parse Samples.get_source_segment Samples.in_order
    lint_linter "test.py" MoreSamples.src_def true = Ok ([], lint_linter).
Proof.
  split; [reflexivity |].
  apply (no_report_without_hooked_node_at_column_0 MoreSamples.parse
           Samples.get_source_segment Samples.in_order lint_linter "test.py"
           MoreSamples.src_def true MoreSamples.tree_def).
  - reflexivity.
  - exact in_order_valid.
  - repeat constructor.
  - intros n Hn; cbn in Hn.
    repeat (destruct Hn as [<- | Hn]; [reflexivity |]). destruct Hn.
Defined.

(** ** Verbose and plain reports *)

Lemma format_code_extends (message code : string) :
  extends (format_code message code) message.
Proof.
  destruct (Str.has_newline code) eqn:Hnl.
  - rewrite (format_code_lines message code Hnl). eexists; reflexivity.
  - unfold format_code; rewrite Hnl; cbn [negb].
    destruct (Str.is_empty code).
    + exists EmptyString; rewrite append_empty_r; reflexivity.
    + eexists; reflexivity.
Qed.

Section VerboseFacts.
Variable get_source_segment : string -> AST -> option string.

Lemma report_line_plain (c : CallImportChecker) (file src : string)
  (v : Violation) (long : string) :
  report_line get_source_segment c file src true v = Ok long ->
  exists short,
    report_line get_source_segment c file src false v = Ok short /\
    extends long short.
Proof.
  unfold report_line.
  destruct (get_lineno (node v)) as [line |]; [| discriminate].
  destruct (get_col_offset (node v)) as [col |]; [| discriminate].
  cbn [bind]; intros H; inversion H; subst.
  eexists; split; [reflexivity |].
  unfold format_code at 2; cbn [Str.is_empty].
  apply format_code_extends.
Qed.

Lemma print_each_plain (c : CallImportChecker) (file src : string)
  (vs : list Violation) (long : stream) :
  print_each get_source_segment c file src true vs = Ok long ->
  exists short,
    print_each get_source_segment c file src false vs = Ok short /\
    Forall2 extends long short.
Proof.
  revert long; induction vs as [| v vs IH]; cbn [print_each]; intros long H.
  - inversion H; exists []; split; auto.
  - destruct (report_line _ c file src true v) as [lv |] eqn:Hv;
      [| discriminate].
    cbn [bind] in H.
    destruct (print_each _ c file src true vs) as [rest |]; [| discriminate].
    inversion H; subst.
    destruct (report_line_plain _ _ _ _ _ Hv) as (sv & -> & Hext).
    destruct (IH rest eq_refl) as (srest & -> & Hrest).
    cbn [bind]; exists (sv :: srest); split; auto.
Qed.

Lemma run_checkers_plain (it : set_iter) (tree : module) (file src : string)
  (cs cs' : list CallImportChecker) (long : stream) :
  run_checkers get_source_segment it tree file src true cs = Ok (long, cs') ->
  exists short,
    run_checkers get_source_segment it tree file src false cs
      = Ok (short, cs') /\
    Forall2 extends long short.
Proof.
  revert long cs'; induction cs as [| c cs IH]; cbn [run_checkers];
    intros long cs' H.
  - inversion H; exists []; split; auto.
  - destruct (visit c tree) as [c1 |]; [| discriminate].
    cbn [bind] in *. unfold print_violations in *.
    destruct (print_each _ c1 file src true (it (violations c1)))
      as [mine |] eqn:Hmine; [| discriminate].
    cbn [bind] in H.
    destruct (run_checkers _ it tree file src true cs) as [[more rest] |];
      [| discriminate].
    cbn [bind] in H; inversion H; subst.
    destruct (print_each_plain _ _ _ _ _ Hmine) as (smine & -> & Hm).
    destruct (IH more rest eq_refl) as (smore & -> & Hr).
    cbn [bind]; eexists; split; [reflexivity |].
    apply Forall2_app; auto.
Qed.
End VerboseFacts.

(** X5: verbosity changes neither which violations are reported nor their
    order nor the linter afterwards: when a verbose run returns, the plain
    run on the same input returns as many lines, and each verbose line is
    the plain line followed by the source text (a test looking for the
    plain line in the output finds it either way). *)
Theorem verbose_lines_extend_plain_lines
  (parse : string -> result module)
  (get_source_segment : string -> AST -> option string)
  (it : set_iter) (L L' : Linter) (file src : string) (long : stream) :
  run parse get_source_segment it L file src true = Ok (long, L') ->
  exists short,
    run parse get_source_segment it L file src false = Ok (short, L') /\
    Forall2 extends long short.
Proof.
  unfold run; intros H.
  destruct (parse src) as [tree |]; [| discriminate]. cbn [bind] in *.
  destruct (run_checkers _ it tree file src true (checkers L))
    as [[lines cs] |] eqn:Hloop; [| discriminate].
  cbn [bind] in H; inversion H; subst.
  destruct (run_checkers_plain _ _ _ _ _ _ _ _ Hloop) as (short & -> & Hext).
  cbn [bind]; exists short; split; auto.
Qed.

Lemma verbose_lines_extend_plain_lines_witness :
  exists short,
    run Samples.parse Samples.get_source_segment Samples.in_order lint_linter
      "test.py" Samples.src_blank false = Ok (short, lint_linter) /\
    Forall2 extends
      [format_code "test.py:1:0: W001: Import invoked a Call"
         Samples.code_blank] short.
Proof.
  apply (verbose_lines_extend_plain_lines Samples.parse
           Samples.get_source_segment Samples.in_order lint_linter
           lint_linter "test.py" Samples.src_blank).
  reflexivity.
Defined.

Lemma has_newline_append (a b : string) :
  Str.has_newline (a ++ b) = Str.has_newline a || Str.has_newline b.
Proof.
  induction a as [| ch a IH]; cbn [append Str.has_newline]; auto.
  destruct (Ascii.eqb ch Str.nl); auto.
Qed.

(** X6: a report stays on one line when its parts do: if neither the
    message nor the source snippet holds a newline, neither does the text
    [format_code] returns. *)
Theorem format_code_single_line (message code : string) :
  Str.has_newline message = false ->
  Str.has_newline code = false ->
  Str.has_newline (format_code message code) = false.
Proof.
  intros Hm Hc; unfold format_code; rewrite Hc; cbn [negb].
  destruct (Str.is_empty code); auto.
  rewrite !has_newline_append, Hm, Hc; reflexivity.
Qed.

Lemma format_code_single_line_witness :
  Str.has_newline
    (format_code "test.py:2:0: W001: Import invoked a Call" "re.search('')")
  = false.
Proof.
  apply (format_code_single_line "test.py:2:0: W001: Import invoked a Call"
           "re.search('')"); reflexivity.
Defined.

(** ** Several checkers *)

Lemma run_checkers_app
  (get_source_segment : string -> AST -> option string)
  (it : set_iter) (tree : module) (file src : string) (verbose : bool)
  (cs1 cs2 : list CallImportChecker) :
  run_checkers get_source_segment it tree file src verbose (cs1 ++ cs2)
  = ('(lines1, rest1) <-
       run_checkers get_source_segment it tree file src verbose cs1 ;;
     '(lines2, rest2) <-
       run_checkers get_source_segment it tree file src verbose cs2 ;;
     Ok ((lines1 ++ lines2)%list, (rest1 ++ rest2)%list)).
Proof.
  induction cs1 as [| c cs1 IH]; cbn [app run_checkers bind].
  - destruct (run_checkers _ it tree file src verbose cs2) as [[l r] |];
      reflexivity.
  - destruct (visit c tree) as [c1 |]; cbn [bind]; [| reflexivity].
    destruct (print_violations _ it c1 file src verbose) as [[l c2] |];
      cbn [bind]; [| reflexivity].
    rewrite IH.
    destruct (run_checkers _ it tree file src verbose cs1) as [[l1 r1] |];
      cbn [bind]; [| reflexivity].
    destruct (run_checkers _ it tree file src verbose cs2) as [[l2 r2] |];
      cbn [bind]; [| reflexivity].
    rewrite app_assoc; reflexivity.
Qed.

(** X7: the checkers of a linter report one after another, each as if it
    were alone: a run of a linter holding the checkers [cs1 ++ cs2] prints
    what the run with [cs1] prints followed by what the run with [cs2]
    prints, and leaves the checkers the two runs leave. *)
Theorem checkers_report_one_after_another
  (parse : string -> result module)
  (get_source_segment : string -> AST -> option string)
  (it : set_iter) (cs1 cs2 : list CallImportChecker) (file src : string)
  (verbose : bool) (lines : stream) (L' : Linter) :
  run parse get_source_segment it {| checkers := (cs1 ++ cs2)%list |}
    file src verbose = Ok (lines, L') ->
  exists lines1 lines2 rest1 rest2,
    run parse get_source_segment it {| checkers := cs1 |} file src verbose
      = Ok (lines1, {| checkers := rest1 |}) /\
    run parse get_source_segment it {| checkers := cs2 |} file src verbose
      = Ok (lines2, {| checkers := rest2 |}) /\
    lines = (lines1 ++ lines2)%list /\
    L' = {| checkers := (rest1 ++ rest2)%list |}.
Proof.
  unfold run; cbn [checkers]; intros H.
  destruct (parse src) as [tree |]; [| discriminate]. cbn [bind] in *.
  rewrite run_checkers_app in H.
  destruct (run_checkers _ it tree file src verbose cs1) as [[l1 r1] |];
    [| discriminate].
  cbn [bind] in H.
  destruct (run_checkers _ it tree file src verbose cs2) as [[l2 r2] |];
    [| discriminate].
  cbn [bind] in H; inversion H; subst.
  exists l1, l2, r1, r2; auto.
Qed.

Lemma checkers_report_one_after_another_witness :
  exists lines1 lines2 rest1 rest2,
    run Samples.parse Samples.get_source_segment Samples.in_order
      {| checkers := [CallImportChecker_init "W001"] |}
      "test.py" Samples.src_call false
      = Ok (lines1, {| checkers := rest1 |}) /\
    run Samples.parse Samples.get_source_segment Samples.in_order
      {| checkers := [mkChecker "W002" [] ["search"]] |}
      "test.py" Samples.src_call false
      = Ok (lines2, {| checkers := rest2 |}) /\
    ["test.py:2:0: W001: Import invoked a Call"] = (lines1 ++ lines2)%list /\
    {| checkers := [CallImportChecker_init "W001";
                    mkChecker "W002" [] ["search"]] |}
    = {| checkers := (rest1 ++ rest2)%list |}.
Proof.
  apply (checkers_report_one_after_another Samples.parse
           Samples.get_source_segment Samples.in_order
           [CallImportChecker_init "W001"] [mkChecker "W002" [] ["search"]]
           "test.py" Samples.src_call false).
  reflexivity.
Defined.

(** ** [lint] over several paths *)

Lemma run_keeps_empty_linter (parse : string -> result module)
  (get_source_segment : string -> AST -> option string)
  (it : set_iter) (L L' : Linter) (file src : string) (verbose : bool)
  (lines : stream) :
  Forall (fun c => violations c = []) (checkers L) ->
  run parse get_source_segment it L file src verbose = Ok (lines, L') ->
  L' = L.
Proof.
  intros Hempty Hrun.
  pose proof (run_cleared _ _ _ _ _ _ _ _ _ Hrun) as Hc.
  rewrite clear_violations_empty in Hc by exact Hempty.
  destruct L, L'; cbn in Hc; congruence.
Qed.

Section LintLoop.
Variable parse : string -> result module.
Variable get_source_segment : string -> AST -> option string.
Variable is_file : string -> bool.
Variable read_file : string -> result string.

Local Abbreviation loop :=
  (lint_files parse get_source_segment is_file read_file).

Lemma lint_files_ext (its its' : nat -> set_iter) (verbose : bool)
  (files : list string) (linter : Linter) (n : nat) (out : output) :
  (forall k, its k = its' k) ->
  loop its verbose files linter n out = loop its' verbose files linter n out.
Proof.
  intros Hext; revert linter n out; induction files as [| p files IH];
    intros linter n out; [reflexivity |].
  cbn [lint_files].
  destruct (is_file p); cbn [negb]; [| apply IH].
  destruct (read_file p) as [src |]; cbn [bind]; [| reflexivity].
  rewrite (Hext n).
  destruct (run _ _ (its' n) linter _ src verbose) as [[lines linter'] |];
    cbn [bind]; [apply IH | reflexivity].
Qed.

(** The loop from the count [n] and the output [out], from the loop
    started afresh. *)
Lemma lint_files_frame (its : nat -> set_iter) (verbose : bool)
  (files : list string) (linter : Linter) (n : nat) (out : output) :
  loop its verbose files linter n out
  = ('(m, o) <- loop (fun k => its (k + n)%nat) verbose files linter 0%nat
                  {| stdout := []; stderr := [] |} ;;
     Ok ((m + n)%nat,
         {| stdout := (stdout out ++ stdout o)%list;
            stderr := (stderr out ++ stderr o)%list |})).
Proof.
  revert its linter n out; induction files as [| p files IH];
    intros its linter n out.
  - cbn [lint_files bind stdout stderr].
    rewrite !app_nil_r; destruct out; reflexivity.
  - cbn [lint_files].
    destruct (is_file p); cbn [negb].
    + destruct (read_file p) as [src |]; cbn [bind]; [| reflexivity].
      change (its (0 + n)%nat) with (its n).
      destruct (run _ _ (its n) linter _ src verbose) as [[lines linter'] |];
        cbn [bind]; [| reflexivity].
      rewrite (IH its linter' (S n)).
      rewrite (IH (fun k => its (k + n)%nat) linter' 1%nat).
      rewrite (lint_files_ext (fun k => its (k + 1 + n)%nat)
                 (fun k => its (k + S n)%nat))
        by (intros k; f_equal; lia).
      destruct (loop (fun k => its (k + S n)%nat) verbose files
                  linter' 0%nat _) as [[m o] |]; cbn [bind stdout stderr];
        [| reflexivity].
      rewrite <- app_assoc. do 2 f_equal. lia.
    + destruct verbose; cbn [stdout stderr app].
      * etransitivity; [apply IH |].
        rewrite (IH (fun k => its (k + n)%nat) linter 0%nat
                   {| stdout := [];
                      stderr := [("ignoring file: " ++ p)%string] |}).
        rewrite (lint_files_ext (fun k => its (k + 0 + n)%nat)
                   (fun k => its (k + n)%nat))
          by (intros k; f_equal; lia).
        destruct (loop (fun k => its (k + n)%nat) true files linter 0%nat _)
          as [[m o] |]; cbn [bind stdout stderr app]; [| reflexivity].
        rewrite <- app_assoc, Nat.add_0_r; reflexivity.
      * etransitivity; [apply IH |]. reflexivity.
Qed.

Lemma lint_files_app (its : nat -> set_iter) (verbose : bool)
  (files1 files2 : list string) (linter : Linter) (n : nat) (out : output) :
  Forall (fun c => violations c = []) (checkers linter) ->
  loop its verbose (files1 ++ files2) linter n out
  = ('(n1, out1) <- loop its verbose files1 linter n out ;;
     loop its verbose files2 linter n1 out1).
Proof.
  intros Hempty; revert n out; induction files1 as [| p files1 IH];
    intros n out; [reflexivity |].
  cbn [app lint_files].
  destruct (is_file p); cbn [negb]; [| apply IH].
  destruct (read_file p) as [src |]; cbn [bind]; [| reflexivity].
  destruct (run _ _ (its n) linter _ src verbose) as [[lines linter'] |]
    eqn:Hrun; cbn [bind]; [| reflexivity].
  rewrite (run_keeps_empty_linter _ _ _ _ _ _ _ _ _ Hempty Hrun).
  apply IH.
Qed.

Lemma lint_files_count (its : nat -> set_iter) (verbose : bool)
  (files : list string) (linter : Linter) (n n' : nat) (out out' : output) :
  loop its verbose files linter n out = Ok (n', out') ->
  n' = (n + List.length (analysed is_file files))%nat /\
  stderr out'
  = (stderr out
     ++ (if verbose
         then map (fun path => ("ignoring file: " ++ path)%string)
                (skipped is_file files)
         else []))%list.
Proof.
  revert linter n out; induction files as [| p files IH]; intros linter n out H.
  - cbn in H; inversion H; subst. unfold analysed, skipped; cbn.
    split; [lia |]. destruct verbose; rewrite app_nil_r; reflexivity.
  - cbn [lint_files] in H.
    unfold analysed, skipped in *; cbn [filter].
    destruct (is_file p); cbn [negb] in *.
    + destruct (read_file p) as [src |]; [| discriminate]. cbn [bind] in H.
      destruct (run _ _ (its n) linter _ src verbose) as [[lines linter'] |];
        [| discriminate].
      cbn [bind] in H. apply IH in H as [-> ->].
      cbn [List.length stderr]; split; [lia | reflexivity].
    + apply IH in H as [-> ->]. split; [reflexivity |].
      destruct verbose; cbn [stderr map]; rewrite <- ?app_assoc; reflexivity.
Qed.
End LintLoop.

Lemma lint_linter_empty :
  Forall (fun c => violations c = []) (checkers lint_linter).
Proof. repeat constructor. Qed.

(** X8: when [lint] returns, the error stream holds, when verbose, one
    note for each skipped path in the order of the paths, and then the
    summary, whose count is the number of paths that are regular files (a
    path given twice counts twice); without verbose it holds the summary
    alone. *)
Theorem lint_summary_counts_analysed_files
  (parse : string -> result module)
  (get_source_segment : string -> AST -> option string)
  (is_file : string -> bool) (read_file : string -> result string)
  (its : nat -> set_iter) (files : list string) (verbose : bool)
  (out : output) :
  lint parse get_source_segment is_file read_file its files verbose = Ok out ->
  stderr out
  = ((if verbose
      then map (fun path => ("ignoring file: " ++ path)%string)
             (skipped is_file files)
      else [])
     ++ [("Analyzed " ++ Str.of_nat (List.length (analysed is_file files))
          ++ " files" ++ Str.newline)%string])%list.
Proof.
  unfold lint; intros H.
  destruct (lint_files _ _ _ _ its verbose files _ 0%nat _) as [[n o] |]
    eqn:Hloop; [| discriminate].
  cbn [bind] in H; inversion H; subst; cbn [stderr].
  apply lint_files_count in Hloop as [-> ->]; reflexivity.
Qed.

Lemma lint_summary_counts_analysed_files_witness :
  exists out,
    lint MoreSamples.parse Samples.get_source_segment MoreSamples.is_file
      MoreSamples.read_file (fun _ => Samples.in_order)
      ["/src/two.py"; "/nowhere"; "/src/call.py"; "/src/two.py"] true
    = Ok out /\
    stderr out
    = ["ignoring file: /nowhere";
       ("Analyzed 3 files" ++ Str.newline)%string].
Proof.
  eexists; split; [reflexivity |].
  apply (lint_summary_counts_analysed_files MoreSamples.parse
           Samples.get_source_segment MoreSamples.is_file
           MoreSamples.read_file (fun _ => Samples.in_order)
           ["/src/two.py"; "/nowhere"; "/src/call.py"; "/src/two.py"] true).
  reflexivity.
Defined.

(** X9: files are analysed independently and reported in the order of the
    paths: when [lint] returns on the paths [files1 ++ files2], it returns
    on [files1] and on [files2] alone, and its standard output is the
    output for [files1] followed by the output for [files2]. *)
Theorem lint_stdout_concatenates
  (parse : string -> result module)
  (get_source_segment : string -> AST -> option string)
  (is_file : string -> bool) (read_file : string -> result string)
  (its : nat -> set_iter) (files1 files2 : list string) (verbose : bool)
  (out : output) :
  lint parse get_source_segment is_file read_file its (files1 ++ files2)
    verbose = Ok out ->
  exists out1 out2,
    lint parse get_source_segment is_file read_file its files1 verbose
      = Ok out1 /\
    lint parse get_source_segment is_file read_file
      (fun k => its (k + List.length (analysed is_file files1))%nat)
      files2 verbose = Ok out2 /\
    stdout out = (stdout out1 ++ stdout out2)%list.
Proof.
  unfold lint; intros H.
  fold lint_linter in *.
  rewrite lint_files_app in H by exact lint_linter_empty.
  destruct (lint_files _ _ _ _ its verbose files1 lint_linter 0%nat _)
    as [[n1 o1] |] eqn:H1; [| discriminate].
  cbn [bind] in *.
  destruct (lint_files_count _ _ _ _ _ _ _ _ _ _ _ _ H1) as [Hn1 _].
  cbn [Nat.add] in Hn1; subst n1.
  rewrite lint_files_frame in H.
  destruct (lint_files _ _ _ _
              (fun k => its (k + List.length (analysed is_file files1))%nat)
              verbose files2 lint_linter 0%nat _)
    as [[n2 o2] |]; [| discriminate].
  cbn [bind] in *; inversion H; subst; cbn [stdout].
  eexists _, _; repeat split; reflexivity.
Qed.

Lemma lint_stdout_concatenates_witness :
  exists out out1 out2,
    lint MoreSamples.parse Samples.get_source_segment MoreSamples.is_file
      MoreSamples.read_file (fun _ => Samples.in_order)
      (["/src/two.py"; "/nowhere"] ++ ["/src/call.py"]) false = Ok out /\
    lint MoreSamples.parse Samples.get_source_segment MoreSamples.is_file
      MoreSamples.read_file (fun _ => Samples.in_order)
      ["/src/two.py"; "/nowhere"] false = Ok out1 /\
    lint MoreSamples.parse Samples.get_source_segment MoreSamples.is_file
      MoreSamples.read_file (fun _ => Samples.in_order)
      ["/src/call.py"] false = Ok out2 /\
    stdout out = (stdout out1 ++ stdout out2)%list /\
    stdout out = ["two.py:1:0: W001: Import invoked a Call";
                  "two.py:2:0: W001: Import invoked a Call";
                  "call.py:2:0: W001: Import invoked a Call"].
Proof.
  eexists.
  destruct (lint_stdout_concatenates MoreSamples.parse
              Samples.get_source_segment MoreSamples.is_file
              MoreSamples.read_file (fun _ => Samples.in_order)
              ["/src/two.py"; "/nowhere"] ["/src/call.py"] false _ eq_refl)
    as (out1 & out2 & H1 & H2 & H3).
  exists out1, out2; repeat split; auto.
Defined.



(** * Reports tied to the tree *)

Section SiteReports.
Variable parse : string -> result module.
Variable get_source_segment : string -> AST -> option string.

Lemma print_each_Forall2 (c : CallImportChecker) (file src : string)
  (verbose : bool) (vs : list Violation) (lines : stream) :
  print_each get_source_segment c file src verbose vs = Ok lines ->
  Forall2 (fun v line =>
             report_line get_source_segment c file src verbose v = Ok line)
    vs lines.
Proof.
  revert lines; induction vs as [| v vs IH]; cbn [print_each]; intros lines H.
  - inversion H; constructor.
  - destruct (report_line _ c file src verbose v) as [line |] eqn:Hline;
      [| discriminate].
    cbn [bind] in H.
    destruct (print_each _ c file src verbose vs) as [rest |]; [| discriminate].
    inversion H; subst; constructor; auto.
Qed.

(** A run of one checker with an empty set prints, one line each and in
    the order the set yields them, the sites of the tree. *)
Lemma run_reports_sites (it : set_iter) (c0 : CallImportChecker)
  (file src : string) (verbose : bool) (tree : module) :
  parse src = Ok tree -> NoDup (module_objs tree) -> valid_iter it ->
  violations c0 = [] ->
  exists lines,
    run parse get_source_segment it (single c0) file src verbose
      = Ok (lines, single c0) /\
    Forall2 (fun v line =>
               report_line get_source_segment c0 file src verbose v = Ok line)
      (it (module_sites (exceptions c0) tree)) lines.
Proof.
  intros Hparse Hnd Hit Hempty.
  destruct (run_single parse get_source_segment it c0 file src verbose tree
              Hparse Hit Hempty) as (c' & lines & Hv & _ & Hlines & Hrun).
  rewrite (visit_fresh c0 tree Hempty Hnd) in Hv; inversion Hv; subst c'.
  exists lines; split; auto.
  apply print_each_Forall2; exact Hlines.
Qed.

Lemma sites_outside (exc : list string) (pre post : list stmt) (s : stmt)
  (tis : list AST) (v : Violation) :
  In v (module_sites exc (Module_ (pre ++ s :: post) tis)) ->
  In v (stmt_sites exc s) \/ In (node v) (nodes_outside pre post tis).
Proof.
  cbn [module_sites]; rewrite flat_map_app; cbn [flat_map].
  unfold nodes_outside; intros H.
  repeat (apply in_app_or in H as [H | H]); auto; right.
  - apply in_flat_map in H as (x & Hx & Hv).
    apply in_or_app; left; apply in_flat_map; exists x; split; auto.
    apply (sites_nodes exc (NStmt x) v Hv).
  - apply in_flat_map in H as (x & Hx & Hv).
    apply in_or_app; right; apply in_or_app; left.
    apply in_flat_map; exists x; split; auto.
    apply (sites_nodes exc (NStmt x) v Hv).
  - apply in_flat_map in H as (x & Hx & Hv).
    apply in_or_app; right; apply in_or_app; right.
    apply in_flat_map; exists x; split; auto.
    apply (sites_nodes exc x v Hv).
Qed.

(** The statement [s] has the one site [V]: the run prints the line of [V]
    once, among the lines of the sites outside [s]. *)
Lemma one_site_reported (it : set_iter) (c0 : CallImportChecker)
  (file src : string) (verbose : bool)
  (pre post : list stmt) (s : stmt) (tis : list AST)
  (V : Violation) (lv : location) :
  parse src = Ok (Module_ (pre ++ s :: post) tis) ->
  NoDup (module_objs (Module_ (pre ++ s :: post) tis)) ->
  valid_iter it -> violations c0 = [] ->
  stmt_sites (exceptions c0) s = [V] ->
  AST_location (node V) = Some lv ->
  exists before after lines_before lines_after,
    it (module_sites (exceptions c0) (Module_ (pre ++ s :: post) tis))
      = (before ++ V :: after)%list /\
    (forall v, In v (before ++ after) ->
               ~ In (AST_obj (node v)) (stmt_objs s)) /\
    Forall2 (fun v line =>
               report_line get_source_segment c0 file src verbose v = Ok line)
      before lines_before /\
    Forall2 (fun v line =>
               report_line get_source_segment c0 file src verbose v = Ok line)
      after lines_after /\
    run parse get_source_segment it (single c0) file src verbose
      = Ok ((lines_before
             ++ format_code (line_at (issue_code c0) file lv (message V))
                  (snippet get_source_segment src verbose (node V))
             :: lines_after)%list, single c0).
Proof.
  intros Hparse Hnd Hit Hempty Hsite Hlv.
  set (tree := Module_ (pre ++ s :: post) tis) in *.
  destruct (run_reports_sites it c0 file src verbose tree Hparse Hnd Hit Hempty)
    as (lines & Hrun & Hall).
  assert (In V (module_sites (exceptions c0) tree)) as HV.
  { unfold tree; cbn [module_sites]; rewrite flat_map_app; cbn [flat_map].
    rewrite Hsite. apply in_or_app; left; apply in_or_app; right.
    left; reflexivity. }
  assert (NoDup (it (module_sites (exceptions c0) tree))) as Hnodup.
  { eapply Permutation_NoDup; [apply Permutation_sym, Hit |].
    apply (NoDup_map_inv key), module_sites_NoDup; exact Hnd. }
  pose proof HV as HV'.
  apply (Permutation_in _ (Permutation_sym (Hit _))) in HV'.
  apply in_split in HV' as (before & after & Hsplit).
  rewrite Hsplit in Hall, Hnodup.
  apply Forall2_app_inv_l in Hall as (lb & rest & Hb & Hrest & ->).
  inversion Hrest as [| ? line ? la Hline Ha]; subst.
  rewrite (report_line_located _ _ _ _ _ _ lv Hlv) in Hline.
  inversion Hline; subst line.
  exists before, after, lb, la; repeat split; auto.
  intros v Hin Hobj.
  assert (In v (module_sites (exceptions c0) tree)) as Hv.
  { apply (Permutation_in _ (Hit _)); rewrite Hsplit.
    apply in_app_or in Hin as [Hin | Hin]; apply in_or_app; cbn; auto. }
  apply sites_outside in Hv as [Hv | Hv].
  - rewrite Hsite in Hv; destruct Hv as [<- | []].
    exact (NoDup_remove_2 _ _ _ Hnodup Hin).
  - exact (outside_stmt _ _ _ _ _ Hnd Hv Hobj).
Qed.

(** The statement [s] has no site: every line of the run is the line of a
    site outside [s]. *)
Lemma no_site_reported (it : set_iter) (c0 : CallImportChecker)
  (file src : string) (verbose : bool)
  (pre post : list stmt) (s : stmt) (tis : list AST) :
  parse src = Ok (Module_ (pre ++ s :: post) tis) ->
  NoDup (module_objs (Module_ (pre ++ s :: post) tis)) ->
  valid_iter it -> violations c0 = [] ->
  stmt_sites (exceptions c0) s = [] ->
  exists lines,
    run parse get_source_segment it (single c0) file src verbose
      = Ok (lines, single c0) /\
    Forall2 (fun v line =>
               report_line get_source_segment c0 file src verbose v = Ok line)
      (it (module_sites (exceptions c0) (Module_ (pre ++ s :: post) tis)))
      lines /\
    forall v,
      In v (it (module_sites (exceptions c0)
                  (Module_ (pre ++ s :: post) tis))) ->
      ~ In (AST_obj (node v)) (stmt_objs s).
Proof.
  intros Hparse Hnd Hit Hempty Hsite.
  destruct (run_reports_sites it c0 file src verbose _ Hparse Hnd Hit Hempty)
    as (lines & Hrun & Hall).
  exists lines; repeat split; auto.
  intros v Hin Hobj. apply (Permutation_in _ (Hit _)) in Hin.
  apply sites_outside in Hin as [Hin | Hin].
  - rewrite Hsite in Hin; destruct Hin.
  - exact (outside_stmt _ _ _ _ _ Hnd Hin Hobj).
Qed.
End SiteReports.

(** ** Call statements and plain assignments of the module body *)

(** C1, as stated, fails on call statements in parentheses.  For
    [(\nfoo())] the statement is at line 1, column 0 and the call at line
    2, column 0, its callee [foo] not exempt: the one report is at the
    call's line 2, not at the statement's line 1.  For [(foo())] the
    statement is at column 0 and the call at column 1: nothing is
    reported. *)
Lemma parenthesised_call_reported_at_call :
  (MoreSamples.parse Samples.src_paren
     = Ok (Module_ [Expr 1 (Samples.span 1 0 2 6) Samples.paren_call] []) /\
   Samples.paren_call
     = Call 2 (Samples.span 2 0 2 5) (Name 3 (Samples.span 2 0 2 3) "foo" Load)
         [] [] /\
   callee_exempt ["getLogger"] (Name 3 (Samples.span 2 0 2 3) "foo" Load)
     = false /\
   run MoreSamples.parse Samples.get_source_segment Samples.in_order
     lint_linter "test.py" Samples.src_paren false
     = Ok (["test.py:2:0: W001: Import invoked a Call"], lint_linter) /\
   line_at "W001" "test.py" (Samples.span 1 0 2 6) import_invoked_a_call
     = "test.py:1:0: W001: Import invoked a Call" /\
   ~ In (line_at "W001" "test.py" (Samples.span 1 0 2 6)
           import_invoked_a_call)
        ["test.py:2:0: W001: Import invoked a Call"]) /\
  (MoreSamples.parse MoreSamples.src_paren1
     = Ok (Module_ [Expr 1 (Samples.span 1 0 1 7) MoreSamples.paren1_call] [])
   /\
   MoreSamples.paren1_call
     = Call 2 (Samples.span 1 1 1 6) (Name 3 (Samples.span 1 1 1 4) "foo" Load)
         [] [] /\
   callee_exempt ["getLogger"] (Name 3 (Samples.span 1 1 1 4) "foo" Load)
     = false /\
   run MoreSamples.parse Samples.get_source_segment Samples.in_order
     lint_linter "test.py" MoreSamples.src_paren1 false
     = Ok ([], lint_linter)).
Proof.
  split; repeat split; try reflexivity.
  vm_compute; intros [H | []]; discriminate H.
Qed.

(** C1 (amended): when the value of a statement of the module body is a
    call expression that begins at column offset 0 and whose callee name is
    not in the exception list, the statement records exactly the violation
    on that call, and a run of the engine prints, among the lines of the
    violations the rest of the tree yields, none of them on an object of
    that statement, exactly one line for it: at the call expression's line
    and column 0, under the code W001; this is the statement's own position
    when the statement begins where the call does. *)
Theorem call_statement_reported
  (parse : string -> result module)
  (get_source_segment : string -> AST -> option string)
  (it : set_iter) (file src : string) (verbose : bool)
  (pre post : list stmt) (tis : list AST)
  (o co : obj_id) (l cl : location) (func : expr) (args : list expr)
  (keywords : list keyword) :
  parse src
    = Ok (Module_ (pre ++ Expr o l (Call co cl func args keywords) :: post)
            tis) ->
  NoDup (module_objs
           (Module_ (pre ++ Expr o l (Call co cl func args keywords) :: post)
              tis)) ->
  valid_iter it ->
  col_offset cl = 0 ->
  callee_exempt ["getLogger"] func = false ->
  (forall c, exceptions c = ["getLogger"] ->
     visit_stmt visit_Call c (Expr o l (Call co cl func args keywords))
     = Ok (add_violation c
             (mkViolation (NExpr (Call co cl func args keywords))
                import_invoked_a_call))) /\
  (exists before after lines_before lines_after,
     it (module_sites ["getLogger"]
           (Module_ (pre ++ Expr o l (Call co cl func args keywords) :: post)
              tis))
       = (before
          ++ mkViolation (NExpr (Call co cl func args keywords))
               import_invoked_a_call
          :: after)%list /\
     (forall v, In v (before ++ after) ->
        ~ In (AST_obj (node v))
             (stmt_objs (Expr o l (Call co cl func args keywords)))) /\
     Forall2 (fun v line =>
                report_line get_source_segment (CallImportChecker_init "W001")
                  file src verbose v = Ok line) before lines_before /\
     Forall2 (fun v line =>
                report_line get_source_segment (CallImportChecker_init "W001")
                  file src verbose v = Ok line) after lines_after /\
     run parse get_source_segment it lint_linter file src verbose
       = Ok ((lines_before
              ++ format_code
                   (file ++ ":" ++ Str.of_Z (lineno cl) ++ ":0: W001: "
                    ++ "Import invoked a Call")
                   (snippet get_source_segment src verbose
                      (NExpr (Call co cl func args keywords)))
              :: lines_after)%list, lint_linter)) /\
  (lineno l = lineno cl -> col_offset l = col_offset cl ->
   (file ++ ":" ++ Str.of_Z (lineno cl) ++ ":0: W001: "
    ++ "Import invoked a Call")%string
   = line_at "W001" file l import_invoked_a_call).
Proof.
  intros Hparse Hnd Hit Hcol Hexempt.
  assert (forall exc, exc = ["getLogger"] ->
            (0 =? col_offset cl) && negb (callee_exempt exc func) = true)
    as Hcond by (intros exc ->; rewrite Hcol, Hexempt; reflexivity).
  split; [| split].
  - intros c Hc.
    change (visit_stmt visit_Call c (Expr o l (Call co cl func args keywords)))
      with (visit_Call c (Call co cl func args keywords)).
    rewrite visit_Call_spec, (Hcond _ Hc); reflexivity.
  - rewrite lint_linter_single.
    destruct (one_site_reported parse get_source_segment it
                (CallImportChecker_init "W001") file src verbose pre post
                (Expr o l (Call co cl func args keywords)) tis
                (mkViolation (NExpr (Call co cl func args keywords))
                   import_invoked_a_call) cl)
      as (before & after & lb & la & Hsplit & Hout & Hb & Ha & Hrun); auto.
    { cbn [stmt_sites expr_sites call_site exceptions CallImportChecker_init].
      rewrite (Hcond _ eq_refl); reflexivity. }
    exists before, after, lb, la; repeat split; auto.
    rewrite Hrun. unfold line_at; cbn [message issue_code CallImportChecker_init].
    rewrite Hcol; reflexivity.
  - intros Hline Hcolumn; unfold line_at.
    rewrite Hline, Hcolumn, Hcol; reflexivity.
Qed.

Lemma call_statement_reported_witness :
  Samples.parse Samples.src_call
    = Ok (Module_ ([Samples.import_re]
                   ++ Expr 3 (Samples.span 2 0 2 13) (Samples.re_search 4 0)
                   :: []) []) /\
  (forall c, exceptions c = ["getLogger"] ->
     visit_stmt visit_Call c
       (Expr 3 (Samples.span 2 0 2 13) (Samples.re_search 4 0))
     = Ok (add_violation c
             (mkViolation (NExpr (Samples.re_search 4 0))
                import_invoked_a_call))) /\
  (exists before after lines_before lines_after,
     Samples.in_order
       (module_sites ["getLogger"]
          (Module_ ([Samples.import_re]
                    ++ Expr 3 (Samples.span 2 0 2 13) (Samples.re_search 4 0)
                    :: []) []))
       = (before
          ++ mkViolation (NExpr (Samples.re_search 4 0)) import_invoked_a_call
          :: after)%list /\
     (forall v, In v (before ++ after) ->
        ~ In (AST_obj (node v))
             (stmt_objs
                (Expr 3 (Samples.span 2 0 2 13) (Samples.re_search 4 0)))) /\
     Forall2 (fun v line =>
                report_line Samples.get_source_segment
                  (CallImportChecker_init "W001") "test.py" Samples.src_call
                  false v = Ok line) before lines_before /\
     Forall2 (fun v line =>
                report_line Samples.get_source_segment
                  (CallImportChecker_init "W001") "test.py" Samples.src_call
                  false v = Ok line) after lines_after /\
     run Samples.parse Samples.get_source_segment Samples.in_order lint_linter
       "test.py" Samples.src_call false
       = Ok ((lines_before
              ++ format_code
                   ("test.py" ++ ":" ++ Str.of_Z 2 ++ ":0: W001: "
                    ++ "Import invoked a Call")
                   (snippet Samples.get_source_segment Samples.src_call false
                      (NExpr (Samples.re_search 4 0)))
              :: lines_after)%list, lint_linter)) /\
  (lineno (Samples.span 2 0 2 13) = lineno (Samples.span 2 0 2 13) ->
   col_offset (Samples.span 2 0 2 13) = col_offset (Samples.span 2 0 2 13) ->
   ("test.py" ++ ":" ++ Str.of_Z 2 ++ ":0: W001: "
    ++ "Import invoked a Call")%string
   = line_at "W001" "test.py" (Samples.span 2 0 2 13) import_invoked_a_call).
Proof.
  split; [reflexivity |].
  apply (call_statement_reported Samples.parse Samples.get_source_segment
           Samples.in_order "test.py" Samples.src_call false
           [Samples.import_re] [] [] 3 4 (Samples.span 2 0 2 13)
           (Samples.span 2 0 2 13)).
  - reflexivity.
  - distinct_objs.
  - exact in_order_valid.
  - reflexivity.
  - reflexivity.
Defined.

(** C2, as stated, fails on assignments that are not plain ones: the
    annotated assignment [d: int = foo()] and the augmented assignment
    [e += bar()] are statements at column 0 whose right-hand side is a call
    with a callee that is not exempt, and the run prints nothing for
    them. *)
Lemma annotated_assignment_not_reported :
  (MoreSamples.parse MoreSamples.src_ann
     = Ok (Module_
             [StmtOther S_AnnAssign 1 (Samples.span 1 0 1 14)
                [NExpr (Name 2 (Samples.span 1 0 1 1) "d" Store);
                 NExpr (Name 3 (Samples.span 1 3 1 6) "int" Load);
                 NExpr (Call 4 (Samples.span 1 9 1 14)
                          (Name 5 (Samples.span 1 9 1 12) "foo" Load) [] [])]]
             []) /\
   callee_exempt ["getLogger"] (Name 5 (Samples.span 1 9 1 12) "foo" Load)
     = false /\
   run MoreSamples.parse Samples.get_source_segment Samples.in_order
     lint_linter "test.py" MoreSamples.src_ann false = Ok ([], lint_linter)) /\
  (MoreSamples.parse MoreSamples.src_aug
     = Ok (Module_
             [StmtOther S_AugAssign 1 (Samples.span 1 0 1 10)
                [NExpr (Name 2 (Samples.span 1 0 1 1) "e" Store);
                 NOther X_operator 3 None [];
                 NExpr (Call 4 (Samples.span 1 5 1 10)
                          (Name 5 (Samples.span 1 5 1 8) "bar" Load) [] [])]]
             []) /\
   callee_exempt ["getLogger"] (Name 5 (Samples.span 1 5 1 8) "bar" Load)
     = false /\
   run MoreSamples.parse Samples.get_source_segment Samples.in_order
     lint_linter "test.py" MoreSamples.src_aug false = Ok ([], lint_linter)).
Proof. repeat split; reflexivity. Qed.

(** C2 (amended): when a plain assignment of the module body (an
    [ast.Assign] node, [targets = value]) is at column offset 0 and its
    right-hand side is a call whose callee name is not in the exception
    list, the statement records exactly the violation on the assignment,
    and a run of the engine prints, among the lines of the violations the
    rest of the tree yields, exactly one line for it, at the assignment
    statement's line and column; none of the other lines is on an object
    of the statement, so none is on the nested call. *)
Theorem assignment_reported_at_statement
  (parse : string -> result module)
  (get_source_segment : string -> AST -> option string)
  (it : set_iter) (file src : string) (verbose : bool)
  (pre post : list stmt) (tis : list AST)
  (o co : obj_id) (l cl : location) (targets : list expr) (func : expr)
  (args : list expr) (keywords : list keyword) :
  parse src
    = Ok (Module_
            (pre ++ Assign o l targets (Call co cl func args keywords) :: post)
            tis) ->
  NoDup (module_objs
           (Module_
              (pre ++ Assign o l targets (Call co cl func args keywords)
               :: post) tis)) ->
  valid_iter it ->
  col_offset l = 0 ->
  callee_exempt ["getLogger"] func = false ->
  (forall c, exceptions c = ["getLogger"] ->
     visit_stmt visit_Call c
       (Assign o l targets (Call co cl func args keywords))
     = Ok (add_violation c
             (mkViolation
                (NStmt (Assign o l targets (Call co cl func args keywords)))
                import_invoked_a_call))) /\
  exists before after lines_before lines_after,
    it (module_sites ["getLogger"]
          (Module_
             (pre ++ Assign o l targets (Call co cl func args keywords)
              :: post) tis))
      = (before
         ++ mkViolation
              (NStmt (Assign o l targets (Call co cl func args keywords)))
              import_invoked_a_call
         :: after)%list /\
    (forall v, In v (before ++ after) ->
       ~ In (AST_obj (node v))
            (stmt_objs (Assign o l targets (Call co cl func args keywords)))) /\
    (forall v, In v (before ++ after) -> AST_obj (node v) <> co) /\
    Forall2 (fun v line =>
               report_line get_source_segment (CallImportChecker_init "W001")
                 file src verbose v = Ok line) before lines_before /\
    Forall2 (fun v line =>
               report_line get_source_segment (CallImportChecker_init "W001")
                 file src verbose v = Ok line) after lines_after /\
    run parse get_source_segment it lint_linter file src verbose
      = Ok ((lines_before
             ++ format_code
                  (file ++ ":" ++ Str.of_Z (lineno l) ++ ":"
                   ++ Str.of_Z (col_offset l) ++ ": W001: "
                   ++ "Import invoked a Call")
                  (snippet get_source_segment src verbose
                     (NStmt (Assign o l targets
                               (Call co cl func args keywords))))
             :: lines_after)%list, lint_linter).
Proof.
  intros Hparse Hnd Hit Hcol Hexempt.
  assert (forall exc, exc = ["getLogger"] ->
            (0 =? col_offset l) && negb (callee_exempt exc func) = true)
    as Hcond by (intros exc ->; rewrite Hcol, Hexempt; reflexivity).
  split.
  - intros c Hc.
    change (visit_stmt visit_Call c
              (Assign o l targets (Call co cl func args keywords)))
      with (visit_Assign c (Assign o l targets (Call co cl func args keywords))).
    rewrite visit_Assign_spec, (Hcond _ Hc); reflexivity.
  - rewrite lint_linter_single.
    destruct (one_site_reported parse get_source_segment it
                (CallImportChecker_init "W001") file src verbose pre post
                (Assign o l targets (Call co cl func args keywords)) tis
                (mkViolation
                   (NStmt (Assign o l targets (Call co cl func args keywords)))
                   import_invoked_a_call) l)
      as (before & after & lb & la & Hsplit & Hout & Hb & Ha & Hrun); auto.
    { cbn [stmt_sites assign_site exceptions CallImportChecker_init].
      rewrite (Hcond _ eq_refl); reflexivity. }
    exists before, after, lb, la; repeat split; auto.
    intros v Hin Heq; apply (Hout v Hin).
    unfold stmt_objs; rewrite Heq.
    change co with (AST_obj (NExpr (Call co cl func args keywords))).
    apply in_map. cbn [stmt_nodes]. right; apply in_or_app; right.
    left; reflexivity.
Qed.

Lemma assignment_reported_at_statement_witness :
  Samples.parse Samples.src_assign
    = Ok (Module_ ([Samples.import_re] ++ Samples.assign_stmt :: []) []) /\
  (forall c, exceptions c = ["getLogger"] ->
     visit_stmt visit_Call c Samples.assign_stmt
     = Ok (add_violation c
             (mkViolation (NStmt Samples.assign_stmt) import_invoked_a_call)))
  /\
  exists before after lines_before lines_after,
    Samples.in_order
      (module_sites ["getLogger"]
         (Module_ ([Samples.import_re] ++ Samples.assign_stmt :: []) []))
      = (before
         ++ mkViolation (NStmt Samples.assign_stmt) import_invoked_a_call
         :: after)%list /\
    (forall v, In v (before ++ after) ->
       ~ In (AST_obj (node v)) (stmt_objs Samples.assign_stmt)) /\
    (forall v, In v (before ++ after) -> AST_obj (node v) <> 5%N) /\
    Forall2 (fun v line =>
               report_line Samples.get_source_segment
                 (CallImportChecker_init "W001") "test.py" Samples.src_assign
                 false v = Ok line) before lines_before /\
    Forall2 (fun v line =>
               report_line Samples.get_source_segment
                 (CallImportChecker_init "W001") "test.py" Samples.src_assign
                 false v = Ok line) after lines_after /\
    run Samples.parse Samples.get_source_segment Samples.in_order lint_linter
      "test.py" Samples.src_assign false
      = Ok ((lines_before
             ++ format_code
                  ("test.py" ++ ":" ++ Str.of_Z 2 ++ ":" ++ Str.of_Z 0
                   ++ ": W001: " ++ "Import invoked a Call")
                  (snippet Samples.get_source_segment Samples.src_assign false
                     (NStmt Samples.assign_stmt))
             :: lines_after)%list, lint_linter).
Proof.
  split; [reflexivity |].
  apply (assignment_reported_at_statement Samples.parse
           Samples.get_source_segment Samples.in_order "test.py"
           Samples.src_assign false [Samples.import_re] [] [] 3 5
           (Samples.span 2 0 2 17) (Samples.span 2 4 2 17)
           [Name 4 (Samples.span 2 0 2 1) "a" Store]).
  - reflexivity.
  - distinct_objs.
  - exact in_order_valid.
  - reflexivity.
  - reflexivity.
Defined.

(** X4: an assignment whose value is not itself a call records nothing,
    wherever calls occur in its targets or inside its value: its traversal
    leaves every checker as it was, and the lines a run prints are those
    of the violations the rest of the tree yields, none of them on the
    assignment or on a node below it. *)
Theorem assignment_without_call_value_silent
  (parse : string -> result module)
  (get_source_segment : string -> AST -> option string)
  (it : set_iter) (c0 : CallImportChecker) (file src : string)
  (verbose : bool) (pre post : list stmt) (tis : list AST)
  (o : obj_id) (l : location) (targets : list expr) (value : expr) :
  parse src = Ok (Module_ (pre ++ Assign o l targets value :: post) tis) ->
  NoDup (module_objs (Module_ (pre ++ Assign o l targets value :: post) tis)) ->
  valid_iter it ->
  violations c0 = [] ->
  isinstance value [ClsCall] = false ->
  (forall c, visit_stmt visit_Call c (Assign o l targets value) = Ok c) /\
  (forall exc,
     module_sites exc (Module_ (pre ++ Assign o l targets value :: post) tis)
     = module_sites exc (Module_ (pre ++ post) tis)) /\
  exists lines,
    run parse get_source_segment it (single c0) file src verbose
      = Ok (lines, single c0) /\
    Forall2 (fun v line =>
               report_line get_source_segment c0 file src verbose v = Ok line)
      (it (module_sites (exceptions c0) (Module_ (pre ++ post) tis))) lines /\
    forall v,
      In v (it (module_sites (exceptions c0) (Module_ (pre ++ post) tis))) ->
      ~ In (AST_obj (node v)) (stmt_objs (Assign o l targets value)).
Proof.
  intros Hparse Hnd Hit Hempty Hcall.
  assert (forall exc, stmt_sites exc (Assign o l targets value) = []) as Hsite
      by (intros exc; destruct value; try discriminate Hcall; reflexivity).
  assert (forall exc,
            module_sites exc
              (Module_ (pre ++ Assign o l targets value :: post) tis)
            = module_sites exc (Module_ (pre ++ post) tis)) as Hsame.
  { intros exc; cbn [module_sites]; rewrite !flat_map_app; cbn [flat_map].
    rewrite Hsite; reflexivity. }
  split; [| split; [exact Hsame |]].
  - intros c.
    change (visit_stmt visit_Call c (Assign o l targets value))
      with (visit_Assign c (Assign o l targets value)).
    rewrite visit_Assign_spec.
    destruct value; try discriminate Hcall; rewrite andb_false_r; reflexivity.
  - rewrite <- Hsame.
    apply (no_site_reported parse get_source_segment it c0 file src verbose
             pre post (Assign o l targets value) tis); auto.
Qed.

Lemma assignment_without_call_value_silent_witness :
  In (NExpr (Call 3 (Samples.span 1 0 1 5)
               (Name 4 (Samples.span 1 0 1 3) "foo" Load) [] []))
     (stmt_nodes MoreSamples.target_stmt) /\
  (forall c, visit_stmt visit_Call c MoreSamples.target_stmt = Ok c) /\
  (forall exc,
     module_sites exc (Module_ ([] ++ MoreSamples.target_stmt :: []) [])
     = module_sites exc (Module_ ([] ++ []) [])) /\
  exists lines,
    run MoreSamples.parse Samples.get_source_segment Samples.in_order
      (single (CallImportChecker_init "W001")) "test.py"
      MoreSamples.src_target false
      = Ok (lines, single (CallImportChecker_init "W001")) /\
    Forall2 (fun v line =>
               report_line Samples.get_source_segment
                 (CallImportChecker_init "W001") "test.py"
                 MoreSamples.src_target false v = Ok line)
      (Samples.in_order
         (module_sites (exceptions (CallImportChecker_init "W001"))
            (Module_ ([] ++ []) []))) lines /\
    forall v,
      In v (Samples.in_order
              (module_sites (exceptions (CallImportChecker_init "W001"))
                 (Module_ ([] ++ []) []))) ->
      ~ In (AST_obj (node v)) (stmt_objs MoreSamples.target_stmt).
Proof.
  split; [cbn; auto |].
  apply (assignment_without_call_value_silent MoreSamples.parse
           Samples.get_source_segment Samples.in_order
           (CallImportChecker_init "W001") "test.py" MoreSamples.src_target
           false [] [] []).
  - reflexivity.
  - distinct_objs.
  - exact in_order_valid.
  - reflexivity.
  - reflexivity.
Defined.

(** * The traversal under the recursion limit *)

Lemma visit_list_within {A : Type}
  (f g : CallImportChecker -> A -> result CallImportChecker)
  (height : A -> nat) (d : nat) (l : list A) :
  (forall c x, exists c', f c x = Ok c') ->
  Forall (fun x => forall c,
            (height x <= d -> g c x = f c x)%nat /\
            (d < height x -> g c x = Raise recursion_error)%nat) l ->
  forall c,
    (list_max (map height l) <= d ->
     visit_list g c l = visit_list f c l)%nat /\
    (d < list_max (map height l) ->
     visit_list g c l = Raise recursion_error)%nat.
Proof.
  intros Htotal; induction 1 as [| x l Hx _ IH]; intros c.
  - cbn; split; [reflexivity | lia].
  - cbn [map list_max fold_right visit_list].
    change (fold_right Nat.max 0%nat (map height l))
      with (list_max (map height l)).
    destruct (Hx c) as [Hfit Hdeep]. split; intros Hh.
    + rewrite Hfit by lia. destruct (f c x) as [c1 |]; cbn [bind]; auto.
      apply IH; lia.
    + destruct (le_lt_dec (height x) d) as [Hle | Hlt].
      * rewrite Hfit by exact Hle.
        destruct (Htotal c x) as (c1 & ->); cbn [bind].
        apply IH; lia.
      * rewrite Hdeep by exact Hlt; reflexivity.
Qed.

Lemma visit_AST_total (c : CallImportChecker) (n : AST) :
  exists c', visit_AST visit_Call c n = Ok c'.
Proof.
  destruct (proj2 (proj2 (proj2 visit_sound)) n c) as (c' & H & _).
  exists c'; exact H.
Qed.

Lemma visit_stmt_total (c : CallImportChecker) (s : stmt) :
  exists c', visit_stmt visit_Call c s = Ok c'.
Proof. exact (visit_AST_total c (NStmt s)). Qed.

(** With enough depth the limited traversal is the traversal; with less it
    raises [RecursionError]. *)
Lemma visit_AST_within_spec (n : AST) (depth : nat) (c : CallImportChecker) :
  (AST_height n <= depth ->
   visit_AST_within depth c n = visit_AST visit_Call c n)%nat /\
  (depth < AST_height n ->
   visit_AST_within depth c n = Raise recursion_error)%nat.
Proof.
  revert n depth c.
  assert ((forall e depth c,
             (expr_height e <= depth ->
              visit_AST_within depth c (NExpr e) = visit_expr visit_Call c e)%nat
             /\ (depth < expr_height e ->
                 visit_AST_within depth c (NExpr e)
                 = Raise recursion_error)%nat) /\
          (forall k depth c,
             (keyword_height k <= depth ->
              visit_AST_within depth c (NKeyword k)
              = visit_keyword visit_Call c k)%nat
             /\ (depth < keyword_height k ->
                 visit_AST_within depth c (NKeyword k)
                 = Raise recursion_error)%nat) /\
          (forall s depth c,
             (stmt_height s <= depth ->
              visit_AST_within depth c (NStmt s) = visit_stmt visit_Call c s)%nat
             /\ (depth < stmt_height s ->
                 visit_AST_within depth c (NStmt s)
                 = Raise recursion_error)%nat) /\
          (forall n depth c,
             (AST_height n <= depth ->
              visit_AST_within depth c n = visit_AST visit_Call c n)%nat
             /\ (depth < AST_height n ->
                 visit_AST_within depth c n = Raise recursion_error)%nat))
    as (_ & _ & _ & H); [| exact H].
  assert (forall fields d c,
            Forall (fun n => forall depth c,
                      (AST_height n <= depth ->
                       visit_AST_within depth c n
                       = visit_AST visit_Call c n)%nat
                      /\ (depth < AST_height n ->
                          visit_AST_within depth c n
                          = Raise recursion_error)%nat) fields ->
            (S (list_max (map AST_height fields)) <= S d ->
             visit_list (visit_AST_within d) c fields
             = visit_list (visit_AST visit_Call) c fields)%nat /\
            (S d < S (list_max (map AST_height fields)) ->
             visit_list (visit_AST_within d) c fields
             = Raise recursion_error)%nat) as Hfields.
  { intros fields d c Hall.
    destruct (visit_list_within (visit_AST visit_Call) (visit_AST_within d)
                AST_height d fields visit_AST_total) with (c := c)
      as [Hfit Hdeep].
    - eapply Forall_impl; [| exact Hall]. intros n Hn c'; apply Hn.
    - split; intros; [apply Hfit | apply Hdeep]; lia. }
  assert (forall e, (1 <= expr_height e)%nat) as Hpos
      by (intros []; cbn [expr_height]; lia).
  apply AST_mutual_ind.
  - intros o l id ctx [| [| d]] c; cbn; split; intros; auto; lia.
  - intros o l value attr ctx IH [| d] c;
      cbn [expr_height visit_AST_within visit_expr];
      [split; intros; [lia | reflexivity] |].
    destruct (IH d c) as [Hfit Hdeep]. pose proof (Hpos value).
    split; intros.
    + rewrite Hfit by lia.
      destruct d as [| d]; [lia |].
      destruct (visit_expr visit_Call c value); reflexivity.
    + rewrite Hdeep by lia; reflexivity.
  - intros o l func args keywords _ _ _ [| d] c; cbn; split; intros; auto; lia.
  - intros cls o l fields IH [| d] c; cbn [expr_height visit_AST_within];
      [split; intros; [lia | reflexivity] |].
    apply Hfields; exact IH.
  - intros o l arg value IH [| d] c; cbn [keyword_height visit_AST_within];
      [split; intros; [lia | reflexivity] |].
    destruct (IH d c) as [Hfit Hdeep].
    split; intros; [apply Hfit | apply Hdeep]; lia.
  - intros o l value IH [| d] c; cbn [stmt_height visit_AST_within];
      [split; intros; [lia | reflexivity] |].
    destruct (IH d c) as [Hfit Hdeep].
    split; intros; [apply Hfit | apply Hdeep]; lia.
  - intros o l targets value _ _ [| d] c; cbn; split; intros; auto; lia.
  - intros cls o l fields IH [| d] c; cbn [stmt_height visit_AST_within];
      [split; intros; [lia | reflexivity] |].
    apply Hfields; exact IH.
  - intros e IH; exact IH.
  - intros k IH; exact IH.
  - intros s IH; exact IH.
  - intros cls o l fields IH [| d] c; cbn [AST_height visit_AST_within];
      [split; intros; [lia | reflexivity] |].
    apply Hfields; exact IH.
Qed.

Lemma visit_within_spec (tree : module) (depth : nat) (c : CallImportChecker) :
  (module_height tree <= depth -> visit_within depth c tree = visit c tree)%nat
  /\
  (depth < module_height tree ->
   visit_within depth c tree = Raise recursion_error)%nat.
Proof.
  destruct tree as [body tis]; destruct depth as [| d];
    cbn [module_height visit_within];
    [split; intros; [lia | reflexivity] |].
  unfold visit; cbn [visit_mod].
  assert (forall c,
            (list_max (map stmt_height body) <= d ->
             visit_list (fun c s => visit_AST_within d c (NStmt s)) c body
             = visit_list (visit_stmt visit_Call) c body)%nat /\
            (d < list_max (map stmt_height body) ->
             visit_list (fun c s => visit_AST_within d c (NStmt s)) c body
             = Raise recursion_error)%nat) as Hbody.
  { apply visit_list_within; [exact visit_stmt_total |].
    apply Forall_forall; intros s _ c'.
    exact (visit_AST_within_spec (NStmt s) d c'). }
  assert (forall c,
            (list_max (map AST_height tis) <= d ->
             visit_list (visit_AST_within d) c tis
             = visit_list (visit_AST visit_Call) c tis)%nat /\
            (d < list_max (map AST_height tis) ->
             visit_list (visit_AST_within d) c tis
             = Raise recursion_error)%nat) as Htis.
  { apply visit_list_within; [exact visit_AST_total |].
    apply Forall_forall; intros n _ c'.
    exact (visit_AST_within_spec n d c'). }
  split; intros Hh.
  - rewrite (proj1 (Hbody c)) by lia.
    destruct (visit_list (visit_stmt visit_Call) c body) as [c1 |];
      cbn [bind]; auto.
    apply Htis; lia.
  - destruct (le_lt_dec (list_max (map stmt_height body)) d) as [Hle | Hlt].
    + rewrite (proj1 (Hbody c)) by exact Hle.
      destruct (visit_stmts_ok body c) as (c1 & -> & _); cbn [bind].
      apply Htis; lia.
    + rewrite (proj2 (Hbody c)) by exact Hlt; reflexivity.
Qed.

Section WithinFacts.
Variable parse : string -> result module.
Variable get_source_segment : string -> AST -> option string.

Lemma run_checkers_within_enough (depth : nat) (it : set_iter) (tree : module)
  (file src : string) (verbose : bool) (cs : list CallImportChecker) :
  (module_height tree <= depth)%nat ->
  run_checkers_within get_source_segment depth it tree file src verbose cs
  = run_checkers get_source_segment it tree file src verbose cs.
Proof.
  intros Hh; induction cs as [| c cs IH]; [reflexivity |].
  cbn [run_checkers_within run_checkers].
  rewrite (proj1 (visit_within_spec tree depth c) Hh), IH; reflexivity.
Qed.

Lemma run_within_enough (depth : nat) (it : set_iter) (L : Linter)
  (file src : string) (verbose : bool) (tree : module) :
  parse src = Ok tree -> (module_height tree <= depth)%nat ->
  run_within parse get_source_segment depth it L file src verbose
  = run parse get_source_segment it L file src verbose.
Proof.
  intros Hparse Hh; unfold run_within, run; rewrite Hparse; cbn [bind].
  rewrite run_checkers_within_enough by exact Hh; reflexivity.
Qed.

Lemma run_within_too_deep (depth : nat) (it : set_iter) (L : Linter)
  (file src : string) (verbose : bool) (tree : module) :
  parse src = Ok tree -> (depth < module_height tree)%nat ->
  checkers L <> [] ->
  run_within parse get_source_segment depth it L file src verbose
  = Raise recursion_error.
Proof.
  intros Hparse Hh Hcs; unfold run_within; rewrite Hparse; cbn [bind].
  destruct (checkers L) as [| c cs]; [congruence |].
  cbn [run_checkers_within].
  rewrite (proj2 (visit_within_spec tree depth c) Hh); reflexivity.
Qed.
End WithinFacts.

Lemma deep_chain_height (n : nat) :
  expr_height (MoreSamples.deep_chain n) = S (S n).
Proof. induction n as [| n IH]; cbn [MoreSamples.deep_chain expr_height]; auto. Qed.

Lemma deep_tree_height (n : nat) :
  module_height (MoreSamples.deep_tree n) = (n + 4)%nat.
Proof.
  unfold MoreSamples.deep_tree; cbn [module_height map list_max fold_right
                                       stmt_height].
  rewrite deep_chain_height; lia.
Qed.

(** C8, as stated, fails on a valid source with deeply nested nodes, the
    expression statement [a.b.b. ... .b] with 600 attribute accesses: the
    parser accepts it, and the traversal, which needs a nested call of
    [visit] for each of them, raises [RecursionError] under the default
    recursion limit (fewer than 500 nested calls of [visit]); [run] does
    not catch it. *)
Lemma deep_tree_raises_RecursionError :
  MoreSamples.parse (MoreSamples.deep_src 600)
    = Ok (MoreSamples.deep_tree 600) /\
  forall depth, (depth <= 500)%nat ->
    run_within MoreSamples.parse Samples.get_source_segment depth
      Samples.in_order lint_linter "test.py" (MoreSamples.deep_src 600) false
    = Raise recursion_error.
Proof.
  assert (MoreSamples.parse (MoreSamples.deep_src 600)
          = Ok (MoreSamples.deep_tree 600)) as Hparse
      by (vm_compute; reflexivity).
  split; [exact Hparse |].
  intros depth Hdepth.
  apply (run_within_too_deep _ _ _ _ _ _ _ _ _ Hparse).
  - rewrite deep_tree_height; lia.
  - discriminate.
Qed.

(** C8 (amended): when the parser rejects the source text, [run] raises
    the parser's exception and neither visits nor prints; when the parser
    accepts it and the tree nests no deeper than the interpreter's
    recursion limit lets the traversal descend, [run] returns (the
    violations waiting in the linter's sets, none before the first run and
    after each run, being on nodes with a position); on a deeper tree the
    traversal of the first checker raises [RecursionError], which [run]
    does not catch either. *)
Theorem parse_error_propagates
  (parse : string -> result module)
  (get_source_segment : string -> AST -> option string)
  (depth : nat) (it : set_iter) (L : Linter) (file src : string)
  (verbose : bool) :
  (forall e, parse src = Raise e ->
     run_within parse get_source_segment depth it L file src verbose
     = Raise e) /\
  (forall tree, parse src = Ok tree -> valid_iter it -> pending_located L ->
     (module_height tree <= depth)%nat ->
     exists lines L',
       run_within parse get_source_segment depth it L file src verbose
       = Ok (lines, L') /\
       run parse get_source_segment it L file src verbose = Ok (lines, L')) /\
  (forall tree, parse src = Ok tree ->
     (depth < module_height tree)%nat -> checkers L <> [] ->
     run_within parse get_source_segment depth it L file src verbose
     = Raise recursion_error).
Proof.
  split; [| split].
  - intros e He; unfold run_within; rewrite He; reflexivity.
  - intros tree Ht Hit Hloc Hh.
    rewrite (run_within_enough parse get_source_segment depth it L file src
               verbose tree Ht Hh).
    unfold run; rewrite Ht; cbn [bind].
    destruct (run_checkers_total get_source_segment it tree file src verbose
                (checkers L) Hit Hloc) as (lines & cs & ->).
    cbn [bind]; eexists _, _; split; reflexivity.
  - intros tree Ht Hh Hcs. apply (run_within_too_deep _ _ _ _ _ _ _ _ _ Ht Hh Hcs).
Qed.

Lemma parse_error_propagates_witness :
  Samples.parse "foo(" = Raise (SyntaxError "invalid syntax") /\
  run_within Samples.parse Samples.get_source_segment 400 Samples.in_order
    lint_linter "test.py" "foo(" true = Raise (SyntaxError "invalid syntax") /\
  Samples.parse Samples.src_call = Ok Samples.tree_call /\
  (exists lines L',
     run_within Samples.parse Samples.get_source_segment 400 Samples.in_order
       lint_linter "test.py" Samples.src_call true = Ok (lines, L') /\
     run Samples.parse Samples.get_source_segment Samples.in_order
       lint_linter "test.py" Samples.src_call true = Ok (lines, L')) /\
  run_within Samples.parse Samples.get_source_segment 2 Samples.in_order
    lint_linter "test.py" Samples.src_call true = Raise recursion_error.
Proof.
  split; [reflexivity |].
  destruct (parse_error_propagates Samples.parse Samples.get_source_segment
              400 Samples.in_order lint_linter "test.py" "foo(" true)
    as (H1 & _ & _).
  destruct (parse_error_propagates Samples.parse Samples.get_source_segment
              400 Samples.in_order lint_linter "test.py" Samples.src_call true)
    as (_ & H2 & _).
  destruct (parse_error_propagates Samples.parse Samples.get_source_segment
              2 Samples.in_order lint_linter "test.py" Samples.src_call true)
    as (_ & _ & H3).
  split; [apply H1; reflexivity |].
  split; [reflexivity |].
  split.
  - apply (H2 Samples.tree_call).
    + reflexivity.
    + exact in_order_valid.
    + repeat constructor.
    + vm_compute; lia.
  - apply (H3 Samples.tree_call).
    + reflexivity.
    + vm_compute; lia.
    + discriminate.
Defined.
